(** * Strathon design system: the request client and the event-stream client

    A shallow embedding of the two data-layer classes of the repository,
    [StrathonAPIClient] (lib/api-client.ts) and [StrathonWebSocketClient]
    (the websocket client), with the properties their specification states
    about them.

    The clients are asynchronous objects.  They are modelled by explicit state
    passing: a record holds the fields of the object together with the part
    of the platform the code talks to (the clock, the timer table, the abort
    signals, the transport), and every method is a function on that record.
    What the platform decides (how a transport call ends and after how long,
    what [Math.random] draws, when somebody cancels) is an input. *)

From Stdlib Require Import ZArith QArith Ascii String List Bool Lia.
From stdpp Require Import base option list gmap strings pretty.

Set Warnings "-register-all".
Close Scope Q_scope.
Local Open Scope Z_scope.

(** ** JavaScript values *)

Module Js.

(** A value as [JSON.parse] or [response.json()] yields it.  An object is the
    list of its members; numbers are kept as integers, the clients only test
    them for truthiness and hand them on. *)
Inductive Value : Type :=
| Null
| Bool (b : bool)
| Num (n : Z)
| Str (s : string)
| Arr (items : list Value)
| Obj (members : list (string * Value)).

Fixpoint assoc (k : string) (ms : list (string * Value)) : option Value :=
  match ms with
  | [] => None
  | (k', v) :: rest => if String.eqb k k' then Some v else assoc k rest
  end.

(** [v.k] for a [v] that is not [null]: [None] is [undefined]. *)
Definition get (v : Value) (k : string) : option Value :=
  match v with
  | Obj ms => assoc k ms
  | _ => None
  end.

(** [v?.k], also defined on [undefined] and [null]. *)
Definition get_opt (v : option Value) (k : string) : option Value :=
  match v with
  | None | Some Null => None
  | Some v => get v k
  end.

Inductive Typeof := TUndefined | TObject | TBoolean | TNumber | TString.

Definition typeof (v : option Value) : Typeof :=
  match v with
  | None => TUndefined
  | Some (Null | Arr _ | Obj _) => TObject
  | Some (Bool _) => TBoolean
  | Some (Num _) => TNumber
  | Some (Str _) => TString
  end.

Definition is_boolean (v : option Value) : bool :=
  match typeof v with TBoolean => true | _ => false end.
Definition is_string (v : option Value) : bool :=
  match typeof v with TString => true | _ => false end.
Definition is_object (v : option Value) : bool :=
  match typeof v with TObject => true | _ => false end.
Definition is_null (v : option Value) : bool :=
  match v with Some Null => true | _ => false end.

(** ToBoolean. *)
Definition truthy (v : option Value) : bool :=
  match v with
  | None | Some Null => false
  | Some (Bool b) => b
  | Some (Num n) => negb (n =? 0)
  | Some (Str s) => negb (String.eqb s EmptyString)
  | Some (Arr _ | Obj _) => true
  end.

(** [String(v)], as [Error(v)] computes it; [None]: the conversion throws a
    [TypeError].  The elements of an array are joined by commas, [null]
    counting as the empty string; an object is ["[object Object]"], unless it
    has a member [toString], which hides the method and is no function. *)
Fixpoint toString (v : Value) : option string :=
  match v with
  | Null => Some "null"
  | Bool b => Some (if b then "true" else "false")
  | Num n => Some (pretty n)
  | Str s => Some s
  | Arr items =>
      (fix join (items : list Value) : option string :=
         match items with
         | [] => Some EmptyString
         | item :: rest =>
             let element := match item with
                            | Null => Some EmptyString
                            | _ => toString item
                            end in
             match rest with
             | [] => element
             | _ => match element, join rest with
                    | Some s, Some t => Some (s +:+ "," +:+ t)
                    | _, _ => None
                    end
             end
         end) items
  | Obj members =>
      match assoc "toString" members with
      | Some _ => None
      | None => Some "[object Object]"
      end
  end.

(** [a || b] on strings that may be [null]. *)
Definition or_string (a b : option string) : option string :=
  match a with
  | Some s => if String.eqb s EmptyString then b else a
  | None => b
  end.

End Js.

(** ** The request client: lib/api-client.ts *)

Module ApiClient.

Record APIConfig := {
  baseURL : string;
  cfg_timeout : Z;
  cfg_retryAttempts : Z;
  retryDelay : Z;
  cfg_enableMetrics : bool;
  cfg_enableTracing : bool;
}.

(** [defaultConfig], for a given [NEXT_PUBLIC_STRATHON_API_URL]. *)
Definition defaultConfig (envURL : option string) : APIConfig := {|
  baseURL := default "https://api.strathon.com" (Js.or_string envURL None);
  cfg_timeout := 10000;
  cfg_retryAttempts := 3;
  retryDelay := 1000;
  cfg_enableMetrics := true;
  cfg_enableTracing := true;
|}.

(** The errors that travel through [request].  The message of an [APIError]
    is a string, [Error(message)] having converted what it was given.
    [PlatformError] stands for what the platform throws: the [TypeError] of a
    failed [fetch], of a property read on [null], of a header that is not
    well formed or of a value that does not convert to a string, the
    [SyntaxError] of [response.json()], what [localStorage.getItem] throws
    where storage is not to be had, and the [DOMException] named
    [AbortError] of an aborted signal. *)
Inductive Error : Type :=
| APIError (message : string) (status : Z) (code : Js.Value)
           (requestId : option string) (details : option Js.Value)
| NetworkError (message : string) (originalError : option Error)
| TimeoutError (message : string) (timeout : Z)
| PlatformError (name message : string).

Definition error_name (e : Error) : string :=
  match e with
  | APIError _ _ _ _ _ => "APIError"
  | NetworkError _ _ => "NetworkError"
  | TimeoutError _ _ => "TimeoutError"
  | PlatformError name _ => name
  end.

Definition abortError : Error :=
  PlatformError "AbortError" "The operation was aborted.".

Definition typeError (message : string) : Error := PlatformError "TypeError" message.

(** A step that may throw, and the steps after it. *)
Definition andThen {A B} (x : A + Error) (f : A -> B + Error) : B + Error :=
  match x with
  | inl a => f a
  | inr e => inr e
  end.

Notation "x <- e1 ; e2" := (andThen e1 (fun x => e2))
  (at level 20, e1 at level 100, e2 at level 200, only parsing).

(** *** Headers

    A [Headers] object is the list of its headers, each a name and a value,
    in the order they came.  Names are told apart without regard to the case
    of their letters; a value is stored without the white space around it; a
    name that is no token, or a value that holds a NUL, a CR or an LF, is
    refused with a [TypeError].  Strings are sequences of bytes. *)
Record Headers := { header_list : list (string * string) }.

(** What the caller puts in [options.headers]: the entries of a record, an
    array of pairs, or those of a [Headers] object. *)
Definition HeadersInit := list (string * string).

Definition between (lo hi n : nat) : bool := (lo <=? n)%nat && (n <=? hi)%nat.

Definition lower_ascii (a : ascii) : ascii :=
  let n := nat_of_ascii a in
  if between 65 90 n then ascii_of_nat (n + 32) else a.

Fixpoint lower (s : string) : string :=
  match s with
  | EmptyString => EmptyString
  | String a s' => String (lower_ascii a) (lower s')
  end.

Definition same_name (a b : string) : bool := String.eqb (lower a) (lower b).

Definition is_http_whitespace (a : ascii) : bool :=
  let n := nat_of_ascii a in
  (n =? 9)%nat || (n =? 10)%nat || (n =? 13)%nat || (n =? 32)%nat.

Fixpoint ltrim (s : string) : string :=
  match s with
  | EmptyString => EmptyString
  | String a s' => if is_http_whitespace a then ltrim s' else s
  end.

Fixpoint rtrim (s : string) : string :=
  match s with
  | EmptyString => EmptyString
  | String a s' =>
      match rtrim s' with
      | EmptyString => if is_http_whitespace a then EmptyString else String a EmptyString
      | t => String a t
      end
  end.

(** The value as it is stored. *)
Definition normalize (value : string) : string := rtrim (ltrim value).

Fixpoint all_chars (p : ascii -> bool) (s : string) : bool :=
  match s with
  | EmptyString => true
  | String a s' => p a && all_chars p s'
  end.

(** The characters of a token: letters, digits and
    [! # $ % & ' * + - . ^ _ ` | ~]. *)
Definition is_tchar (a : ascii) : bool :=
  let n := nat_of_ascii a in
  between 48 57 n || between 65 90 n || between 97 122 n ||
  existsb (Nat.eqb n) [33; 35; 36; 37; 38; 39; 42; 43; 45; 46; 94; 95; 96; 124; 126]%nat.

Definition is_header_name (name : string) : bool :=
  negb (String.eqb name EmptyString) && all_chars is_tchar name.

Definition is_value_char (a : ascii) : bool :=
  let n := nat_of_ascii a in
  negb ((n =? 0)%nat || (n =? 10)%nat || (n =? 13)%nat).

Definition is_header_value (value : string) : bool := all_chars is_value_char value.

Definition invalidHeader : Error := typeError "Invalid header name or value".

(** A character that is neither white space nor refused in a value. *)
Definition is_plain (a : ascii) : bool := is_value_char a && negb (is_http_whitespace a).

(** Every entry has a name and a value that a [Headers] object takes. *)
Definition well_formed (init : list (string * string)) : bool :=
  forallb (fun kv => is_header_name kv.1 && is_header_value (normalize kv.2)) init.

(** [headers.append(name, value)] *)
Definition header_append (name value : string) (h : Headers) : Headers + Error :=
  let value := normalize value in
  if is_header_name name && is_header_value value
  then inl {| header_list := header_list h ++ [(name, value)] |}
  else inr invalidHeader.

(** The first header of that name takes the value, the others of that name
    go. *)
Fixpoint set_first (name value : string) (l : list (string * string))
    : list (string * string) :=
  match l with
  | [] => []
  | (n, v) :: rest =>
      if same_name n name
      then (n, value) :: List.filter (fun kv => negb (same_name kv.1 name)) rest
      else (n, v) :: set_first name value rest
  end.

(** [headers.set(name, value)] *)
Definition header_set (name value : string) (h : Headers) : Headers + Error :=
  let value := normalize value in
  if is_header_name name && is_header_value value then
    inl {| header_list :=
             if existsb (fun kv => same_name kv.1 name) (header_list h)
             then set_first name value (header_list h)
             else header_list h ++ [(name, value)] |}
  else inr invalidHeader.

(** The values under a name, joined by a comma and a space. *)
Definition combined (name : string) (l : list (string * string)) : option string :=
  match List.filter (fun kv => same_name kv.1 name) l with
  | [] => None
  | (_, v) :: more => Some (foldl (fun acc kv => acc +:+ ", " +:+ kv.2) v more)
  end.

(** [headers.get(name)] *)
Definition header_get (name : string) (h : Headers) : option string :=
  combined name (header_list h).

(** [new Headers(init)]: every entry is appended. *)
Definition newHeaders (init : HeadersInit) : Headers + Error :=
  foldl (fun acc kv => h <- acc ; header_append kv.1 kv.2 h)
        (inl {| header_list := [] |}) init.

(** [h !! name] is [h.get(name)]. *)
#[global] Instance headers_lookup : Lookup string string Headers := header_get.

(** On what the caller gave, [init !! name] is what a [Headers] object made
    of it has under [name]. *)
#[global] Instance headersInit_lookup : Lookup string string HeadersInit :=
  fun name init => combined name (map (fun kv => (kv.1, normalize kv.2)) init).

Record RequestOptions := {
  opt_timeout : option Z;
  opt_retryAttempts : option Z;
  opt_enableMetrics : option bool;
  opt_enableTracing : option bool;
  opt_method : option string;
  opt_headers : HeadersInit;
  opt_body : option string;
}.

Definition noOptions : RequestOptions := {|
  opt_timeout := None; opt_retryAttempts := None;
  opt_enableMetrics := None; opt_enableTracing := None;
  opt_method := None; opt_headers := []; opt_body := None;
|}.

Record RequestMetrics := {
  m_url : string;
  m_method : string;
  m_startTime : Z;
  m_endTime : Z;
  m_duration : Z;
  m_status : Z;
  m_success : bool;
  m_retryCount : Z;
  m_requestId : string;
}.

(** *** The transport *)

(** A response, with what [response.json()] makes of its body. *)
Record Response := {
  status : Z;
  statusText : string;
  body : option Js.Value;   (* [None]: no JSON was read *)
}.

Definition ok (r : Response) : bool := (200 <=? status r) && (status r <=? 299).

(** What the network does with one call when nobody aborts it: how it
    answers, after how many milliseconds the answer is there with its
    status, and how many more the body takes to arrive. *)
Inductive Outcome :=
| Responds (r : Response)
| Fails (message : string).

Record Exchange := {
  latency : nat;
  outcome : Outcome;
  reading : nat;
}.

(** How an [await fetch(...)] ends. *)
Inductive Settlement :=
| Resolved (r : Response)
| Rejected (e : Error).

Definition settle (x : Exchange) : Settlement :=
  match outcome x with
  | Responds r => Resolved r
  | Fails msg => Rejected (typeError msg)
  end.

Record FetchInit := {
  f_url : string;
  f_method : option string;
  f_headers : Headers;
  f_body : option string;
  f_signal : nat;
}.

(** One line of the transport log, written when the attempt is over: when
    the call was made, with what, how [fetch] ended and when, whether an
    abort stopped the read of the body, and when the attempt was over.  A
    response is logged as the client came to read it: without a body when
    the read was stopped. *)
Record FetchCall := {
  startedAt : Z;
  init : FetchInit;
  settled : Settlement;
  settledAt : Z;
  bodyCut : bool;
  endedAt : Z;
}.

(** The call got a response, whatever its status. *)
Definition answered (c : FetchCall) : bool :=
  match settled c with
  | Resolved _ => true
  | Rejected _ => false
  end.

(** What the surroundings of one logical call decide. *)
Record Env := {
  network : nat -> Exchange;     (* the k-th transport call of the run *)
  random : nat -> string;        (* base-36 digits of the k-th Math.random() *)
  localToken : option string;    (* localStorage 'strathon_auth_token' *)
  envToken : option string;      (* NEXT_PUBLIC_STRATHON_API_TOKEN *)
  storageError : option (string * string);
    (* what [localStorage.getItem] throws, by name and message, where storage
       is blocked or missing *)
}.

(** *** The client and the platform state

    [metrics] and [abortControllers] are the fields of the client.  The
    [AbortController] objects live in [signals], by address, so that the
    registry and the running call share them; [timers] is the platform's
    table of pending [setTimeout] callbacks, each of which aborts one
    controller.  [clock] is the time in milliseconds, read by [Date.now()]
    and by [performance.now()]; it moves only while the call is suspended: in
    a [fetch], in the read of a body or in a [sleep].  [cancelAt] is the
    instant at which some other code calls [cancelAllRequests()], if it does.
    [fetched] and [slept] record what the call did. *)
Record World := {
  metrics : list RequestMetrics;
  abortControllers : gmap string nat;
  signals : list bool;
  timers : list (option (Z * nat));
  clock : Z;
  draws : nat;
  cancelAt : option Z;
  fetched : list FetchCall;
  slept : list Z;
}.

Definition with_metrics (x : list RequestMetrics) (w : World) : World :=
  {| metrics := x; abortControllers := abortControllers w; signals := signals w;
     timers := timers w; clock := clock w; draws := draws w;
     cancelAt := cancelAt w; fetched := fetched w; slept := slept w |}.
Definition with_abortControllers (x : gmap string nat) (w : World) : World :=
  {| metrics := metrics w; abortControllers := x; signals := signals w;
     timers := timers w; clock := clock w; draws := draws w;
     cancelAt := cancelAt w; fetched := fetched w; slept := slept w |}.
Definition with_signals (x : list bool) (w : World) : World :=
  {| metrics := metrics w; abortControllers := abortControllers w; signals := x;
     timers := timers w; clock := clock w; draws := draws w;
     cancelAt := cancelAt w; fetched := fetched w; slept := slept w |}.
Definition with_timers (x : list (option (Z * nat))) (w : World) : World :=
  {| metrics := metrics w; abortControllers := abortControllers w;
     signals := signals w; timers := x; clock := clock w; draws := draws w;
     cancelAt := cancelAt w; fetched := fetched w; slept := slept w |}.
Definition with_clock (x : Z) (w : World) : World :=
  {| metrics := metrics w; abortControllers := abortControllers w;
     signals := signals w; timers := timers w; clock := x; draws := draws w;
     cancelAt := cancelAt w; fetched := fetched w; slept := slept w |}.
Definition with_draws (x : nat) (w : World) : World :=
  {| metrics := metrics w; abortControllers := abortControllers w;
     signals := signals w; timers := timers w; clock := clock w; draws := x;
     cancelAt := cancelAt w; fetched := fetched w; slept := slept w |}.
Definition with_cancelAt (x : option Z) (w : World) : World :=
  {| metrics := metrics w; abortControllers := abortControllers w;
     signals := signals w; timers := timers w; clock := clock w;
     draws := draws w; cancelAt := x; fetched := fetched w; slept := slept w |}.
Definition with_fetched (x : list FetchCall) (w : World) : World :=
  {| metrics := metrics w; abortControllers := abortControllers w;
     signals := signals w; timers := timers w; clock := clock w;
     draws := draws w; cancelAt := cancelAt w; fetched := x; slept := slept w |}.
Definition with_slept (x : list Z) (w : World) : World :=
  {| metrics := metrics w; abortControllers := abortControllers w;
     signals := signals w; timers := timers w; clock := clock w;
     draws := draws w; cancelAt := cancelAt w; fetched := fetched w; slept := x |}.

(** A client that has just been constructed, at instant [t]. *)
Definition fresh (t : Z) (cancel : option Z) : World := {|
  metrics := []; abortControllers := ∅; signals := []; timers := [];
  clock := t; draws := 0; cancelAt := cancel; fetched := []; slept := [];
|}.

(** *** AbortController, timers and the passing of time *)

Definition aborted (c : nat) (w : World) : bool := default false (signals w !! c).

(** [controller.abort()] *)
Definition abort (c : nat) (sigs : list bool) : list bool := <[c := true]> sigs.

(** [new AbortController()] *)
Definition newAbortController (w : World) : nat * World :=
  (length (signals w), with_signals (signals w ++ [false]) w).

(** After how long the callback of [setTimeout(callback, ms)] runs, on the
    platform that runs the repository's tests (Node): a delay below 1 ms or
    above 2^31 - 1 ms is taken as 1 ms.  Browsers agree within that range. *)
Definition timer_delay (ms : Z) : Z :=
  if (1 <=? ms) && (ms <=? 2147483647) then ms else 1.

(** [setTimeout(() => { abortController.abort() }, ms)] *)
Definition setTimeout (c : nat) (ms : Z) (w : World) : nat * World :=
  (length (timers w),
   with_timers (timers w ++ [Some (clock w + timer_delay ms, c)]) w).

Definition clearTimeout (id : nat) (w : World) : World :=
  with_timers (<[id := None]> (timers w)) w.

(** [cancelAllRequests()]: abort every registered controller, then empty the
    registry. *)
Definition cancelAllRequests (w : World) : World :=
  with_abortControllers ∅
    (with_signals
       (map_fold (fun (_ : string) c sigs => abort c sigs) (signals w)
                 (abortControllers w)) w).

Definition due_by (t : Z) (tm : option (Z * nat)) : bool :=
  match tm with
  | Some (due, _) => due <=? t
  | None => false
  end.

(** Run the callbacks of the timers due by [t]. *)
Definition fire_timers (t : Z) (w : World) : World :=
  with_timers
    (map (fun tm => if due_by t tm then None else tm) (timers w))
    (with_signals
       (foldr (fun tm sigs =>
                 match tm with
                 | Some (due, c) => if due <=? t then abort c sigs else sigs
                 | None => sigs
                 end) (signals w) (timers w)) w).

(** Let time pass until [t] while the call is suspended: the outside
    [cancelAllRequests()] and the timers that fall due run on the way. *)
Definition advance (t : Z) (w : World) : World :=
  let w := match cancelAt w with
           | Some c => if c <=? t then cancelAllRequests (with_cancelAt None w)
                       else w
           | None => w
           end in
  let w := fire_timers t w in
  with_clock (Z.max (clock w) t) w.

Definition registered (c : nat) (w : World) : bool :=
  bool_decide (map_Exists (fun (_ : string) c' => c' = c) (abortControllers w)).

Definition earlier (a : option Z) (b : Z) : option Z :=
  match a with
  | Some x => Some (Z.min x b)
  | None => Some b
  end.

(** The first instant at which something pending aborts controller [c]: one
    of its timers, or the outside [cancelAllRequests()] if [c] is in the
    registry. *)
Definition abort_due (c : nat) (w : World) : option Z :=
  let by_timer :=
    foldr (fun tm acc =>
             match tm with
             | Some (due, c') => if Nat.eqb c' c then earlier acc due else acc
             | None => acc
             end) None (timers w) in
  match cancelAt w with
  | Some t => if registered c w then earlier by_timer t else by_timer
  | None => by_timer
  end.

(** [await sleep(ms)]: the sleep does not look at the signal. *)
Definition sleep (ms : Z) (w : World) : World :=
  advance (clock w + timer_delay ms) (with_slept (slept w ++ [ms]) w).


(** Every pending timer is for a controller that exists. *)
Definition timers_wf (w : World) : Prop :=
  Forall (fun tm => match tm with
                    | Some (_, c) => (c < length (signals w))%nat
                    | None => True
                    end) (timers w).

(** The error [request] throws when its signal is aborted. *)
Definition timeoutError (timeout : Z) : Error :=
  TimeoutError ("Request timeout after " +:+ pretty timeout +:+ "ms") timeout.

Definition is_base36 (a : ascii) : bool :=
  let n := nat_of_ascii a in between 48 57 n || between 97 122 n.

(** The base-36 digits of a string: what the generator shows holds no other
    character. *)
Fixpoint base36 (s : string) : string :=
  match s with
  | EmptyString => EmptyString
  | String a s' => if is_base36 a then String a (base36 s') else base36 s'
  end.

Section Request.

Variable env : Env.
Variable config : APIConfig.

(** How a transport call made now on signal [c] ends, and the state when it
    does.  A call on an aborted signal is rejected at once.  Otherwise the
    answer of the network arrives after its latency, unless the signal is
    aborted by then: the call is rejected at the instant of the abort (an
    abort at the very instant of the answer wins). *)
Definition transport (c : nat) (w : World) : Settlement * World :=
  if aborted c w then (Rejected abortError, w)
  else
    let x := network env (length (fetched w)) in
    let t1 := clock w + Z.of_nat (latency x) in
    match abort_due c w with
    | Some a =>
        if a <=? t1 then (Rejected abortError, advance a w)
        else (settle x, advance t1 w)
    | None => (settle x, advance t1 w)
    end.

(** [await fetch(url, { ..., signal })]: of what it is given, the signal
    alone bears on how the call ends. *)
Definition fetch (i : FetchInit) (w : World) : Settlement * World :=
  transport (f_signal i) w.

(** The await of [response.json()], in [request] or in [parseErrorResponse],
    on a response that has just come: the body is there [ms] milliseconds
    later, unless signal [c] is aborted by then, which stops the read at the
    instant of the abort.  The flag tells whether the body was read whole. *)
Definition readBody (c : nat) (ms : nat) (w : World) : bool * World :=
  let t2 := clock w + Z.of_nat ms in
  match abort_due c w with
  | Some a =>
      if a <=? t2 then (false, advance a w)
      else (true, advance t2 w)
  | None => (true, advance t2 w)
  end.

(** The response as the client reads it. *)
Definition as_read (whole : bool) (r : Response) : Response :=
  if whole then r
  else {| status := status r; statusText := statusText r; body := None |}.

Definition getAuthToken : option string + Error :=
  match storageError env with
  | Some (name, message) => inr (PlatformError name message)
  | None => inl (Js.or_string (Js.or_string (localToken env) (envToken env)) None)
  end.

(** [Math.random().toString(36).substr(2, n)] *)
Definition randomDigits (k n : nat) : string := substring 0 n (base36 (random env k)).

Definition generateRequestId (w : World) : string * World :=
  ("req_" +:+ pretty (clock w) +:+ "_" +:+ randomDigits (draws w) 9,
   with_draws (S (draws w)) w).

Definition generateTraceId (w : World) : string * World :=
  ("trace_" +:+ pretty (clock w) +:+ "_" +:+ randomDigits (draws w) 16,
   with_draws (S (draws w)) w).

(** What [parseErrorResponse] hands out when [response.json()] throws,
    whatever it throws: the [SyntaxError] of a body that is not JSON, or the
    [AbortError] of a read that was stopped. *)
Definition parseFailure (r : Response) : Js.Value :=
  Js.Obj [("message",
           Js.Str (if String.eqb (statusText r) EmptyString then "Unknown error"
                   else statusText r));
          ("code", Js.Str "PARSE_ERROR")].

(** [parseErrorResponse], on the response as it was read. *)
Definition parseErrorResponse (r : Response) : Js.Value :=
  match body r with
  | Some v => v
  | None => parseFailure r
  end.

Definition isValidAPIResponse (data : Js.Value) : bool :=
  Js.is_object (Some data) && negb (Js.is_null (Some data)) &&
  Js.is_boolean (Js.get data "success") &&
  Js.is_string (Js.get data "timestamp") &&
  Js.is_string (Js.get data "requestId").

Definition keep_last (n : nat) {A} (l : list A) : list A :=
  drop (length l - n)%nat l.

(** [collectMetrics]: push, then keep the last 1000. *)
Definition push (ms : list RequestMetrics) (m : RequestMetrics) : list RequestMetrics :=
  let ms := ms ++ [m] in
  if (1000 <? length ms)%nat then keep_last 1000 ms else ms.

Definition collectMetrics (m : RequestMetrics) (w : World) : World :=
  with_metrics (push (metrics w) m) w.

(** The constants of one call of [request]; [thrown] is what the set-up of
    the headers threw, if it did. *)
Record Locals := {
  requestId : string;
  startTime : Z;
  timeout : Z;
  retryAttempts : Z;
  enableMetrics : bool;
  url : string;
  method : option string;
  reqBody : option string;
  headers : Headers;
  abortController : nat;
  thrown : option Error;
}.

Variable L : Locals.

(** What every attempt hands to [fetch]. *)
Definition fetchInit : FetchInit :=
  {| f_url := url L; f_method := method L; f_headers := headers L;
     f_body := reqBody L; f_signal := abortController L |}.

(** The sample an attempt records once its response is there. *)
Definition sample (retryCount : Z) (response : Response) (endTime : Z) : RequestMetrics :=
  {| m_url := url L;
     m_method := default "GET" (Js.or_string (method L) None);
     m_startTime := startTime L;
     m_endTime := endTime;
     m_duration := endTime - startTime L;
     m_status := status response;
     m_success := ok response;
     m_retryCount := retryCount;
     m_requestId := requestId L |}.

(** [errorData.message || `HTTP ${response.status}`] *)
Definition errorMessage (response : Response) (errorData : Js.Value) : Js.Value :=
  let message := Js.get errorData "message" in
  if Js.truthy message then default Js.Null message
  else Js.Str ("HTTP " +:+ pretty (status response)).

(** What the [try] body makes of a response, as it was read ([cut]: the
    read of the body was stopped by an abort): the value it returns ([inl])
    or the error it throws ([inr]). *)
Definition decode (cut : bool) (response : Response) : Js.Value + Error :=
  if negb (ok response) then
    match parseErrorResponse response with
    | Js.Null =>
        (* [errorData.message] on [null] *)
        inr (typeError "Cannot read properties of null (reading 'message')")
    | errorData =>
        let code := Js.get errorData "code" in
        match Js.toString (errorMessage response errorData) with
        | Some message =>
            inr (APIError message
                   (status response)
                   (if Js.truthy code then default Js.Null code
                    else Js.Str "HTTP_ERROR")
                   (Some (requestId L))
                   (Js.get errorData "details"))
        | None =>
            (* [super(message)] *)
            inr (typeError "Cannot convert object to primitive value")
        end
    end
  else if cut then
    (* [response.json()] rejects *)
    inr abortError
  else
    match body response with
    | None => inr (PlatformError "SyntaxError" "Unexpected token")
    | Some data =>
        if negb (isValidAPIResponse data) then
          inr (APIError "Invalid API response format" 500
                        (Js.Str "INVALID_RESPONSE") (Some (requestId L)) None)
        else inl data
    end.

(** The line an attempt that started at [t0] leaves in the transport log. *)
Definition logged (t0 : Z) (s : Settlement) (t1 : Z) (cut : bool) (w : World) : World :=
  with_fetched
    (fetched w ++ [{| startedAt := t0; init := fetchInit; settled := s;
                      settledAt := t1; bodyCut := cut; endedAt := clock w |}]) w.

(** The body of the inner [try]: one attempt. *)
Definition attempt_body (retryCount : Z) (w : World) : (Js.Value + Error) * World :=
  let t0 := clock w in
  let x := network env (length (fetched w)) in
  let '(s, w) := fetch fetchInit w in
  match s with
  | Rejected e => (inr e, logged t0 s (clock w) false w)
  | Resolved response =>
      let endTime := clock w in
      let w := if enableMetrics L
               then collectMetrics (sample retryCount response endTime) w
               else w in
      let '(whole, w) := readBody (abortController L) (reading x) w in
      let response := as_read whole response in
      (decode (negb whole) response,
       logged t0 (Resolved response) endTime (negb whole) w)
  end.

(** The verdict of an attempt, read off its line in the log. *)
Definition verdict_of (c : FetchCall) : Js.Value + Error :=
  match settled c with
  | Rejected e => inr e
  | Resolved response => decode (bodyCut c) response
  end.

(** The same, read off the way the transport call ended, for a body that
    was read to its end. *)
Definition verdict (s : Settlement) : Js.Value + Error :=
  match s with
  | Rejected e => inr e
  | Resolved response => decode false response
  end.

Definition no_retry_status (e : Error) : bool :=
  match e with
  | APIError _ st _ _ _ => (st =? 401) || (st =? 403) || (st =? 404)
  | _ => false
  end.

Definition is_abort (e : Error) : bool := String.eqb (error_name e) "AbortError".

(** How the [for] loop is left. *)
Inductive LoopExit :=
| Returned (data : Js.Value)       (* [return data] *)
| Threw (e : Error)                (* [throw new TimeoutError(...)] *)
| Fell (lastError : option Error). (* [break], or the bound is reached *)

(** The [for] loop, [n] iterations from [attempt] on. *)
Fixpoint retry_loop (n : nat) (attempt : Z) (lastError : option Error)
    (retryCount : Z) (w : World) : LoopExit * World :=
  match n with
  | O => (Fell lastError, w)
  | S n' =>
      let '(r, w) := attempt_body retryCount w in
      match r with
      | inl data => (Returned data, w)
      | inr error =>
          let lastError := Some error in
          let retryCount := attempt in
          if no_retry_status error then (Fell lastError, w)
          else if is_abort error then
            (Threw (TimeoutError
                      ("Request timeout after " +:+ pretty (timeout L) +:+ "ms")
                      (timeout L)), w)
          else
            let w := if attempt <? retryAttempts L
                     then sleep (retryDelay config * 2 ^ attempt) w
                     else w in
            retry_loop n' (attempt + 1) lastError retryCount w
      end
  end.

(** Whether the loop is left on this verdict whatever the index, and how. *)
Definition stops (r : Js.Value + Error) : bool :=
  match r with
  | inl _ => true
  | inr e => no_retry_status e || is_abort e
  end.

Definition exit_of (r : Js.Value + Error) : LoopExit :=
  match r with
  | inl data => Returned data
  | inr e =>
      if no_retry_status e then Fell (Some e)
      else if is_abort e then
        Threw (timeoutError (timeout L))
      else Fell (Some e)
  end.

(** The sample, if any, that the attempt logged as [c] recorded. *)
Definition sample_of (retryCount : Z) (c : FetchCall) : list RequestMetrics :=
  match settled c with
  | Resolved r => if enableMetrics L then [sample retryCount r (settledAt c)] else []
  | Rejected _ => []
  end.

(** The samples of the attempts logged as [calls], the first made with
    [retryCount] at loop index [attempt]: from the second on, an attempt
    records the index of the attempt before it. *)
Fixpoint samples_of (retryCount attempt : Z) (calls : list FetchCall) : list RequestMetrics :=
  match calls with
  | [] => []
  | c :: rest => sample_of retryCount c ++ samples_of attempt (attempt + 1) rest
  end.

(** Lines 125 to 143, inside the outer [try]: the headers of the call.  The
    caller's come first; the client's are set over them. *)
Definition prepare (options : RequestOptions) (requestId : string)
    (enableTracing : bool) (w : World) : (Headers + Error) * World :=
  match (headers <- newHeaders (opt_headers options) ;
         headers <- header_set "Content-Type" "application/json" headers ;
         headers <- header_set "X-Request-ID" requestId headers ;
         token <- getAuthToken ;
         match token with
         | Some token => header_set "Authorization" ("Bearer " +:+ token) headers
         | None => inl headers
         end) with
  | inr e => (inr e, w)
  | inl headers =>
      if enableTracing then
        let '(traceId, w) := generateTraceId w in
        (headers <- header_set "X-Trace-ID" traceId headers ;
         headers <- header_set "X-Client-Version" "1.0.0" headers ;
         header_set "X-Client-Name" "strathon-pulse" headers, w)
      else (inl headers, w)
  end.

End Request.

(** [request], up to the [for] loop: the id of the call, its abort controller
    (registered under the id) and its timer, then, inside the outer [try],
    the headers.  All of it happens once per call. *)
Definition prologue (env : Env) (config : APIConfig) (endpoint : string)
    (options : RequestOptions) (w : World) : Locals * nat * World :=
  let '(requestId, w) := generateRequestId env w in
  let startTime := clock w in
  let timeout := default (cfg_timeout config) (opt_timeout options) in
  let retryAttempts := default (cfg_retryAttempts config) (opt_retryAttempts options) in
  let enableMetrics := default (cfg_enableMetrics config) (opt_enableMetrics options) in
  let enableTracing := default (cfg_enableTracing config) (opt_enableTracing options) in
  let '(abortController, w) := newAbortController w in
  let w := with_abortControllers (<[requestId := abortController]> (abortControllers w)) w in
  let '(timeoutId, w) := setTimeout abortController timeout w in
  (* try *)
  let url := baseURL config +:+ endpoint in
  let '(prepared, w) := prepare env options requestId enableTracing w in
  ({| requestId := requestId; startTime := startTime; timeout := timeout;
      retryAttempts := retryAttempts; enableMetrics := enableMetrics;
      url := url; method := opt_method options; reqBody := opt_body options;
      headers := match prepared with
                 | inl headers => headers
                 | inr _ => {| header_list := [] |}
                 end;
      abortController := abortController;
      thrown := match prepared with
                | inl _ => None
                | inr e => Some e
                end |},
   timeoutId, w).

(** What the caller gets once the loop is left. *)
Definition conclude (L : Locals) (exit : LoopExit) : Js.Value + Error :=
  match exit with
  | Returned data => inl data
  | Threw e => inr e
  | Fell lastError =>
      match lastError with
      | Some (APIError _ _ _ _ _ as e) => inr e
      | _ => inr (NetworkError
                    ("Network request failed after " +:+ pretty (retryAttempts L + 1)
                     +:+ " attempts") lastError)
      end
  end.

(** The [finally] block. *)
Definition epilogue (L : Locals) (timeoutId : nat) (w : World) : World :=
  let w := clearTimeout timeoutId w in
  with_abortControllers (delete (requestId L) (abortControllers w)) w.

(** [request(endpoint, options)]: the value returned or the error thrown.
    The outer [try] has no [catch]: what the set-up of the headers throws
    goes to the caller as it is, through the [finally] block. *)
Definition request (env : Env) (config : APIConfig) (endpoint : string)
    (options : RequestOptions) (w : World) : (Js.Value + Error) * World :=
  let '(L, timeoutId, w) := prologue env config endpoint options w in
  match thrown L with
  | Some e => (inr e, epilogue L timeoutId w)
  | None =>
      let '(exit, w) :=
        retry_loop env config L (Z.to_nat (retryAttempts L + 1)) 0 None 0 w in
      (conclude L exit, epilogue L timeoutId w)
  end.

(** *** Vocabulary of the statements below *)

(** The delays of the backoff, from loop index [attempt] on. *)
Definition backoff (config : APIConfig) (attempt : Z) (k : nat) : list Z :=
  map (fun j => retryDelay config * 2 ^ (attempt + Z.of_nat j)) (seq 0 k).

Definition enableTracing_of (config : APIConfig) (options : RequestOptions) : bool :=
  default (cfg_enableTracing config) (opt_enableTracing options).

(** The trace id a call draws, right after its request id. *)
Definition traceId_of (env : Env) (w : World) : string :=
  fst (generateTraceId env (snd (generateRequestId env w))).

Definition retryAttempts_of (config : APIConfig) (options : RequestOptions) : Z :=
  default (cfg_retryAttempts config) (opt_retryAttempts options).

Definition timeout_of (config : APIConfig) (options : RequestOptions) : Z :=
  default (cfg_timeout config) (opt_timeout options).






Definition no_retry (st : Z) : Prop := st = 401 \/ st = 403 \/ st = 404.


(** The abort came while the body of an answer outside 2xx was read, in the
    attempt logged as [c]: [parseErrorResponse] took the [AbortError] for a
    body that does not parse. *)
Definition swallowed (c : FetchCall) : Prop :=
  bodyCut c = true /\ exists r, settled c = Resolved r /\ ok r = false.


End ApiClient.

(** ** The event-stream client: the websocket client

    Every handler of [StrathonWebSocketClient] is a function on the fields of
    the object and the part of the platform it touches: the sockets (by
    address, with their ready state), the timer table, and the trace of what
    the client did to the outside (console, callbacks, cache, frames). *)

Module WebSocketClient.

Record WebSocketConfig := {
  url : string;
  protocols : list string;
  reconnectAttempts : Z;
  reconnectDelay : Z;
  heartbeatInterval : Z;
  messageTimeout : Z;
  enableMetrics : bool;
}.

(** The defaults of the constructor, for a given [NEXT_PUBLIC_STRATHON_WS_URL]. *)
Definition defaultConfig (envURL : option string) : WebSocketConfig := {|
  url := default "wss://api.strathon.com/v1/pulse/realtime" (Js.or_string envURL None);
  protocols := ["strathon-pulse-v1"];
  reconnectAttempts := 10;
  reconnectDelay := 1000;
  heartbeatInterval := 30000;
  messageTimeout := 5000;
  enableMetrics := true;
|}.

Inductive ConnectionState :=
| connecting | connected | disconnected | reconnecting | failed.

Definition state_eqb (a b : ConnectionState) : bool :=
  match a, b with
  | connecting, connecting | connected, connected | disconnected, disconnected
  | reconnecting, reconnecting | failed, failed => true
  | _, _ => false
  end.

Record WebSocketMetrics := {
  connectionTime : Z;
  messagesReceived : nat;
  messagesSent : nat;
  reconnectCount : nat;
  averageLatency : Z;
  lastMessageTime : Z;
  uptime : Z;
}.

(** Which of the handlers the user has set. *)
Record WebSocketEventHandlers := {
  onMessage : bool;
  onConnect : bool;
  onDisconnect : bool;
  onError : bool;
  onReconnect : bool;
}.

Inductive ReadyState := CONNECTING | OPEN | CLOSING | CLOSED.

(** What a pending timer will run. *)
Inductive Timer :=
| ReconnectTimer (delay : Z)          (* [connect(queryClient).catch(...)] *)
| HeartbeatInterval (interval : Z)
| ConnectTimeout (delay : Z).

Definition is_reconnect (t : nat * Timer) : bool :=
  match t.2 with ReconnectTimer _ => true | _ => false end.

(** What the client does to the outside.  A console line is kept by its fixed
    text. *)
Inductive Effect :=
| ConsoleLog (text : string)
| ConsoleWarn (text : string) (value : Js.Value)
| ConsoleError (text : string)
| UserOnMessage (message : Js.Value)
| UserOnConnect
| UserOnDisconnect (reason : string)
| UserOnError
| UserOnReconnect (attempt : nat)
| InvalidateQueries (client : nat) (queryKey : list Js.Value)
| SetQueryData (client : nat) (queryKey : list Js.Value) (data : Js.Value)
| SocketNew (socket : nat) (url : string) (params : list (string * string))
| SocketSend (socket : nat) (frame : Js.Value)
| SocketClose (socket : nat).

Definition is_cache_action (e : Effect) : bool :=
  match e with
  | InvalidateQueries _ _ | SetQueryData _ _ _ => true
  | _ => false
  end.

Definition is_user_message (e : Effect) : bool :=
  match e with UserOnMessage _ => true | _ => false end.

Record Client := {
  ws : option nat;
  state : ConnectionState;
  attempts : nat;                       (* [this.reconnectAttempts] *)
  reconnectTimer : option nat;
  heartbeatTimer : option nat;
  messageQueue : list Js.Value;
  metrics : WebSocketMetrics;
  eventHandlers : WebSocketEventHandlers;
  queryClient : option nat;
  connectionStartTime : Z;
  latencyMeasurements : list (option Z); (* [None]: NaN *)
  (* the platform *)
  sockets : list ReadyState;
  timers : list (nat * Timer);
  nextTimer : nat;
  draws : nat;
  effects : list Effect;
}.

Definition with_ws x (c : Client) : Client :=
  {| ws := x; state := state c; attempts := attempts c;
     reconnectTimer := reconnectTimer c; heartbeatTimer := heartbeatTimer c;
     messageQueue := messageQueue c; metrics := metrics c;
     eventHandlers := eventHandlers c; queryClient := queryClient c;
     connectionStartTime := connectionStartTime c;
     latencyMeasurements := latencyMeasurements c; sockets := sockets c;
     timers := timers c; nextTimer := nextTimer c; draws := draws c;
     effects := effects c |}.
Definition with_state x (c : Client) : Client :=
  {| ws := ws c; state := x; attempts := attempts c;
     reconnectTimer := reconnectTimer c; heartbeatTimer := heartbeatTimer c;
     messageQueue := messageQueue c; metrics := metrics c;
     eventHandlers := eventHandlers c; queryClient := queryClient c;
     connectionStartTime := connectionStartTime c;
     latencyMeasurements := latencyMeasurements c; sockets := sockets c;
     timers := timers c; nextTimer := nextTimer c; draws := draws c;
     effects := effects c |}.
Definition with_attempts x (c : Client) : Client :=
  {| ws := ws c; state := state c; attempts := x;
     reconnectTimer := reconnectTimer c; heartbeatTimer := heartbeatTimer c;
     messageQueue := messageQueue c; metrics := metrics c;
     eventHandlers := eventHandlers c; queryClient := queryClient c;
     connectionStartTime := connectionStartTime c;
     latencyMeasurements := latencyMeasurements c; sockets := sockets c;
     timers := timers c; nextTimer := nextTimer c; draws := draws c;
     effects := effects c |}.
Definition with_reconnectTimer x (c : Client) : Client :=
  {| ws := ws c; state := state c; attempts := attempts c;
     reconnectTimer := x; heartbeatTimer := heartbeatTimer c;
     messageQueue := messageQueue c; metrics := metrics c;
     eventHandlers := eventHandlers c; queryClient := queryClient c;
     connectionStartTime := connectionStartTime c;
     latencyMeasurements := latencyMeasurements c; sockets := sockets c;
     timers := timers c; nextTimer := nextTimer c; draws := draws c;
     effects := effects c |}.
Definition with_heartbeatTimer x (c : Client) : Client :=
  {| ws := ws c; state := state c; attempts := attempts c;
     reconnectTimer := reconnectTimer c; heartbeatTimer := x;
     messageQueue := messageQueue c; metrics := metrics c;
     eventHandlers := eventHandlers c; queryClient := queryClient c;
     connectionStartTime := connectionStartTime c;
     latencyMeasurements := latencyMeasurements c; sockets := sockets c;
     timers := timers c; nextTimer := nextTimer c; draws := draws c;
     effects := effects c |}.
Definition with_messageQueue x (c : Client) : Client :=
  {| ws := ws c; state := state c; attempts := attempts c;
     reconnectTimer := reconnectTimer c; heartbeatTimer := heartbeatTimer c;
     messageQueue := x; metrics := metrics c;
     eventHandlers := eventHandlers c; queryClient := queryClient c;
     connectionStartTime := connectionStartTime c;
     latencyMeasurements := latencyMeasurements c; sockets := sockets c;
     timers := timers c; nextTimer := nextTimer c; draws := draws c;
     effects := effects c |}.
Definition with_metrics x (c : Client) : Client :=
  {| ws := ws c; state := state c; attempts := attempts c;
     reconnectTimer := reconnectTimer c; heartbeatTimer := heartbeatTimer c;
     messageQueue := messageQueue c; metrics := x;
     eventHandlers := eventHandlers c; queryClient := queryClient c;
     connectionStartTime := connectionStartTime c;
     latencyMeasurements := latencyMeasurements c; sockets := sockets c;
     timers := timers c; nextTimer := nextTimer c; draws := draws c;
     effects := effects c |}.
Definition with_queryClient x (c : Client) : Client :=
  {| ws := ws c; state := state c; attempts := attempts c;
     reconnectTimer := reconnectTimer c; heartbeatTimer := heartbeatTimer c;
     messageQueue := messageQueue c; metrics := metrics c;
     eventHandlers := eventHandlers c; queryClient := x;
     connectionStartTime := connectionStartTime c;
     latencyMeasurements := latencyMeasurements c; sockets := sockets c;
     timers := timers c; nextTimer := nextTimer c; draws := draws c;
     effects := effects c |}.
Definition with_connectionStartTime x (c : Client) : Client :=
  {| ws := ws c; state := state c; attempts := attempts c;
     reconnectTimer := reconnectTimer c; heartbeatTimer := heartbeatTimer c;
     messageQueue := messageQueue c; metrics := metrics c;
     eventHandlers := eventHandlers c; queryClient := queryClient c;
     connectionStartTime := x;
     latencyMeasurements := latencyMeasurements c; sockets := sockets c;
     timers := timers c; nextTimer := nextTimer c; draws := draws c;
     effects := effects c |}.
Definition with_latencyMeasurements x (c : Client) : Client :=
  {| ws := ws c; state := state c; attempts := attempts c;
     reconnectTimer := reconnectTimer c; heartbeatTimer := heartbeatTimer c;
     messageQueue := messageQueue c; metrics := metrics c;
     eventHandlers := eventHandlers c; queryClient := queryClient c;
     connectionStartTime := connectionStartTime c;
     latencyMeasurements := x; sockets := sockets c;
     timers := timers c; nextTimer := nextTimer c; draws := draws c;
     effects := effects c |}.
Definition with_sockets x (c : Client) : Client :=
  {| ws := ws c; state := state c; attempts := attempts c;
     reconnectTimer := reconnectTimer c; heartbeatTimer := heartbeatTimer c;
     messageQueue := messageQueue c; metrics := metrics c;
     eventHandlers := eventHandlers c; queryClient := queryClient c;
     connectionStartTime := connectionStartTime c;
     latencyMeasurements := latencyMeasurements c; sockets := x;
     timers := timers c; nextTimer := nextTimer c; draws := draws c;
     effects := effects c |}.
Definition with_timers x n (c : Client) : Client :=
  {| ws := ws c; state := state c; attempts := attempts c;
     reconnectTimer := reconnectTimer c; heartbeatTimer := heartbeatTimer c;
     messageQueue := messageQueue c; metrics := metrics c;
     eventHandlers := eventHandlers c; queryClient := queryClient c;
     connectionStartTime := connectionStartTime c;
     latencyMeasurements := latencyMeasurements c; sockets := sockets c;
     timers := x; nextTimer := n; draws := draws c;
     effects := effects c |}.
Definition with_draws x (c : Client) : Client :=
  {| ws := ws c; state := state c; attempts := attempts c;
     reconnectTimer := reconnectTimer c; heartbeatTimer := heartbeatTimer c;
     messageQueue := messageQueue c; metrics := metrics c;
     eventHandlers := eventHandlers c; queryClient := queryClient c;
     connectionStartTime := connectionStartTime c;
     latencyMeasurements := latencyMeasurements c; sockets := sockets c;
     timers := timers c; nextTimer := nextTimer c; draws := x;
     effects := effects c |}.
Definition with_effects x (c : Client) : Client :=
  {| ws := ws c; state := state c; attempts := attempts c;
     reconnectTimer := reconnectTimer c; heartbeatTimer := heartbeatTimer c;
     messageQueue := messageQueue c; metrics := metrics c;
     eventHandlers := eventHandlers c; queryClient := queryClient c;
     connectionStartTime := connectionStartTime c;
     latencyMeasurements := latencyMeasurements c; sockets := sockets c;
     timers := timers c; nextTimer := nextTimer c; draws := draws c;
     effects := x |}.

(** The client as the constructor leaves it. *)
Definition initial : Client := {|
  ws := None; state := disconnected; attempts := 0;
  reconnectTimer := None; heartbeatTimer := None; messageQueue := [];
  metrics := {| connectionTime := 0; messagesReceived := 0; messagesSent := 0;
                reconnectCount := 0; averageLatency := 0; lastMessageTime := 0;
                uptime := 0 |};
  eventHandlers := {| onMessage := false; onConnect := false; onDisconnect := false;
                      onError := false; onReconnect := false |};
  queryClient := None; connectionStartTime := 0; latencyMeasurements := [];
  sockets := []; timers := []; nextTimer := 1; draws := 0; effects := [];
|}.

Definition emit (e : Effect) (c : Client) : Client :=
  with_effects (effects c ++ [e]) c.

(** [setTimeout] / [setInterval] *)
Definition schedule (t : Timer) (c : Client) : nat * Client :=
  (nextTimer c, with_timers (timers c ++ [(nextTimer c, t)]) (S (nextTimer c)) c).

(** [clearTimeout] / [clearInterval] *)
Definition unschedule (id : nat) (c : Client) : Client :=
  with_timers (List.filter (fun t => negb (Nat.eqb t.1 id)) (timers c)) (nextTimer c) c.

(** What the platform decides. *)
Record Env := {
  JSON_parse : string -> option Js.Value;   (* [None]: it throws *)
  Date_parse : string -> option Z;          (* [new Date(s).getTime()], [None]: NaN *)
  toISOString : Z -> string;
  random : nat -> string;
  localToken : option string;
  envToken : option string;
  urlParses : bool;                         (* [new URL(config.url)] does not throw *)
}.

Section Handlers.

Variable env : Env.
Variable config : WebSocketConfig.

Definition getAuthToken : option string :=
  Js.or_string (Js.or_string (localToken env) (envToken env)) None.

Definition generateRequestId (now : Z) (c : Client) : string * Client :=
  ("ws_" +:+ pretty now +:+ "_" +:+ substring 0 9 (random env (draws c)),
   with_draws (S (draws c)) c).

(** [{ ...o, k: v }], [ms] being the members of [o]: a member that is there
    keeps its place and takes the new value, a new one comes last. *)
Definition with_member (k : string) (v : Js.Value) (ms : list (string * Js.Value))
    : list (string * Js.Value) :=
  if existsb (fun kv => String.eqb kv.1 k) ms
  then map (fun kv => if String.eqb kv.1 k then (kv.1, v) else kv) ms
  else ms ++ [(k, v)].

(** The members [{ ...v }] copies: those of an object, the elements of an
    array and the characters of a string under their indices, and none of
    [null], [undefined], a boolean or a number. *)
Definition spread (v : Js.Value) : list (string * Js.Value) :=
  match v with
  | Js.Obj ms => ms
  | Js.Arr items => imap (fun i item => (pretty i, item)) items
  | Js.Str s =>
      imap (fun i ch => (pretty i, Js.Str (String ch EmptyString)))
           (list_ascii_of_string s)
  | _ => []
  end.

(** [send(message)] *)
Definition send (now : Z) (message : Js.Value) (c : Client) : bool * Client :=
  match state_eqb (state c) connected, ws c with
  | true, Some sock =>
      (* try *)
      let '(requestId, c) := generateRequestId now c in
      let messageWithId :=
        Js.Obj (with_member "timestamp" (Js.Str (toISOString env now))
                  (with_member "requestId" (Js.Str requestId) (spread message))) in
      match sockets c !! sock with
      | Some CONNECTING | None =>
          (* [ws.send] throws *)
          (false, emit (ConsoleError "Failed to send WebSocket message:") c)
      | Some _ =>
          let c := emit (SocketSend sock messageWithId) c in
          let m := metrics c in
          (true, with_metrics {| connectionTime := connectionTime m;
                                 messagesReceived := messagesReceived m;
                                 messagesSent := S (messagesSent m);
                                 reconnectCount := reconnectCount m;
                                 averageLatency := averageLatency m;
                                 lastMessageTime := lastMessageTime m;
                                 uptime := uptime m |} c)
      end
  | _, _ =>
      (* Queue message for later if not connected *)
      (false, with_messageQueue (messageQueue c ++ [message]) c)
  end.

Definition isValidMessage (message : Js.Value) : bool :=
  Js.is_object (Some message) && negb (Js.is_null (Some message)) &&
  Js.is_string (Js.get message "type") &&
  Js.is_string (Js.get message "timestamp") &&
  Js.is_string (Js.get message "requestId").

Definition keep_last (n : nat) {A} (l : list A) : list A :=
  drop (length l - n)%nat l.

Definition recordLatency (latency : option Z) (c : Client) : Client :=
  let ls := latencyMeasurements c ++ [latency] in
  with_latencyMeasurements (if (100 <? length ls)%nat then keep_last 100 ls else ls) c.

Definition queryKey (parts : list string) : list Js.Value := map Js.Str parts.

(** [processMessage]: the cache bridge. *)
Definition processMessage (now : Z) (message : Js.Value) (c : Client) : Client :=
  match queryClient c with
  | None => c
  | Some qc =>
      match Js.get message "type" with
      | Some (Js.Str "metrics_update") =>
          emit (InvalidateQueries qc (queryKey ["pulse"; "metrics"])) c
      | Some (Js.Str "security_alert") =>
          let c := emit (InvalidateQueries qc (queryKey ["pulse"; "violations"])) c in
          let violationId := Js.get_opt (Js.get message "data") "violationId" in
          match Js.truthy violationId, violationId, Js.get message "data" with
          | true, Some id, Some data =>
              emit (SetQueryData qc (queryKey ["pulse"; "violations"] ++ [id]) data) c
          | _, _, _ => c
          end
      | Some (Js.Str "service_status") =>
          emit (InvalidateQueries qc (queryKey ["pulse"; "services"])) c
      | Some (Js.Str "circuit_breaker_state") =>
          emit (InvalidateQueries qc (queryKey ["pulse"; "circuitBreakers"])) c
      | Some (Js.Str "heartbeat") =>
          (send now (Js.Obj [("type", Js.Str "heartbeat_ack")]) c).2
      | _ => c
      end
  end.

(** [handleMessage(event)], [data] being [event.data] and [now] the clock. *)
Definition handleMessage (now : Z) (data : string) (c : Client) : Client :=
  let receiveTime := now in
  match JSON_parse env data with
  | None => emit (ConsoleError "Failed to parse WebSocket message:") c
  | Some message =>
      if negb (isValidMessage message) then
        emit (ConsoleWarn "Invalid WebSocket message received:" message) c
      else
        let c :=
          match Js.get message "timestamp" with
          | Some (Js.Str ts) =>
              if Js.truthy (Some (Js.Str ts)) then
                let latency := (fun messageTime => receiveTime - messageTime)
                                 <$> Date_parse env ts in
                recordLatency latency c
              else c
          | _ => c
          end in
        let m := metrics c in
        let c := with_metrics {| connectionTime := connectionTime m;
                                 messagesReceived := S (messagesReceived m);
                                 messagesSent := messagesSent m;
                                 reconnectCount := reconnectCount m;
                                 averageLatency := averageLatency m;
                                 lastMessageTime := receiveTime;
                                 uptime := uptime m |} c in
        let c := processMessage now message c in
        if onMessage (eventHandlers c) then emit (UserOnMessage message) c else c
  end.

Definition stopHeartbeat (c : Client) : Client :=
  match heartbeatTimer c with
  | Some id => with_heartbeatTimer None (unschedule id c)
  | None => c
  end.

Definition clearReconnectTimer (c : Client) : Client :=
  match reconnectTimer c with
  | Some id => with_reconnectTimer None (unschedule id c)
  | None => c
  end.

Definition backoff (attempt : nat) : Z :=
  reconnectDelay config * 2 ^ Z.of_nat (Nat.min (attempt - 1) 5).

(** [attemptReconnect()].  The callback of the timer it sets is
    [reconnectTimerFired] below. *)
Definition attemptReconnect (c : Client) : Client :=
  if state_eqb (state c) reconnecting then c
  else
    let c := with_state reconnecting c in
    let c := with_attempts (S (attempts c)) c in
    let m := metrics c in
    let c := with_metrics {| connectionTime := connectionTime m;
                             messagesReceived := messagesReceived m;
                             messagesSent := messagesSent m;
                             reconnectCount := S (reconnectCount m);
                             averageLatency := averageLatency m;
                             lastMessageTime := lastMessageTime m;
                             uptime := uptime m |} c in
    let delay := backoff (attempts c) in
    let c := emit (ConsoleLog "Attempting WebSocket reconnection") c in
    let c := if onReconnect (eventHandlers c)
             then emit (UserOnReconnect (attempts c)) c else c in
    let '(id, c) := schedule (ReconnectTimer delay) c in
    with_reconnectTimer (Some id) c.

(** [handleClose(event)] *)
Definition handleClose (code : Z) (reason : string) (c : Client) : Client :=
  let c := emit (ConsoleLog "WebSocket closed") c in
  let c := with_state disconnected c in
  let c := stopHeartbeat c in
  let c := if onDisconnect (eventHandlers c)
           then emit (UserOnDisconnect reason) c else c in
  (* Attempt reconnection if not a clean close *)
  if negb (code =? 1000) && (Z.of_nat (attempts c) <? reconnectAttempts config)
  then attemptReconnect c
  else c.

(** How a call of [connect] stands when it returns. *)
Inductive Promise :=
| Fulfilled
| RejectedWith (message : string)
| Pending.

Definition buildWebSocketURL : option (string * list (string * string)) :=
  if urlParses env then
    Some (url config,
          match getAuthToken with
          | Some token => [("token", token)]
          | None => []
          end ++ [("client", "strathon-pulse"); ("version", "1.0.0")])
  else None.

(** [connect(queryClient)].  The handlers it installs on the new socket are
    [handleMessage], [handleClose], [onerror] and, for the timer,
    [connectTimeoutFired]. *)
Definition connect (qc : option nat) (now : Z) (c : Client) : Promise * Client :=
  match ws c, state_eqb (state c) connected with
  | Some _, true => (Fulfilled, c)
  | _, _ =>
      let c := with_queryClient qc c in
      let c := with_state connecting c in
      let c := with_connectionStartTime now c in
      (* try *)
      match buildWebSocketURL with
      | Some (u, params) =>
          let sock := length (sockets c) in
          let c := with_sockets (sockets c ++ [CONNECTING]) c in
          let c := emit (SocketNew sock u params) c in
          let c := with_ws (Some sock) c in
          let '(_, c) := schedule (ConnectTimeout 10000) c in
          (Pending, c)
      | None =>
          (RejectedWith "Invalid URL", with_state failed c)
      end
  end.

(** [ws.onerror]: the flag tells whether [reject(error)] is called. *)
Definition onerror (c : Client) : bool * Client :=
  let c := emit (ConsoleError "Strathon WebSocket error:") c in
  let c := if onError (eventHandlers c) then emit UserOnError c else c in
  (state_eqb (state c) connecting, c).

(** The callback of the connection timeout, [id] being its timer: the flag
    tells whether [reject] is called. *)
Definition connectTimeoutFired (id : nat) (c : Client) : bool * Client :=
  let c := unschedule id c in
  if state_eqb (state c) connecting then
    (true, match ws c with
           | Some sock => emit (SocketClose sock) c
           | None => c
           end)
  else (false, c).

(** The [catch] of the reconnect timer: the [connect] it called was
    rejected. *)
Definition reconnectFailed (c : Client) : Client :=
  let c := emit (ConsoleError "WebSocket reconnection failed:") c in
  if Z.of_nat (attempts c) >=? reconnectAttempts config then
    emit (ConsoleError "WebSocket reconnection attempts exhausted")
      (with_state failed c)
  else attemptReconnect c.

(** The callback of the reconnect timer, [id] being its timer. *)
Definition reconnectTimerFired (id : nat) (now : Z) (c : Client) : Promise * Client :=
  let c := unschedule id c in
  let '(p, c) := connect (queryClient c) now c in
  match p with
  | RejectedWith _ => (p, reconnectFailed c)
  | _ => (p, c)
  end.

Definition isConnected (c : Client) : bool :=
  state_eqb (state c) connected &&
  match ws c with
  | Some sock => match sockets c !! sock with Some OPEN => true | _ => false end
  | None => false
  end.

Definition startHeartbeat (c : Client) : Client :=
  let '(id, c) := schedule (HeartbeatInterval (heartbeatInterval config)) c in
  with_heartbeatTimer (Some id) c.

(** One tick of the heartbeat interval. *)
Definition heartbeatTick (now : Z) (c : Client) : Client :=
  if isConnected c then (send now (Js.Obj [("type", Js.Str "heartbeat")]) c).2 else c.

(** The [while] loop of [processMessageQueue], for at most [fuel] rounds. *)
Fixpoint drain (fuel : nat) (now : Z) (c : Client) : Client :=
  match fuel with
  | O => c
  | S fuel' =>
      match messageQueue c with
      | message :: rest =>
          if isConnected c then
            drain fuel' now (send now message (with_messageQueue rest c)).2
          else c
      | [] => c
      end
  end.

(** [processMessageQueue]: a round takes a message off the queue and [send],
    called while connected, puts none back, so the length of the queue bounds
    the rounds. *)
Definition processMessageQueue (now : Z) (c : Client) : Client :=
  drain (length (messageQueue c)) now c.

(** [ws.onopen] of socket [sock], which the platform has just opened: the
    pending [connect] is resolved. *)
Definition onopen (sock : nat) (now : Z) (c : Client) : Client :=
  let c := with_sockets (<[sock := OPEN]> (sockets c)) c in
  let c := with_state connected c in
  let c := with_attempts 0 c in
  let m := metrics c in
  let c := with_metrics {| connectionTime := now - connectionStartTime c;
                           messagesReceived := messagesReceived m;
                           messagesSent := messagesSent m;
                           reconnectCount := reconnectCount m;
                           averageLatency := averageLatency m;
                           lastMessageTime := lastMessageTime m;
                           uptime := uptime m |} c in
  let c := emit (ConsoleLog "Strathon WebSocket connected") c in
  let c := if onConnect (eventHandlers c) then emit UserOnConnect c else c in
  let c := startHeartbeat c in
  processMessageQueue now c.

(** [ws.onclose] of socket [sock], which the platform has just closed. *)
Definition onclose (sock : nat) (code : Z) (reason : string) (c : Client) : Client :=
  handleClose code reason (with_sockets (<[sock := CLOSED]> (sockets c)) c).

(** [disconnect()] *)
Definition disconnect (c : Client) : Client :=
  let c := with_state disconnected c in
  let c := stopHeartbeat c in
  let c := clearReconnectTimer c in
  match ws c with
  | Some sock => with_ws None (emit (SocketClose sock) c)
  | None => c
  end.

(** The violation a [security_alert] carries: [data.violationId], when it is
    there and truthy, with the payload [data]. *)
Definition violation_of (message : Js.Value) : option (Js.Value * Js.Value) :=
  match Js.get message "data" with
  | Some data =>
      match Js.get_opt (Some data) "violationId" with
      | Some id => if Js.truthy (Some id) then Some (id, data) else None
      | None => None
      end
  | None => None
  end.

End Handlers.

(** [handleClose] up to the decision to reconnect. *)
Definition closed (reason : string) (c : Client) : Client :=
  let c := stopHeartbeat (with_state disconnected (emit (ConsoleLog "WebSocket closed") c)) in
  if onDisconnect (eventHandlers c) then emit (UserOnDisconnect reason) c else c.

End WebSocketClient.

(** *** Concrete event-stream runs *)

Module WsScenarios.
Import WebSocketClient.

(** The configuration of the repository's test-suite. *)
Definition testConfig : WebSocketConfig := {|
  url := "wss://test-api.strathon.com/realtime";
  protocols := ["strathon-pulse-v1"];
  reconnectAttempts := 3;
  reconnectDelay := 100;
  heartbeatInterval := 1000;
  messageTimeout := 5000;
  enableMetrics := true;
|}.

Definition withMaximum (n : Z) : WebSocketConfig := {|
  url := url testConfig; protocols := protocols testConfig;
  reconnectAttempts := n; reconnectDelay := reconnectDelay testConfig;
  heartbeatInterval := heartbeatInterval testConfig;
  messageTimeout := messageTimeout testConfig;
  enableMetrics := enableMetrics testConfig;
|}.

(** The frame of the test for invalid messages: an object with the one member
    [invalid]. *)
Definition invalidFrame : string := "{invalid: message}".
Definition invalidMessage : Js.Value := Js.Obj [("invalid", Js.Str "message")].

(** A security alert for violation v-1. *)
Definition alertFrame : string := "security_alert v-1".
Definition alertData : Js.Value :=
  Js.Obj [("violationId", Js.Str "v-1"); ("severity", Js.Str "high")].
Definition alertMessage : Js.Value :=
  Js.Obj [("type", Js.Str "security_alert");
          ("timestamp", Js.Str "2024-01-01T00:00:00Z");
          ("requestId", Js.Str "test-request-id");
          ("data", alertData); ("version", Js.Str "1.0.0")].

(** A platform that knows the two frames above. *)
Definition platform : Env := {|
  JSON_parse := fun s => if String.eqb s invalidFrame then Some invalidMessage
                         else if String.eqb s alertFrame then Some alertMessage
                         else None;
  Date_parse := fun s => if String.eqb s "2024-01-01T00:00:00Z"
                         then Some 1704067200000 else None;
  toISOString := fun _ => "2024-01-01T00:00:01Z";
  random := fun _ => "k3j9x0q2abzzzzzzzzzz";
  localToken := None; envToken := None; urlParses := true;
|}.

(** A client with every user handler set. *)
Definition listening : Client :=
  {| ws := None; state := disconnected; attempts := 0;
     reconnectTimer := None; heartbeatTimer := None; messageQueue := [];
     metrics := metrics initial;
     eventHandlers := {| onMessage := true; onConnect := true; onDisconnect := true;
                         onError := true; onReconnect := true |};
     queryClient := None; connectionStartTime := 0; latencyMeasurements := [];
     sockets := []; timers := []; nextTimer := 1; draws := 0; effects := [] |}.

(** [connect(queryClient)] at instant 0, the socket opens 10 ms later. *)
Definition connectedClient (config : WebSocketConfig) : Client :=
  onopen platform config 0 10 (connect platform config (Some 7%nat) 0 listening).2.

End WsScenarios.


(** *** Concrete runs *)

Module ApiScenarios.
Import ApiClient.

(** The configuration of the repository's test-suite, and variants of it. *)
Definition testConfig : APIConfig := {|
  baseURL := "https://test-api.strathon.com";
  cfg_timeout := 5000;
  cfg_retryAttempts := 2;
  retryDelay := 100;
  cfg_enableMetrics := true;
  cfg_enableTracing := true;
|}.

Definition okBody : Js.Value :=
  Js.Obj [("data", Js.Obj [("test", Js.Str "data")]); ("success", Js.Bool true);
          ("timestamp", Js.Str "2024-01-01T00:00:00Z");
          ("requestId", Js.Str "test-request-id"); ("version", Js.Str "1.0.0")].

Definition success : Outcome :=
  Responds {| status := 200; statusText := "OK"; body := Some okBody |}.

Definition serverError : Outcome :=
  Responds {| status := 500; statusText := "Internal Server Error";
              body := Some (Js.Obj [("message", Js.Str "Server error");
                                    ("code", Js.Str "SERVER_ERROR")]) |}.

(** An answer after [ms] milliseconds, its body with it. *)
Definition after (ms : nat) (o : Outcome) : Exchange :=
  {| latency := ms; outcome := o; reading := 0 |}.

(** A generator that draws something else each time. *)
Definition digits (k : nat) : string :=
  match k with
  | O => "k3j9x0q2abzzzzzzzzzz"
  | 1%nat => "7fd21mmw0c4tyyyyyyyy"
  | 2%nat => "p0o9i8u7y6t5r4e3w2q1"
  | _ => "zzzzzzzzzzzzzzzzzzzz"
  end.

(** The transport answers 500 twice, then 200; each answer takes 10 ms. *)
Definition twice500 : Env := {|
  network := fun k => match k with
                      | O | 1%nat => after 10 serverError
                      | _ => after 10 success
                      end;
  random := digits; localToken := None; envToken := None;
  storageError := None;
|}.

(** The transport call throws twice ("Network error"), then answers 200. *)
Definition twiceDown : Env := {|
  network := fun k => match k with
                      | O | 1%nat => after 10 (Fails "Network error")
                      | _ => after 10 success
                      end;
  random := digits; localToken := None; envToken := None;
  storageError := None;
|}.

(** Every answer is a 404 whose body is the JSON text [null]. *)
Definition notFoundNull : Env := {|
  network := fun _ => after 10 (Responds {| status := 404; statusText := "Not Found";
                                            body := Some Js.Null |});
  random := digits; localToken := None; envToken := None;
  storageError := None;
|}.

(** Every answer is a 500 and takes 60 ms. *)
Definition slow500 : Env := {|
  network := fun _ => after 60 serverError;
  random := digits; localToken := None; envToken := None;
  storageError := None;
|}.

(** A budget of 100 ms, one retry, a base delay of 10 ms. *)
Definition tightConfig : APIConfig := {|
  baseURL := "https://test-api.strathon.com";
  cfg_timeout := 100;
  cfg_retryAttempts := 1;
  retryDelay := 10;
  cfg_enableMetrics := true;
  cfg_enableTracing := true;
|}.

(** The answer, a 200, takes a second. *)
Definition slowSuccess : Env := {|
  network := fun _ => after 1000 success;
  random := digits; localToken := None; envToken := None;
  storageError := None;
|}.


(** A budget beyond what a timer takes. *)
Definition hugeBudget : APIConfig := {|
  baseURL := "https://test-api.strathon.com";
  cfg_timeout := 3000000000;
  cfg_retryAttempts := 0;
  retryDelay := 100;
  cfg_enableMetrics := true;
  cfg_enableTracing := true;
|}.

(** Every answer is a 401, there after 10 ms; its body takes a second
    more. *)
Definition slowBody401 : Env := {|
  network := fun _ =>
    {| latency := 10;
       outcome := Responds {| status := 401; statusText := "Unauthorized";
                              body := Some (Js.Obj [("message", Js.Str "No token")]) |};
       reading := 1000 |};
  random := digits; localToken := None; envToken := None;
  storageError := None;
|}.

(** Every answer is a 404 whose [message] is an object with a member
    [toString]. *)
Definition notFoundOdd : Env := {|
  network := fun _ =>
    after 10 (Responds {| status := 404; statusText := "Not Found";
                          body := Some (Js.Obj [("message",
                                                 Js.Obj [("toString", Js.Num 1)])]) |});
  random := digits; localToken := None; envToken := None;
  storageError := None;
|}.

End ApiScenarios.

(** ** The rest of the request client: the verb helpers and the success rate *)

Module ApiHelpers.
Import ApiClient.

(** [{ ...options, method }] *)
Definition with_method (m : string) (o : RequestOptions) : RequestOptions :=
  {| opt_timeout := opt_timeout o; opt_retryAttempts := opt_retryAttempts o;
     opt_enableMetrics := opt_enableMetrics o; opt_enableTracing := opt_enableTracing o;
     opt_method := Some m; opt_headers := opt_headers o; opt_body := opt_body o |}.

(** [{ ...options, body }]: the key is set whatever its value, also to
    [undefined]. *)
Definition with_body (b : option string) (o : RequestOptions) : RequestOptions :=
  {| opt_timeout := opt_timeout o; opt_retryAttempts := opt_retryAttempts o;
     opt_enableMetrics := opt_enableMetrics o; opt_enableTracing := opt_enableTracing o;
     opt_method := opt_method o; opt_headers := opt_headers o; opt_body := b |}.

Section Helpers.

(** [JSON.stringify] on the values the helpers are given. *)
Variable JSON_stringify : Js.Value -> string.
Variable env : Env.
Variable config : APIConfig.

(** [data ? JSON.stringify(data) : undefined] *)
Definition serialised (data : option Js.Value) : option string :=
  if Js.truthy data then JSON_stringify <$> data else None.

(** The helpers take [options?]: [None] is a call without them. *)
Definition get (endpoint : string) (options : option RequestOptions) (w : World)
    : (Js.Value + Error) * World :=
  request env config endpoint (with_method "GET" (default noOptions options)) w.

Definition post (endpoint : string) (data : option Js.Value)
    (options : option RequestOptions) (w : World) : (Js.Value + Error) * World :=
  request env config endpoint
    (with_body (serialised data) (with_method "POST" (default noOptions options))) w.

Definition put (endpoint : string) (data : option Js.Value)
    (options : option RequestOptions) (w : World) : (Js.Value + Error) * World :=
  request env config endpoint
    (with_body (serialised data) (with_method "PUT" (default noOptions options))) w.

Definition delete_ (endpoint : string) (options : option RequestOptions) (w : World)
    : (Js.Value + Error) * World :=
  request env config endpoint (with_method "DELETE" (default noOptions options)) w.

End Helpers.

(** [getSuccessRate] divides one count by another: the result is kept as an
    exact fraction. *)
Definition getSuccessRate (w : World) : Q :=
  if Nat.eqb (length (metrics w)) 0 then 0%Q
  else
    let successful := length (List.filter m_success (metrics w)) in
    (inject_Z (Z.of_nat successful) / inject_Z (Z.of_nat (length (metrics w)))
     * inject_Z 100)%Q.

(** *** Vocabulary of the statements below *)

(** The transport calls made between two states of the client. *)
Definition new_calls (w w' : World) : list FetchCall :=
  drop (length (fetched w)) (fetched w').

(** The transport calls one call of [request] makes. *)
Definition calls_of (env : Env) (config : APIConfig) (endpoint : string)
    (options : RequestOptions) (w : World) : list FetchCall :=
  new_calls w (request env config endpoint options w).2.

(** A transport call ends with a response or with an error of the platform. *)
Definition plain (s : Settlement) : Prop :=
  match s with
  | Resolved _ => True
  | Rejected e => exists name message, e = PlatformError name message
  end.

(** The attempt logged as [c] failed in a way the loop retries: the transport
    threw something else than an abort, or the answer has a status outside
    2xx that is not 401, 403 or 404. *)
Definition retryable (c : FetchCall) : Prop :=
  match settled c with
  | Resolved r => ok r = false /\ ~ no_retry (status r)
  | Rejected e => is_abort e = false
  end.

Definition locals_of (env : Env) (config : APIConfig) (endpoint : string)
    (options : RequestOptions) (w : World) : Locals :=
  (prologue env config endpoint options w).1.1.


(** No pending timer aborts controller [c]. *)
Definition no_timer_for (c : nat) (tms : list (option (Z * nat))) : Prop :=
  forall i due, tms !! i <> Some (Some (due, c)).

(** *** Further concrete runs *)


(** Every answer is a 500 that takes 10 ms. *)
Definition always500 : Env := {|
  network := fun _ => ApiScenarios.after 10 ApiScenarios.serverError;
  random := ApiScenarios.digits; localToken := None; envToken := None;
  storageError := None;
|}.


(** Options with a header name that is no token: it holds a space. *)
Definition badHeaderOptions : RequestOptions := {|
  opt_timeout := None; opt_retryAttempts := None;
  opt_enableMetrics := None; opt_enableTracing := None;
  opt_method := None;
  opt_headers := [("X Custom", "1")];
  opt_body := None;
|}.

(** There is no [localStorage]: reading it throws. *)
Definition noStorage : Env := {|
  network := fun _ => ApiScenarios.after 10 ApiScenarios.success;
  random := ApiScenarios.digits; localToken := None; envToken := None;
  storageError := Some ("ReferenceError", "localStorage is not defined");
|}.

(** The stored token holds a line break. *)
Definition brokenToken : Env := {|
  network := fun _ => ApiScenarios.after 10 ApiScenarios.success;
  random := ApiScenarios.digits;
  localToken := Some ("abc" +:+ String (ascii_of_nat 10) "def"); envToken := None;
  storageError := None;
|}.

(** Every answer is a 401 with a message. *)
Definition unauthorized : Env := {|
  network := fun _ => ApiScenarios.after 10
               (Responds {| status := 401; statusText := "Unauthorized";
                            body := Some (Js.Obj [("message", Js.Str "Unauthorized")]) |});
  random := ApiScenarios.digits; localToken := None; envToken := None;
  storageError := None;
|}.

End ApiHelpers.

(** ** The rest of the event-stream client: the metric reader *)

Module WebSocketReaders.
Import WebSocketClient.

(** What [getMetrics] returns; the average is a fraction, [None] being NaN. *)
Record MetricsView := {
  v_connectionTime : Z;
  v_messagesReceived : nat;
  v_messagesSent : nat;
  v_reconnectCount : nat;
  v_averageLatency : option Q;
  v_lastMessageTime : Z;
  v_uptime : Z;
}.

(** [acc + latency], NaN being contagious. *)
Definition add_latency (acc latency : option Z) : option Z :=
  match acc, latency with
  | Some a, Some l => Some (a + l)
  | _, _ => None
  end.

Definition calculateAverageLatency (c : Client) : option Q :=
  if Nat.eqb (length (latencyMeasurements c)) 0 then Some 0%Q
  else
    let sum := foldl add_latency (Some 0) (latencyMeasurements c) in
    (fun sum => (inject_Z sum / inject_Z (Z.of_nat (length (latencyMeasurements c))))%Q)
      <$> sum.

(** [getMetrics()] at instant [now]. *)
Definition getMetrics (now : Z) (c : Client) : MetricsView := {|
  v_connectionTime := connectionTime (metrics c);
  v_messagesReceived := messagesReceived (metrics c);
  v_messagesSent := messagesSent (metrics c);
  v_reconnectCount := reconnectCount (metrics c);
  v_averageLatency := calculateAverageLatency c;
  v_lastMessageTime := lastMessageTime (metrics c);
  v_uptime := if state_eqb (state c) connected then now - connectionStartTime c else 0;
|}.

(** *** Vocabulary of the statements below *)

(** The frame [send] makes of [message] at instant [now], the [k]-th draw of
    the generator giving its id. *)
Definition stamp (env : Env) (now : Z) (k : nat) (message : Js.Value) : Js.Value :=
  Js.Obj (with_member "timestamp" (Js.Str (toISOString env now))
            (with_member "requestId"
               (Js.Str ("ws_" +:+ pretty now +:+ "_" +:+ substring 0 9 (random env k)))
               (spread message))).

(** The frames written to sockets, in order. *)
Definition frames (es : list Effect) : list (nat * Js.Value) :=
  omap (fun e => match e with
                 | SocketSend sock frame => Some (sock, frame)
                 | _ => None
                 end) es.

(** The frames [stamp] makes of [ms], the first with draw [k]. *)
Fixpoint stamped (env : Env) (now : Z) (k : nat) (sock : nat) (ms : list Js.Value)
    : list (nat * Js.Value) :=
  match ms with
  | [] => []
  | m :: rest => (sock, stamp env now k m) :: stamped env now (S k) sock rest
  end.

(** [send] each message of [ms] in turn, at instant [now]. *)
Definition send_all (env : Env) (now : Z) (ms : list Js.Value) (c : Client) : Client :=
  foldl (fun c m => (send env now m c).2) c ms.

(** The cache key the bridge invalidates for a message type. *)
Definition bridge_key (type : string) : option (list string) :=
  if String.eqb type "metrics_update" then Some ["pulse"; "metrics"]
  else if String.eqb type "security_alert" then Some ["pulse"; "violations"]
  else if String.eqb type "service_status" then Some ["pulse"; "services"]
  else if String.eqb type "circuit_breaker_state" then Some ["pulse"; "circuitBreakers"]
  else None.

(** The effects a handler added. *)
Definition added (before after : Client) : list Effect :=
  drop (length (effects before)) (effects after).

(** What a [send] that reaches the socket makes of the client. *)
Definition transmit (env : Env) (now : Z) (sock : nat) (message : Js.Value)
    (c : Client) : Client :=
  let m := metrics c in
  with_metrics {| connectionTime := connectionTime m;
                  messagesReceived := messagesReceived m;
                  messagesSent := S (messagesSent m);
                  reconnectCount := reconnectCount m;
                  averageLatency := averageLatency m;
                  lastMessageTime := lastMessageTime m;
                  uptime := uptime m |}
    (emit (SocketSend sock (stamp env now (draws c) message))
       (with_draws (S (draws c)) c)).

Definition transmit_all (env : Env) (now : Z) (sock : nat) (ms : list Js.Value)
    (c : Client) : Client :=
  foldl (fun c m => transmit env now sock m c) c ms.

Definition send_effect (f : nat * Js.Value) : Effect := SocketSend f.1 f.2.

(** *** Further concrete event-stream runs *)

Definition heartbeat : Js.Value := Js.Obj [("type", Js.Str "heartbeat")].
Definition heartbeat_ack : Js.Value := Js.Obj [("type", Js.Str "heartbeat_ack")].

(** A message that brings a request id and a timestamp of its own. *)
Definition subscribe : Js.Value :=
  Js.Obj [("type", Js.Str "subscribe"); ("requestId", Js.Str "mine");
          ("channel", Js.Str "alerts"); ("timestamp", Js.Str "then")].

(** A service-status message, and one of a type the client does not know. *)
Definition statusFrame : string := "service_status gateway".
Definition statusMessage : Js.Value :=
  Js.Obj [("type", Js.Str "service_status");
          ("timestamp", Js.Str "not a date");
          ("requestId", Js.Str "r-2");
          ("data", Js.Obj [("serviceName", Js.Str "AI Gateway")])].

Definition heartbeatFrame : string := "heartbeat".
Definition heartbeatMessage : Js.Value :=
  Js.Obj [("type", Js.Str "heartbeat");
          ("timestamp", Js.Str "2024-01-01T00:00:00Z");
          ("requestId", Js.Str "r-3")].

(** A platform that knows these frames. *)
Definition knownFrames : Env := {|
  JSON_parse := fun s => if String.eqb s statusFrame then Some statusMessage
                         else if String.eqb s heartbeatFrame then Some heartbeatMessage
                         else None;
  Date_parse := fun s => if String.eqb s "2024-01-01T00:00:00Z"
                         then Some 1704067200000 else None;
  toISOString := fun _ => "2024-01-01T00:00:01Z";
  random := fun _ => "k3j9x0q2abzzzzzzzzzz";
  localToken := None; envToken := None; urlParses := true;
|}.

(** A connected client, with a cache handle and without. *)
Definition bridged : Client :=
  onopen knownFrames WsScenarios.testConfig 0 10
    (connect knownFrames WsScenarios.testConfig (Some 7%nat) 0 WsScenarios.listening).2.
Definition unbridged : Client :=
  onopen knownFrames WsScenarios.testConfig 0 10
    (connect knownFrames WsScenarios.testConfig None 0 WsScenarios.listening).2.

End WebSocketReaders.

(** ** The query hooks: the cache keys and the retry delay

    [pulseQueryKeys] and the [retryDelay] of [usePulseMetrics].  A key is an
    array whose members may be [undefined] ([None]). *)

Module PulseHooks.

Definition all : list (option Js.Value) := [Some (Js.Str "pulse")].

Definition metrics : list (option Js.Value) := all ++ [Some (Js.Str "metrics")].

Definition violations (filters : option Js.Value) : list (option Js.Value) :=
  all ++ [Some (Js.Str "violations"); filters].

Definition timeSeries (metric timeRange : string) : list (option Js.Value) :=
  all ++ [Some (Js.Str "timeSeries"); Some (Js.Str metric); Some (Js.Str timeRange)].

Definition services : list (option Js.Value) := all ++ [Some (Js.Str "services")].

Definition circuitBreakers : list (option Js.Value) :=
  all ++ [Some (Js.Str "circuitBreakers")].

(** [(attemptIndex) => Math.min(1000 * 2 ** attemptIndex, 30000)], the index
    being a natural number. *)
Definition retryDelay (attemptIndex : nat) : Z :=
  Z.min (1000 * 2 ^ Z.of_nat attemptIndex) 30000.

(** The key a query hook of the file reads under. *)
Inductive Hook :=
| usePulseMetrics
| useSecurityViolations (filters : option Js.Value)
| useTimeSeriesData (metric timeRange : string)
| useServiceHealth
| useCircuitBreakers.

Definition queryKey_of (h : Hook) : list (option Js.Value) :=
  match h with
  | usePulseMetrics => metrics
  | useSecurityViolations filters => violations filters
  | useTimeSeriesData metric timeRange => timeSeries metric timeRange
  | useServiceHealth => services
  | useCircuitBreakers => circuitBreakers
  end.

(** The cache entries an [invalidateQueries({ queryKey })] reaches are those
    whose key starts with [queryKey]. *)
Definition reaches (queryKey : list Js.Value) (key : list (option Js.Value)) : Prop :=
  map Some queryKey `prefix_of` key.

End PulseHooks.

(** ** Properties of the request client *)

Module ApiClientFacts.
Import ApiClient.

#[local] Arguments advance : simpl never.
#[local] Arguments sleep : simpl never.
#[local] Arguments fetch : simpl never.
#[local] Arguments transport : simpl never.
#[local] Arguments readBody : simpl never.
#[local] Arguments cancelAllRequests : simpl never.
#[local] Arguments fire_timers : simpl never.
#[local] Arguments same_name : simpl never.
#[local] Arguments normalize : simpl never.
#[local] Arguments is_header_name : simpl never.
#[local] Arguments is_header_value : simpl never.
#[local] Arguments timer_delay : simpl never.

(** *** Headers *)

Lemma same_name_eq a b : same_name a b = true <-> lower a = lower b.
Proof. unfold same_name. apply String.eqb_eq. Qed.

Lemma same_name_refl a : same_name a a = true.
Proof. by apply same_name_eq. Qed.

Lemma same_name_right k name x :
  same_name k name = true -> same_name x k = same_name x name.
Proof. intros H%same_name_eq. unfold same_name. by rewrite H. Qed.

Lemma same_name_apart k name x :
  same_name k name = false -> same_name x name = true -> same_name x k = false.
Proof.
  intros Hk Hx%same_name_eq. unfold same_name in *. by rewrite Hx, String.eqb_sym.
Qed.

Lemma filter_same k name (l : list (string * string)) :
  same_name k name = true ->
  List.filter (fun kv => same_name kv.1 k) l
  = List.filter (fun kv => same_name kv.1 name) l.
Proof.
  intros Hk. apply List.filter_ext. intros kv. by apply same_name_right.
Qed.

Lemma filter_apart k name (l : list (string * string)) :
  same_name k name = false ->
  List.filter (fun kv => same_name kv.1 k)
    (List.filter (fun kv => negb (same_name kv.1 name)) l)
  = List.filter (fun kv => same_name kv.1 k) l.
Proof.
  intros Hk. induction l as [|[n v] l IH]; [reflexivity|]. cbn.
  destruct (same_name n name) eqn:Hn; cbn.
  - by rewrite (same_name_apart k name n Hk Hn).
  - destruct (same_name n k); [by rewrite IH|exact IH].
Qed.

Lemma filter_none name (l : list (string * string)) :
  List.filter (fun kv => same_name kv.1 name)
    (List.filter (fun kv => negb (same_name kv.1 name)) l) = [].
Proof.
  induction l as [|[n v] l IH]; [reflexivity|]. cbn.
  destruct (same_name n name) eqn:Hn; cbn; [exact IH|]. by rewrite Hn.
Qed.

Lemma set_first_same name value l :
  existsb (fun kv : string * string => same_name kv.1 name) l = true ->
  exists n, List.filter (fun kv => same_name kv.1 name) (set_first name value l)
            = [(n, value)].
Proof.
  induction l as [|[n v] l IH]; [discriminate|]. cbn.
  destruct (same_name n name) eqn:Hn; cbn.
  - intros _. exists n. by rewrite Hn, filter_none.
  - intros H. rewrite Hn. by apply IH.
Qed.

Lemma set_first_other k name value l :
  same_name k name = false ->
  List.filter (fun kv => same_name kv.1 k) (set_first name value l)
  = List.filter (fun kv => same_name kv.1 k) l.
Proof.
  intros Hk. induction l as [|[n v] l IH]; [reflexivity|]. cbn.
  destruct (same_name n name) eqn:Hn; cbn.
  - rewrite (same_name_apart k name n Hk Hn). by apply filter_apart.
  - destruct (same_name n k); [by rewrite IH|exact IH].
Qed.

Lemma filter_absent name (l : list (string * string)) :
  existsb (fun kv => same_name kv.1 name) l = false ->
  List.filter (fun kv => same_name kv.1 name) l = [].
Proof.
  induction l as [|[n v] l IH]; [reflexivity|]. cbn.
  intros [Hn Hl]%orb_false_iff. rewrite Hn. by apply IH.
Qed.

(** After [set], the headers hold the name once, whatever the spelling it is
    asked for with, and under it the value as it is stored. *)
Lemma header_set_same name value h h' k :
  header_set name value h = inl h' -> same_name k name = true ->
  h' !! k = Some (normalize value).
Proof.
  unfold lookup, headers_lookup, header_set, header_get, combined.
  destruct (is_header_name name && is_header_value (normalize value)); [|discriminate].
  intros [= <-] Hk. cbn [header_list]. rewrite (filter_same k name) by exact Hk.
  destruct (existsb _ (header_list h)) eqn:Hex.
  - by destruct (set_first_same name (normalize value) _ Hex) as [n ->].
  - rewrite List.filter_app, filter_absent by exact Hex. cbn.
    by rewrite same_name_refl.
Qed.

(** [set] leaves the other names as they are. *)
Lemma header_set_other name value h h' k :
  header_set name value h = inl h' -> same_name k name = false ->
  h' !! k = h !! k.
Proof.
  unfold lookup, headers_lookup, header_set, header_get, combined.
  destruct (is_header_name name && is_header_value (normalize value)); [|discriminate].
  intros [= <-] Hk. cbn [header_list].
  destruct (existsb _ (header_list h)) eqn:Hex.
  - by rewrite set_first_other.
  - rewrite List.filter_app. cbn.
    replace (same_name name k) with false; [by rewrite app_nil_r|].
    symmetry. unfold same_name in *. by rewrite String.eqb_sym.
Qed.

Lemma header_set_spec name value h :
  header_set name value h
  = if is_header_name name && is_header_value (normalize value)
    then header_set name value h else inr invalidHeader.
Proof.
  unfold header_set. by destruct (is_header_name name && is_header_value _).
Qed.

Lemma newHeaders_from init : forall h0,
  foldl (fun acc kv => h <- acc ; header_append kv.1 kv.2 h) (inl h0) init
  = if well_formed init
    then inl {| header_list := header_list h0
                               ++ map (fun kv => (kv.1, normalize kv.2)) init |}
    else inr invalidHeader.
Proof.
  induction init as [|[n v] init IH]; intros h0; cbn [foldl well_formed forallb].
  - rewrite app_nil_r. by destruct h0.
  - cbn [andThen fst snd]. unfold header_append at 2.
    destruct (is_header_name n && is_header_value (normalize v)); cbn [andb].
    + rewrite IH. cbn. by rewrite <- app_assoc.
    + clear IH. induction init as [|kv init IH]; [reflexivity|exact IH].
Qed.

(** [new Headers(init)] throws unless every entry is well formed, and holds
    the entries otherwise, in their order, the values as they are stored. *)
Lemma newHeaders_spec init :
  newHeaders init
  = if well_formed init
    then inl {| header_list := map (fun kv => (kv.1, normalize kv.2)) init |}
    else inr invalidHeader.
Proof. unfold newHeaders. by rewrite newHeaders_from. Qed.

Lemma newHeaders_get init h k :
  newHeaders init = inl h -> h !! k = init !! k.
Proof.
  rewrite newHeaders_spec. destruct (well_formed init); [|discriminate].
  by intros [= <-].
Qed.

(** The ids the client draws are made of plain characters. *)
Lemma all_chars_app p a b : all_chars p (a +:+ b) = all_chars p a && all_chars p b.
Proof.
  induction a as [|x a IH]; [reflexivity|]. simpl. by rewrite IH, andb_assoc.
Qed.

Lemma all_chars_impl (p q : ascii -> bool) s :
  (forall a, p a = true -> q a = true) -> all_chars p s = true -> all_chars q s = true.
Proof.
  intros Hpq. induction s as [|x s IH]; [reflexivity|]. cbn.
  intros [Hx Hs]%andb_true_iff. by rewrite (Hpq x Hx), IH.
Qed.

Lemma all_chars_substring p s : forall n m,
  all_chars p s = true -> all_chars p (substring n m s) = true.
Proof.
  induction s as [|x s IH]; intros n m; [by destruct n, m|]. cbn.
  intros [Hx Hs]%andb_true_iff.
  destruct n as [|n]; [destruct m as [|m]|]; cbn; [reflexivity| |by apply IH].
  by rewrite Hx, IH.
Qed.

Lemma all_chars_base36 s : all_chars is_base36 (base36 s) = true.
Proof.
  induction s as [|x s IH]; [reflexivity|]. cbn.
  destruct (is_base36 x) eqn:Hx; [|exact IH]. cbn. by rewrite Hx.
Qed.

Lemma base36_plain a : is_base36 a = true -> is_plain a = true.
Proof.
  destruct a as [[] [] [] [] [] [] [] []]; vm_compute; congruence.
Qed.

Lemma pretty_N_char_plain d : is_plain (pretty_N_char d) = true.
Proof. unfold pretty_N_char. by repeat case_match. Qed.

Lemma pretty_N_go_plain x : forall s,
  all_chars is_plain s = true -> all_chars is_plain (pretty_N_go x s) = true.
Proof.
  induction (N.lt_wf_0 x) as [x _ IH]. intros s Hs.
  destruct (decide (0 < x)%N) as [Hpos|Hzero].
  - rewrite pretty_N_go_step by exact Hpos. apply IH.
    + apply N.div_lt; lia.
    + cbn. by rewrite pretty_N_char_plain.
  - replace x with 0%N by lia. by rewrite pretty_N_go_0.
Qed.

Lemma pretty_N_plain (x : N) : all_chars is_plain (pretty x) = true.
Proof.
  unfold pretty, pretty_N. destruct (decide (x = 0)%N); [reflexivity|].
  by apply pretty_N_go_plain.
Qed.

Lemma pretty_Z_plain (z : Z) : all_chars is_plain (pretty z) = true.
Proof.
  destruct z as [|p|p]; [reflexivity|apply (pretty_N_plain (N.pos p))|].
  change (pretty (Z.neg p)) with ("-" +:+ pretty (N.pos p)).
  rewrite all_chars_app. by rewrite pretty_N_plain.
Qed.

Lemma ltrim_plain s : all_chars is_plain s = true -> ltrim s = s.
Proof.
  destruct s as [|x s]; [reflexivity|]. cbn.
  intros [Hx _]%andb_true_iff. unfold is_plain in Hx.
  apply andb_true_iff in Hx as [_ Hx]. apply negb_true_iff in Hx. by rewrite Hx.
Qed.

Lemma rtrim_plain s : all_chars is_plain s = true -> rtrim s = s.
Proof.
  induction s as [|x s IH]; [reflexivity|]. cbn.
  intros [Hx Hs]%andb_true_iff. rewrite IH by exact Hs.
  unfold is_plain in Hx.
  apply andb_true_iff in Hx as [_ Hx]. apply negb_true_iff in Hx. rewrite Hx.
  by destruct s.
Qed.

(** A value made of plain characters is accepted, and stored as it is. *)
Lemma plain_value s :
  all_chars is_plain s = true -> normalize s = s /\ is_header_value s = true.
Proof.
  intros Hs. unfold normalize. rewrite ltrim_plain, rtrim_plain by exact Hs.
  split; [reflexivity|]. unfold is_header_value.
  eapply all_chars_impl; [|exact Hs].
  intros a Ha. unfold is_plain in Ha. by apply andb_true_iff in Ha as [-> _].
Qed.

Lemma randomDigits_plain env k n : all_chars is_plain (randomDigits env k n) = true.
Proof.
  unfold randomDigits. apply all_chars_substring.
  eapply all_chars_impl; [exact base36_plain|apply all_chars_base36].
Qed.

Lemma requestId_plain env w : all_chars is_plain (generateRequestId env w).1 = true.
Proof.
  cbn. rewrite !all_chars_app, pretty_Z_plain, randomDigits_plain. reflexivity.
Qed.

Lemma traceId_plain env w : all_chars is_plain (generateTraceId env w).1 = true.
Proof.
  cbn. rewrite !all_chars_app, pretty_Z_plain, randomDigits_plain. reflexivity.
Qed.

(** [set] of a header of the client's own, with a plain value, does not
    throw. *)
Lemma header_set_plain name value h :
  is_header_name name = true -> all_chars is_plain value = true ->
  exists h', header_set name value h = inl h' /\
             (forall k, same_name k name = true -> h' !! k = Some value) /\
             (forall k, same_name k name = false -> h' !! k = h !! k).
Proof.
  intros Hname Hvalue. destruct (plain_value value Hvalue) as [Hn Hv].
  destruct (header_set name value h) as [h'|e] eqn:Hset.
  - exists h'. split; [reflexivity|]. split.
    + intros k Hk. rewrite (header_set_same _ _ _ _ _ Hset Hk). by rewrite Hn.
    + intros k Hk. exact (header_set_other _ _ _ _ _ Hset Hk).
  - unfold header_set in Hset. by rewrite Hn, Hname, Hv in Hset.
Qed.

(** *** What time passing leaves alone *)



Lemma advance_fetched t w : fetched (advance t w) = fetched w.
Proof. unfold advance. destruct (cancelAt w) as [c|]; [destruct (c <=? t)|]; reflexivity. Qed.

Lemma advance_slept t w : slept (advance t w) = slept w.
Proof. unfold advance. destruct (cancelAt w) as [c|]; [destruct (c <=? t)|]; reflexivity. Qed.

Lemma advance_metrics t w : metrics (advance t w) = metrics w.
Proof. unfold advance. destruct (cancelAt w) as [c|]; [destruct (c <=? t)|]; reflexivity. Qed.

Lemma advance_clock t w : clock (advance t w) = Z.max (clock w) t.
Proof.
  unfold advance. destruct (cancelAt w) as [tc|]; [destruct (tc <=? t)|]; reflexivity.
Qed.

Lemma sleep_fetched ms w : fetched (sleep ms w) = fetched w.
Proof. unfold sleep. now rewrite advance_fetched. Qed.

Lemma sleep_slept ms w : slept (sleep ms w) = slept w ++ [ms].
Proof. unfold sleep. now rewrite advance_slept. Qed.

Lemma sleep_metrics ms w : metrics (sleep ms w) = metrics w.
Proof. unfold sleep. now rewrite advance_metrics. Qed.

Section Call.

Variable env : Env.
Variable config : APIConfig.
Variable L : Locals.

Lemma transport_frame c w s w' :
  transport env c w = (s, w') ->
  fetched w' = fetched w /\ slept w' = slept w /\ metrics w' = metrics w /\
  clock w <= clock w'.
Proof.
  unfold transport. intros H.
  destruct (aborted c w); [|destruct (abort_due c w) as [a|]; [destruct (a <=? _)|]];
    injection H as <- <-;
    rewrite ?advance_fetched, ?advance_slept, ?advance_metrics, ?advance_clock;
    repeat split; lia.
Qed.

Lemma readBody_frame c ms w whole w' :
  readBody c ms w = (whole, w') ->
  fetched w' = fetched w /\ slept w' = slept w /\ metrics w' = metrics w /\
  clock w <= clock w'.
Proof.
  unfold readBody. intros H.
  destruct (abort_due c w) as [a|]; [destruct (a <=? _)|];
    injection H as <- <-;
    rewrite ?advance_fetched, ?advance_slept, ?advance_metrics, ?advance_clock;
    repeat split; lia.
Qed.

Lemma sample_as_read retryCount whole r t :
  sample L retryCount (as_read whole r) t = sample L retryCount r t.
Proof. by destruct whole. Qed.

(** One attempt: one more line in the transport log, made with [fetchInit];
    no sleep; a sample exactly when the call was answered; the verdict is
    the one its line tells; and a response whose read was stopped is there
    without a body. *)
Lemma attempt_body_spec retryCount w r w' :
  attempt_body env L retryCount w = (r, w') ->
  exists c,
    fetched w' = fetched w ++ [c] /\ init c = fetchInit L /\
    startedAt c = clock w /\ endedAt c = clock w' /\
    r = verdict_of L c /\
    slept w' = slept w /\
    metrics w' = foldl push (metrics w) (sample_of L retryCount c) /\
    (bodyCut c = true -> exists resp, settled c = Resolved resp /\ body resp = None).
Proof.
  unfold attempt_body, fetch. intros H.
  destruct (transport env (f_signal (fetchInit L)) w) as [s w1] eqn:Ht.
  apply transport_frame in Ht as (Hfe & Hsl & Hme & _).
  destruct s as [resp|e].
  - set (w2 := if enableMetrics L
               then collectMetrics (sample L retryCount resp (clock w1)) w1
               else w1) in H.
    assert (Hw2 : fetched w2 = fetched w /\ slept w2 = slept w /\
                  metrics w2 = foldl push (metrics w)
                                 (if enableMetrics L
                                  then [sample L retryCount resp (clock w1)] else [])).
    { subst w2. destruct (enableMetrics L); cbn; rewrite ?Hme; auto. }
    destruct Hw2 as (Hfe2 & Hsl2 & Hme2).
    destruct (readBody (abortController L) _ w2) as [whole w3] eqn:Hr.
    apply readBody_frame in Hr as (Hfe3 & Hsl3 & Hme3 & _).
    injection H as <- <-. unfold logged. cbn [fetched with_fetched].
    eexists. split; [rewrite Hfe3, Hfe2; reflexivity|].
    unfold sample_of, verdict_of. cbn.
    rewrite sample_as_read, Hsl3, Hme3, Hsl2, Hme2.
    do 5 (split; [reflexivity|]). split; [by destruct (enableMetrics L)|].
    destruct whole; [discriminate|]. intros _. eexists. split; reflexivity.
  - injection H as <- <-. unfold logged. cbn [fetched with_fetched].
    eexists. split; [rewrite Hfe; reflexivity|]. unfold sample_of, verdict_of. cbn.
    rewrite Hsl, Hme. repeat split; auto. discriminate.
Qed.

Lemma backoff_cons attempt k :
  backoff config attempt (S k)
  = retryDelay config * 2 ^ attempt :: backoff config (attempt + 1) k.
Proof.
  unfold backoff. cbn [seq map]. rewrite Z.add_0_r. f_equal.
  rewrite <- seq_shift, map_map. apply map_ext. intros j.
  do 2 f_equal. lia.
Qed.

(** The loop, run for the iterations that are left: what it adds to the
    transport log, to the sleeps and to the samples. *)
Lemma retry_loop_spec n : forall attempt lastError retryCount w exit w',
  Z.of_nat n = retryAttempts L + 1 - attempt ->
  retry_loop env config L n attempt lastError retryCount w = (exit, w') ->
  exists calls,
    fetched w' = fetched w ++ calls /\
    Forall (fun c => init c = fetchInit L) calls /\
    (length calls <= n)%nat /\ (0 < n -> 0 < length calls)%nat /\
    slept w' = slept w ++ backoff config attempt (length calls - 1) /\
    metrics w' = foldl push (metrics w) (samples_of L retryCount attempt calls).
Proof.
  induction n as [|n IH]; intros attempt lastError retryCount w exit w' Hn H.
  - injection H as <- <-. exists []. cbn. rewrite !app_nil_r.
    repeat split; auto; lia.
  - cbn [retry_loop] in H.
    destruct (attempt_body env L retryCount w) as [r w1] eqn:Hb.
    apply attempt_body_spec in Hb as (c & Hfe & Hin & _ & _ & _ & Hsl & Hme & _).
    assert (Hstop : w' = w1 ->
      exists calls,
        fetched w' = fetched w ++ calls /\
        Forall (fun c => init c = fetchInit L) calls /\
        (length calls <= S n)%nat /\ (0 < S n -> 0 < length calls)%nat /\
        slept w' = slept w ++ backoff config attempt (length calls - 1) /\
        metrics w' = foldl push (metrics w) (samples_of L retryCount attempt calls)).
    { intros ->. exists [c]. cbn. rewrite !app_nil_r.
      repeat split; auto; lia. }
    destruct r as [data|error]; [injection H as <- <-; auto|].
    destruct (no_retry_status error); [injection H as <- <-; auto|].
    destruct (is_abort error); [injection H as <- <-; auto|].
    destruct n as [|n'].
    + (* the last iteration: no sleep, the loop is over *)
      assert (Hlt : (attempt <? retryAttempts L) = false) by (apply Z.ltb_ge; lia).
      rewrite Hlt in H. injection H as <- <-. auto.
    + assert (Hlt : (attempt <? retryAttempts L) = true) by (apply Z.ltb_lt; lia).
      rewrite Hlt in H.
      apply IH in H as (calls & Hfe' & Hall & Hlen & Hpos & Hsl' & Hme'); [|lia].
      exists (c :: calls).
      rewrite sleep_fetched in Hfe'. rewrite sleep_slept in Hsl'.
      rewrite sleep_metrics in Hme'.
      assert (0 < length calls)%nat by (apply Hpos; lia).
      repeat split.
      * rewrite Hfe', Hfe, <- app_assoc. reflexivity.
      * constructor; assumption.
      * cbn. lia.
      * cbn. lia.
      * rewrite Hsl', Hsl, <- app_assoc. f_equal. cbn [length app].
        replace (S (length calls) - 1)%nat with (S (length calls - 1)) by lia.
        rewrite backoff_cons. reflexivity.
      * rewrite Hme', Hme. cbn [samples_of]. rewrite foldl_app. reflexivity.
Qed.



End Call.

(** *** The prologue *)

(** The set-up of the headers.  It throws when the caller's headers are not
    well formed, when the storage cannot be read, or when the token makes no
    header value; what it throws is an error of the platform.  Otherwise the
    headers hold what the client sets, under every spelling of the names,
    and what the caller gave under the other names. *)
Lemma prepare_spec env options rid tracing w :
  all_chars is_plain rid = true ->
  let p := prepare env options rid tracing w in
  fetched p.2 = fetched w /\ slept p.2 = slept w /\ metrics p.2 = metrics w /\
  clock p.2 = clock w /\ cancelAt p.2 = cancelAt w /\
  abortControllers p.2 = abortControllers w /\ signals p.2 = signals w /\
  timers p.2 = timers w /\
  match p.1 with
  | inr e =>
      (well_formed (opt_headers options) = false /\ e = invalidHeader) \/
      (well_formed (opt_headers options) = true /\
       exists name text, storageError env = Some (name, text) /\
                         e = PlatformError name text) \/
      (well_formed (opt_headers options) = true /\
       exists token, getAuthToken env = inl (Some token) /\
                     is_header_value (normalize ("Bearer " +:+ token)) = false /\
                     e = invalidHeader)
  | inl h =>
      well_formed (opt_headers options) = true /\
      exists token, getAuthToken env = inl token /\
      (forall t, token = Some t ->
         is_header_value (normalize ("Bearer " +:+ t)) = true) /\
      (forall k, same_name k "Content-Type" = true -> h !! k = Some "application/json") /\
      (forall k, same_name k "X-Request-ID" = true -> h !! k = Some rid) /\
      (forall k, same_name k "Authorization" = true ->
         h !! k = match token with
                  | Some t => Some (normalize ("Bearer " +:+ t))
                  | None => opt_headers options !! k
                  end) /\
      (forall k, same_name k "X-Trace-ID" = true ->
         h !! k = if tracing then Some (generateTraceId env w).1
                  else opt_headers options !! k)
  end.
Proof.
  intros Hrid p. subst p. unfold prepare.
  assert (Hdiff : forall a b k, same_name a b = false ->
            same_name k a = true -> same_name k b = false).
  { intros a b k Hab Hka%same_name_eq. unfold same_name in *. by rewrite Hka. }
  match goal with
  | |- context [match ?x with inl _ => _ | inr _ => _ end] => set (inner := x)
  end.
  assert (Hinner :
    (well_formed (opt_headers options) = false /\ inner = inr invalidHeader) \/
    (well_formed (opt_headers options) = true /\
     exists name text, storageError env = Some (name, text) /\
                       inner = inr (PlatformError name text)) \/
    (well_formed (opt_headers options) = true /\
     exists token, getAuthToken env = inl (Some token) /\
                   is_header_value (normalize ("Bearer " +:+ token)) = false /\
                   inner = inr invalidHeader) \/
    (well_formed (opt_headers options) = true /\
     exists token h3, getAuthToken env = inl token /\
       (forall t, token = Some t ->
          is_header_value (normalize ("Bearer " +:+ t)) = true) /\
       inner = inl h3 /\
       (forall k, same_name k "Content-Type" = true ->
          h3 !! k = Some "application/json") /\
       (forall k, same_name k "X-Request-ID" = true -> h3 !! k = Some rid) /\
       (forall k, same_name k "Authorization" = true ->
          h3 !! k = match token with
                    | Some t => Some (normalize ("Bearer " +:+ t))
                    | None => opt_headers options !! k
                    end) /\
       (forall k, same_name k "X-Trace-ID" = true ->
          h3 !! k = opt_headers options !! k))).
  { subst inner. rewrite newHeaders_spec.
    destruct (well_formed (opt_headers options)) eqn:Hwf; cbn [andThen];
      [|by left].
    right.
    set (h0 := {| header_list := map (fun kv => (kv.1, normalize kv.2))
                                     (opt_headers options) |}).
    assert (Hh0 : forall k, h0 !! k = opt_headers options !! k) by reflexivity.
    destruct (header_set_plain "Content-Type" "application/json" h0 eq_refl eq_refl)
      as (h1 & -> & Hs1 & Ho1).
    cbn [andThen].
    destruct (header_set_plain "X-Request-ID" rid h1 eq_refl Hrid)
      as (h2 & -> & Hs2 & Ho2).
    cbn [andThen].
    assert (Hct2 : forall k, same_name k "Content-Type" = true ->
                     h2 !! k = Some "application/json").
    { intros k Hk. rewrite Ho2; [by apply Hs1|].
      eapply Hdiff; [|exact Hk]. reflexivity. }
    assert (Htr2 : forall k, same_name k "X-Trace-ID" = true ->
                     h2 !! k = opt_headers options !! k).
    { intros k Hk.
      rewrite Ho2 by (eapply Hdiff; [|exact Hk]; reflexivity).
      rewrite Ho1 by (eapply Hdiff; [|exact Hk]; reflexivity).
      apply Hh0. }
    assert (Hau2 : forall k, same_name k "Authorization" = true ->
                     h2 !! k = opt_headers options !! k).
    { intros k Hk.
      rewrite Ho2 by (eapply Hdiff; [|exact Hk]; reflexivity).
      rewrite Ho1 by (eapply Hdiff; [|exact Hk]; reflexivity).
      apply Hh0. }
    unfold getAuthToken.
    destruct (storageError env) as [[name text]|] eqn:Hst; cbn [andThen].
    { left. split; [reflexivity|]. by exists name, text. }
    right.
    destruct (Js.or_string (Js.or_string (localToken env) (envToken env)) None)
      as [t|] eqn:Ht.
    - destruct (header_set "Authorization" ("Bearer " +:+ t) h2) as [h3|e] eqn:Hset3.
      + right. split; [reflexivity|]. exists (Some t), h3.
        pose proof (fun k => header_set_same _ _ _ _ k Hset3) as Hs3.
        pose proof (fun k => header_set_other _ _ _ _ k Hset3) as Ho3.
        split; [reflexivity|]. split.
        { intros t' [= <-]. unfold header_set in Hset3.
          destruct (is_header_value (normalize ("Bearer " +:+ t))); [reflexivity|].
          by rewrite andb_false_r in Hset3. }
        split; [reflexivity|]. repeat split; intros k Hk.
        * rewrite Ho3; [by apply Hct2|]. eapply Hdiff; [|exact Hk]. reflexivity.
        * rewrite Ho3; [by apply Hs2|]. eapply Hdiff; [|exact Hk]. reflexivity.
        * by apply Hs3.
        * rewrite Ho3; [by apply Htr2|]. eapply Hdiff; [|exact Hk]. reflexivity.
      + left. split; [reflexivity|]. exists t. split; [reflexivity|].
        unfold header_set in Hset3.
        destruct (is_header_value (normalize ("Bearer " +:+ t)));
          [discriminate|].
        rewrite andb_false_r in Hset3. by injection Hset3 as <-.
    - right. split; [reflexivity|]. exists None, h2.
      split; [reflexivity|]. split; [discriminate|]. split; [reflexivity|].
      repeat split; auto. }
  destruct Hinner as [[Hwf ->]|[(Hwf & name & text & Hst & ->)
                     |[(Hwf & t & Htok & Hval & ->)
                      |(Hwf & token & h3 & Htok & Hval & -> & Hct & Hri & Hau & Htr)]]].
  - cbn. do 8 (split; [reflexivity|]). by left.
  - cbn. do 8 (split; [reflexivity|]). right; left. split; [exact Hwf|].
    by exists name, text.
  - cbn. do 8 (split; [reflexivity|]). right; right. split; [exact Hwf|].
    by exists t.
  - destruct tracing.
    + destruct (header_set_plain "X-Trace-ID" (generateTraceId env w).1 h3 eq_refl
                  (traceId_plain env w)) as (h4 & Hset4 & Hs4 & Ho4).
      destruct (header_set_plain "X-Client-Version" "1.0.0" h4 eq_refl eq_refl)
        as (h5 & Hset5 & Hs5 & Ho5).
      destruct (header_set_plain "X-Client-Name" "strathon-pulse" h5 eq_refl eq_refl)
        as (h6 & Hset6 & Hs6 & Ho6).
      cbn [generateTraceId fst snd] in *. rewrite Hset4. cbn [andThen].
      rewrite Hset5. cbn [andThen]. rewrite Hset6. cbn [fst snd].
      do 8 (split; [reflexivity|]). split; [exact Hwf|].
      exists token. split; [exact Htok|]. split; [exact Hval|].
      repeat split; intros k Hk.
      * rewrite Ho6 by (eapply Hdiff; [|exact Hk]; reflexivity).
        rewrite Ho5 by (eapply Hdiff; [|exact Hk]; reflexivity).
        rewrite Ho4 by (eapply Hdiff; [|exact Hk]; reflexivity).
        by apply Hct.
      * rewrite Ho6 by (eapply Hdiff; [|exact Hk]; reflexivity).
        rewrite Ho5 by (eapply Hdiff; [|exact Hk]; reflexivity).
        rewrite Ho4 by (eapply Hdiff; [|exact Hk]; reflexivity).
        by apply Hri.
      * rewrite Ho6 by (eapply Hdiff; [|exact Hk]; reflexivity).
        rewrite Ho5 by (eapply Hdiff; [|exact Hk]; reflexivity).
        rewrite Ho4 by (eapply Hdiff; [|exact Hk]; reflexivity).
        by apply Hau.
      * rewrite Ho6 by (eapply Hdiff; [|exact Hk]; reflexivity).
        rewrite Ho5 by (eapply Hdiff; [|exact Hk]; reflexivity).
        by apply Hs4.
    + cbn [fst snd]. do 8 (split; [reflexivity|]). split; [exact Hwf|].
      exists token. split; [exact Htok|]. split; [exact Hval|].
      repeat split; auto.
Qed.

Lemma prologue_spec env config endpoint options w L timeoutId w0 :
  prologue env config endpoint options w = (L, timeoutId, w0) ->
  requestId L = fst (generateRequestId env w) /\
  timeout L = default (cfg_timeout config) (opt_timeout options) /\
  retryAttempts L = default (cfg_retryAttempts config) (opt_retryAttempts options) /\
  enableMetrics L = default (cfg_enableMetrics config) (opt_enableMetrics options) /\
  startTime L = clock w /\
  abortController L = length (signals w) /\
  (thrown L = None -> headers L !! "X-Request-ID" = Some (requestId L)) /\
  (thrown L = None ->
   headers L !! "X-Trace-ID" =
     (if enableTracing_of config options then Some (traceId_of env w)
      else opt_headers options !! "X-Trace-ID")) /\
  fetched w0 = fetched w /\ slept w0 = slept w /\ metrics w0 = metrics w /\
  clock w0 = clock w.
Proof.
  unfold prologue, enableTracing_of, traceId_of.
  destruct (generateRequestId env w) as [rid w1] eqn:Hg.
  assert (Hrid : all_chars is_plain rid = true).
  { pose proof (requestId_plain env w) as H. by rewrite Hg in H. }
  assert (Hw1 : w1 = with_draws (S (draws w)) w) by (by injection Hg as _ <-).
  cbn [newAbortController setTimeout fst snd].
  match goal with
  | |- context [prepare env options rid ?tr ?w2] =>
      pose proof (prepare_spec env options rid tr w2 Hrid) as Hprep;
      destruct (prepare env options rid tr w2) as [p w3]
  end.
  cbn [fst snd] in Hprep.
  destruct Hprep as (Hfe & Hsl & Hme & Hcl & _ & _ & _ & _ & Hp).
  intros [= <- <- <-]. cbn [requestId timeout retryAttempts enableMetrics startTime
                            abortController headers thrown].
  rewrite Hfe, Hsl, Hme, Hcl, Hw1. cbn.
  do 6 (split; [reflexivity|]).
  destruct p as [h|e].
  - destruct Hp as (_ & token & _ & _ & _ & Hri & _ & Htr).
    split; [intros _; by apply Hri|]. split; [|by repeat split].
    intros _. rewrite Htr by reflexivity. rewrite Hw1.
    by destruct (default (cfg_enableTracing config) (opt_enableTracing options)).
  - split; [discriminate|]. split; [discriminate|]. by repeat split.
Qed.

(** What makes the set-up of a call throw, and what it throws then. *)
Lemma prologue_thrown env config endpoint options w :
  match thrown (prologue env config endpoint options w).1.1 with
  | Some e =>
      (well_formed (opt_headers options) = false /\ e = invalidHeader) \/
      (well_formed (opt_headers options) = true /\
       exists name text, storageError env = Some (name, text) /\
                         e = PlatformError name text) \/
      (well_formed (opt_headers options) = true /\
       exists token, getAuthToken env = inl (Some token) /\
                     is_header_value (normalize ("Bearer " +:+ token)) = false /\
                     e = invalidHeader)
  | None =>
      well_formed (opt_headers options) = true /\
      exists token, getAuthToken env = inl token /\
        forall t, token = Some t ->
          is_header_value (normalize ("Bearer " +:+ t)) = true
  end.
Proof.
  unfold prologue.
  destruct (generateRequestId env w) as [rid w1] eqn:Hg.
  assert (Hrid : all_chars is_plain rid = true).
  { pose proof (requestId_plain env w) as H. by rewrite Hg in H. }
  cbn [newAbortController setTimeout fst snd].
  match goal with
  | |- context [prepare env options rid ?tr ?w2] =>
      pose proof (prepare_spec env options rid tr w2 Hrid) as Hprep;
      destruct (prepare env options rid tr w2) as [p w3]
  end.
  cbn [fst snd] in Hprep. destruct Hprep as (_ & _ & _ & _ & _ & _ & _ & _ & Hp).
  cbn [fst snd thrown]. destruct p as [h|e]; [|exact Hp].
  destruct Hp as (Hwf & token & Htok & Hval & _). split; [exact Hwf|].
  by exists token.
Qed.


(** *** The whole call *)

Lemma request_spec env config endpoint options w :
  exists L timeoutId w0,
    prologue env config endpoint options w = (L, timeoutId, w0) /\
    match thrown L with
    | Some e =>
        request env config endpoint options w = (inr e, epilogue L timeoutId w0)
    | None =>
        exists exit w1,
          retry_loop env config L (Z.to_nat (retryAttempts L + 1)) 0 None 0 w0
          = (exit, w1) /\
          request env config endpoint options w
          = (conclude L exit, epilogue L timeoutId w1)
    end.
Proof.
  unfold request.
  destruct (prologue env config endpoint options w) as [[L timeoutId] w0].
  exists L, timeoutId, w0. split; [reflexivity|].
  destruct (thrown L); [reflexivity|].
  destruct (retry_loop env config L _ 0 None 0 w0) as [exit w1] eqn:Hl.
  by exists exit, w1.
Qed.

(** What one call of [request] adds to the transport log, to the sleeps and
    to the samples; a call whose set-up throws adds nothing. *)
Lemma request_log env config endpoint options w :
  let L := (prologue env config endpoint options w).1.1 in
  let w' := (request env config endpoint options w).2 in
  exists calls,
    fetched w' = fetched w ++ calls /\
    Forall (fun c => init c = fetchInit L) calls /\
    (length calls <= Z.to_nat (retryAttempts_of config options + 1))%nat /\
    (thrown L = None -> 0 <= retryAttempts_of config options ->
     (0 < length calls)%nat) /\
    slept w' = slept w ++ backoff config 0 (length calls - 1) /\
    metrics w' = foldl push (metrics w) (samples_of L 0 0 calls) /\
    (thrown L <> None -> calls = []).
Proof.
  destruct (request_spec env config endpoint options w)
    as (L & timeoutId & w0 & Hp & Hr).
  rewrite Hp. cbn [fst snd].
  apply prologue_spec in Hp
    as (_ & _ & Hra & _ & _ & _ & _ & _ & Hfe & Hsl & Hme & _).
  fold (retryAttempts_of config options) in Hra. rewrite <- Hra.
  destruct (thrown L) as [e|] eqn:Hth.
  - rewrite Hr. cbn. exists []. rewrite !app_nil_r.
    repeat split; auto; try (cbn; lia); try discriminate.
  - destruct Hr as (exit & w1 & Hl & ->). cbn.
    destruct (Z_lt_le_dec (retryAttempts L) (-1)) as [Hneg|Hpos].
    + (* no iteration at all *)
      replace (Z.to_nat (retryAttempts L + 1)) with O in * by lia.
      injection Hl as <- <-. exists []. cbn. rewrite !app_nil_r.
      repeat split; auto; try (cbn; lia); try congruence.
    + apply (retry_loop_spec env config L) in Hl as (calls & ? & ? & ? & ? & ? & ?);
        [|lia].
      exists calls. rewrite <- Hfe, <- Hsl, <- Hme.
      repeat split; auto; try (cbn; lia); try congruence.
Qed.

(** *** Correlation ids *)

(** C1, as amended.  The correlation id and the trace id are drawn once per
    logical call, before the first attempt: every transport call that one
    [request] makes, the first attempt and each retry alike, carries the
    request id drawn at the start of the call in its X-Request-ID header, and
    in X-Trace-ID the trace id drawn right after it when tracing is enabled
    (what the caller's own headers say otherwise). *)
Theorem one_id_per_call env config endpoint options w :
  let w' := (request env config endpoint options w).2 in
  exists calls,
    fetched w' = fetched w ++ calls /\
    Forall (fun c =>
      f_headers (init c) !! "X-Request-ID" = Some (generateRequestId env w).1 /\
      f_headers (init c) !! "X-Trace-ID" =
        (if enableTracing_of config options then Some (traceId_of env w)
         else opt_headers options !! "X-Trace-ID")) calls.
Proof.
  intros w'. subst w'.
  destruct (request_log env config endpoint options w)
    as (calls & Hfe & Hall & _ & _ & _ & _ & Hnone).
  exists calls. split; [exact Hfe|].
  destruct (prologue env config endpoint options w) as [[L timeoutId] w0] eqn:Hp.
  apply prologue_spec in Hp as (Hid & _ & _ & _ & _ & _ & Hrid & Htid & _).
  cbn in Hall, Hnone.
  destruct (thrown L) as [e|] eqn:Hth; [by rewrite Hnone|].
  eapply Forall_impl; [exact Hall|].
  intros c ->. unfold fetchInit. cbn [f_headers]. rewrite <- Hid. auto.
Qed.

(** C1, as stated, fails: the transport answers 500, 500, 200 to a client
    with two retries, and the three attempts of the call carry one and the
    same correlation id, although the generator draws afresh each time it is
    asked. *)
Lemma retry_reuses_correlation_id :
  let log := fetched (request ApiScenarios.twice500 ApiScenarios.testConfig
                        "/test-endpoint" noOptions (fresh 1000 None)).2 in
  length log = 3%nat /\
  ~ (forall i j ci cj, i <> j -> log !! i = Some ci -> log !! j = Some cj ->
       f_headers (init ci) !! "X-Request-ID" <> f_headers (init cj) !! "X-Request-ID").
Proof.
  split; [vm_compute; reflexivity|].
  intros H.
  eapply (H 0%nat 1%nat); [lia | vm_compute; reflexivity ..].
Qed.

(** *** Retries and backoff *)

Lemma backoff_length config attempt k : length (backoff config attempt k) = k.
Proof. unfold backoff. by rewrite length_map, length_seq. Qed.







(** *** Metric samples *)

Lemma push_keep_last ms m : push ms m = keep_last 1000 (ms ++ [m]).
Proof.
  unfold push, keep_last.
  destruct (1000 <? length (ms ++ [m]))%nat eqn:Hlen; [reflexivity|].
  apply Nat.ltb_ge in Hlen.
  by replace (length (ms ++ [m]) - 1000)%nat with O by lia.
Qed.

Lemma keep_last_length {A} n (l : list A) : (length (keep_last n l) <= n)%nat.
Proof. unfold keep_last. rewrite length_drop. lia. Qed.

Lemma keep_last_app {A} n (l l2 : list A) :
  keep_last n (keep_last n l ++ l2) = keep_last n (l ++ l2).
Proof.
  unfold keep_last.
  rewrite !drop_app, !length_app, !length_drop, drop_drop.
  f_equal; f_equal; lia.
Qed.

Lemma foldl_push samples : forall ms,
  (length ms <= 1000)%nat ->
  foldl push ms samples = keep_last 1000 (ms ++ samples).
Proof.
  induction samples as [|m samples IH]; intros ms Hlen; cbn [foldl].
  - rewrite app_nil_r. unfold keep_last.
    by replace (length ms - 1000)%nat with O by lia.
  - rewrite IH, push_keep_last, keep_last_app, <- app_assoc; [reflexivity|].
    rewrite push_keep_last. apply keep_last_length.
Qed.

Lemma samples_of_length L : forall calls retryCount attempt,
  enableMetrics L = true ->
  length (samples_of L retryCount attempt calls) = length (List.filter answered calls).
Proof.
  induction calls as [|c calls IH]; intros retryCount attempt Hm; [reflexivity|].
  cbn [samples_of List.filter]. rewrite length_app, IH by assumption.
  unfold sample_of, answered. rewrite Hm.
  by destruct (settled c).
Qed.

(** The samples a call adds are those of its answered attempts. *)
Lemma request_samples env config endpoint options w :
  (length (metrics w) <= 1000)%nat ->
  default (cfg_enableMetrics config) (opt_enableMetrics options) = true ->
  let L := (prologue env config endpoint options w).1.1 in
  let w' := (request env config endpoint options w).2 in
  exists calls,
    fetched w' = fetched w ++ calls /\
    metrics w' = keep_last 1000 (metrics w ++ samples_of L 0 0 calls) /\
    length (samples_of L 0 0 calls) = length (List.filter answered calls).
Proof.
  intros Hlen Hm L w'. subst w'.
  destruct (request_log env config endpoint options w)
    as (calls & Hfe & _ & _ & _ & _ & Hme & _).
  exists calls. fold L in Hme.
  split; [exact Hfe|]. split.
  - rewrite Hme. by apply foldl_push.
  - apply samples_of_length. subst L.
    destruct (prologue env config endpoint options w) as [[L timeoutId] w0] eqn:Hp.
    apply prologue_spec in Hp as (_ & _ & _ & HM & _). cbn. by rewrite HM.
Qed.

(** C3, as amended.  With metrics enabled, an attempt records a sample exactly
    when its transport call comes back with a response, whatever the status;
    an attempt whose transport call throws (a network failure, an abort)
    records none.  So the samples a call adds are those of its answered
    attempts, in order, and the client keeps the last 1000 of what it had and
    what is added.  In particular, with [retryAttempts = 2] and
    [retryDelay = 100], when the transport answers 500 twice and then 200,
    the caller gets the payload and three samples are recorded. *)
Theorem sample_per_answered_attempt :
  (forall env config endpoint options w,
     (length (metrics w) <= 1000)%nat ->
     default (cfg_enableMetrics config) (opt_enableMetrics options) = true ->
     let L := (prologue env config endpoint options w).1.1 in
     let w' := (request env config endpoint options w).2 in
     exists calls,
       fetched w' = fetched w ++ calls /\
       metrics w' = keep_last 1000 (metrics w ++ samples_of L 0 0 calls) /\
       length (samples_of L 0 0 calls) = length (List.filter answered calls)) /\
  (let run := request ApiScenarios.twice500 ApiScenarios.testConfig
                "/test-endpoint" noOptions (fresh 1000 None) in
   run.1 = inl ApiScenarios.okBody /\
   length (fetched run.2) = 3%nat /\
   map m_status (metrics run.2) = [500; 500; 200] /\
   slept run.2 = [100; 200]).
Proof.
  split; [exact request_samples|].
  vm_compute. auto.
Qed.

Lemma sample_per_answered_attempt_witness :
  let L := (prologue ApiScenarios.twiceDown ApiScenarios.testConfig
              "/test-endpoint" noOptions (fresh 1000 None)).1.1 in
  let w' := (request ApiScenarios.twiceDown ApiScenarios.testConfig
               "/test-endpoint" noOptions (fresh 1000 None)).2 in
  exists calls,
    fetched w' = [] ++ calls /\
    metrics w' = keep_last 1000 ([] ++ samples_of L 0 0 calls) /\
    length (samples_of L 0 0 calls) = length (List.filter answered calls).
Proof.
  exact (proj1 sample_per_answered_attempt
           ApiScenarios.twiceDown ApiScenarios.testConfig
           "/test-endpoint" noOptions (fresh 1000 None)
           (Nat.le_0_l 1000) eq_refl).
Defined.

(** C3, as stated, fails: the transport call throws twice and then answers
    200, the client has two retries; the caller gets the payload after three
    transport calls, and one sample is recorded, not three. *)
Lemma thrown_attempts_record_nothing :
  let run := request ApiScenarios.twiceDown ApiScenarios.testConfig
               "/test-endpoint" noOptions (fresh 1000 None) in
  run.1 = inl ApiScenarios.okBody /\
  length (fetched run.2) = 3%nat /\
  length (metrics run.2) = 1%nat.
Proof. vm_compute. auto. Qed.

(** *** Abort signals *)

Lemma abort_length c sigs : length (abort c sigs) = length sigs.
Proof. apply length_insert. Qed.

Lemma abort_lookup c c' sigs :
  (c < length sigs)%nat ->
  abort c' sigs !! c = Some (default false (sigs !! c) || Nat.eqb c' c).
Proof.
  intros Hc. unfold abort.
  destruct (lookup_lt_is_Some_2 sigs c Hc) as [b Hb].
  destruct (Nat.eqb_spec c' c) as [->|Hne].
  - rewrite list_lookup_insert_eq by assumption. by rewrite orb_true_r.
  - rewrite list_lookup_insert_ne by assumption. by rewrite Hb, orb_false_r.
Qed.




(** What [cancelAllRequests()] does to the signals: none is lost, an aborted
    one stays aborted, and every registered one is aborted. *)
Lemma cancel_signals (m : gmap string nat) (sigs : list bool) :
  let sigs' := map_fold (fun (_ : string) c s => abort c s) sigs m in
  length sigs' = length sigs /\
  forall c, (c < length sigs)%nat ->
    sigs !! c = Some true \/ map_Exists (fun _ c' => c' = c) m ->
    sigs' !! c = Some true.
Proof.
  cbn. apply (map_fold_weak_ind
    (fun r m => length r = length sigs /\
       forall c, (c < length sigs)%nat ->
         sigs !! c = Some true \/ map_Exists (fun _ c' => c' = c) m ->
         r !! c = Some true)).
  - split; [reflexivity|]. intros c _ [H|H]; [assumption|].
    by apply map_Exists_empty in H.
  - intros id c' m' r Hfresh [Hlen IH]. rewrite abort_length. split; [assumption|].
    intros c Hc H. rewrite abort_lookup by lia.
    destruct (Nat.eqb_spec c' c) as [->|Hne]; [by rewrite orb_true_r|].
    rewrite IH; [reflexivity|assumption|].
    destruct H as [H|H]; [by left|right].
    apply map_Exists_insert in H as [H|H]; [congruence|assumption|assumption].
Qed.

Lemma registered_true c w :
  registered c w = true <-> exists id, abortControllers w !! id = Some c.
Proof.
  unfold registered. rewrite bool_decide_eq_true. unfold map_Exists.
  split; [intros (id & c' & ? & ->)|intros (id & ?)]; eauto.
Qed.

Lemma aborted_true c w : aborted c w = true <-> signals w !! c = Some true.
Proof.
  unfold aborted. destruct (signals w !! c) as [[]|]; cbn; split; congruence.
Qed.



(** [cancelAllRequests()] aborts every registered controller and empties the
    registry. *)
Lemma cancelAllRequests_spec w :
  abortControllers (cancelAllRequests w) = ∅ /\
  length (signals (cancelAllRequests w)) = length (signals w) /\
  forall c, (c < length (signals w))%nat ->
    aborted c w = true \/ registered c w = true ->
    aborted c (cancelAllRequests w) = true.
Proof.
  destruct (cancel_signals (abortControllers w) (signals w)) as [Hlen H].
  split; [reflexivity|]. split; [exact Hlen|].
  intros c Hc Hor. apply aborted_true. cbn. apply H; [assumption|].
  destruct Hor as [Ha|Hr]; [left; by apply aborted_true|right].
  apply registered_true in Hr as [id Hid]. by exists id, c.
Qed.


(** Time passes and nobody cancels. *)
Lemma advance_quiet t w :
  match cancelAt w with Some tc => t < tc | None => True end ->
  advance t w = with_clock (Z.max (clock w) t) (fire_timers t w).
Proof.
  unfold advance. destruct (cancelAt w) as [tc|]; [|reflexivity].
  intros Hlt. by replace (tc <=? t) with false by (symmetry; apply Z.leb_gt; lia).
Qed.

(** Time passes and [cancelAllRequests()] is called on the way. *)
Lemma advance_cancelled t tc w :
  cancelAt w = Some tc -> tc <= t ->
  advance t w = with_clock (Z.max (clock w) t)
                  (fire_timers t (cancelAllRequests (with_cancelAt None w))).
Proof.
  unfold advance. intros -> Hle.
  by replace (tc <=? t) with true by (symmetry; apply Z.leb_le; lia).
Qed.

(** *** Aborts on the way *)




Lemma advance_length t w : length (signals (advance t w)) = length (signals w).
Proof.
  unfold advance.
  assert (Hfire : forall w0, length (signals (fire_timers t w0)) = length (signals w0)).
  { intros w0. unfold fire_timers. cbn.
    induction (timers w0) as [|[[due c]|] tms IH]; cbn; [reflexivity| |exact IH].
    destruct (due <=? t); [by rewrite abort_length|exact IH]. }
  destruct (cancelAt w) as [tc|]; [destruct (tc <=? t)|]; cbn [signals with_clock];
    rewrite Hfire; [|reflexivity..].
  by destruct (cancelAllRequests_spec (with_cancelAt None w)) as (_ & -> & _).
Qed.




(** *** Cancellation *)


Section Cancel.

Variable env : Env.
Variable config : APIConfig.
Variable L : Locals.
Variable t : Z.










End Cancel.

(** The state in which the prologue leaves the platform: a new controller,
    not aborted, in the registry under the id of the call, and one new timer
    for it, due when the platform's timer for [timeout] ms has run. *)
Lemma prologue_world env config endpoint options w L timeoutId w0 :
  prologue env config endpoint options w = (L, timeoutId, w0) ->
  cancelAt w0 = cancelAt w /\
  abortControllers w0 = <[requestId L := abortController L]> (abortControllers w) /\
  signals w0 = signals w ++ [false] /\
  timers w0 = timers w ++ [Some (clock w + timer_delay (timeout L), abortController L)] /\
  timeoutId = length (timers w).
Proof.
  unfold prologue.
  destruct (generateRequestId env w) as [rid w1] eqn:Hg.
  assert (Hrid : all_chars is_plain rid = true).
  { pose proof (requestId_plain env w) as H. by rewrite Hg in H. }
  assert (Hw1 : w1 = with_draws (S (draws w)) w) by (by injection Hg as _ <-).
  cbn [newAbortController setTimeout fst snd].
  match goal with
  | |- context [prepare env options rid ?tr ?w2] =>
      pose proof (prepare_spec env options rid tr w2 Hrid) as Hprep;
      destruct (prepare env options rid tr w2) as [p w3]
  end.
  cbn [fst snd] in Hprep.
  destruct Hprep as (_ & _ & _ & _ & Hca & Hreg & Hsig & Htm & _).
  intros [= <- <- <-]. cbn [requestId timeout abortController].
  rewrite Hca, Hreg, Hsig, Htm, Hw1. by repeat split.
Qed.





(** The exception at work: a 401 is there after 10 ms, its body would take a
    second more, and [cancelAllRequests()] comes after 500 ms.  The call is
    rejected at that instant with the [APIError] of the 401, whose message
    is the status text and whose code is [PARSE_ERROR]; the body the server
    sent is never seen. *)
Lemma cancel_during_error_body_read :
  let run := request ApiScenarios.slowBody401 ApiScenarios.testConfig
               "/test-endpoint-1" noOptions (fresh 0 (Some 500)) in
  run.1 = inr (APIError "Unauthorized" 401 (Js.Str "PARSE_ERROR")
                 (Some "req_0_k3j9x0q2a") None) /\
  clock run.2 = 500 /\
  map (fun c => (startedAt c, settledAt c, endedAt c, bodyCut c)) (fetched run.2)
  = [(0, 10, 500, true)].
Proof.
  vm_compute. by repeat split.
Qed.

(** *** The timeout budget *)







Section Budget.

Variable env : Env.
Variable config : APIConfig.
Variable L : Locals.
Variable D : Z.







End Budget.







(** A budget beyond what a timer takes: 3000000000 ms.  The timer fires after
    1 ms, and the call, whose answer would be there after a second, is
    rejected at 1 with [TimeoutError]. *)
Lemma budget_beyond_timer_range :
  let run := request ApiScenarios.slowSuccess ApiScenarios.hugeBudget
               "/test-endpoint" noOptions (fresh 0 None) in
  run.1 = inr (TimeoutError "Request timeout after 3000000000ms" 3000000000) /\
  clock run.2 = 1.
Proof. vm_compute. by split. Qed.

(** The timer fires while the body of a 401 is read: budget 100 ms, the
    answer is there after 10 ms, its body would take a second more.  The
    call is rejected at 100 with the [APIError] of the 401, code
    [PARSE_ERROR], and not with [TimeoutError]. *)
Lemma timeout_during_error_body_read :
  let run := request ApiScenarios.slowBody401 ApiScenarios.tightConfig
               "/test-endpoint" noOptions (fresh 0 None) in
  run.1 = inr (APIError "Unauthorized" 401 (Js.Str "PARSE_ERROR")
                 (Some "req_0_k3j9x0q2a") None) /\
  clock run.2 = 100 /\
  map (fun c => (startedAt c, settledAt c, endedAt c, bodyCut c)) (fetched run.2)
  = [(0, 10, 100, true)].
Proof. vm_compute. by repeat split. Qed.

(** *** Statuses that are not retried *)

Section Verdicts.

Variable env : Env.
Variable config : APIConfig.
Variable L : Locals.

(** The loop in terms of the verdicts: every attempt but the last had a
    verdict on which the loop goes on, and the last one decides how the loop
    is left. *)
Lemma retry_loop_verdicts n : forall attempt lastError retryCount w exit w',
  retry_loop env config L n attempt lastError retryCount w = (exit, w') ->
  exists calls,
    fetched w' = fetched w ++ calls /\
    ((n = O /\ calls = [] /\ exit = Fell lastError) \/
     (exists front c,
        calls = front ++ [c] /\
        Forall (fun c => stops (verdict_of L c) = false) front /\
        exit = exit_of L (verdict_of L c) /\
        (stops (verdict_of L c) = true \/ length calls = n))).
Proof.
  induction n as [|n IH]; intros attempt lastError retryCount w exit w' H.
  - injection H as <- <-. exists []. rewrite app_nil_r. split; [reflexivity|by left].
  - cbn [retry_loop] in H.
    destruct (attempt_body env L retryCount w) as [r w1] eqn:Hb.
    apply attempt_body_spec in Hb as (c & Hfe & _ & _ & _ & Hr & _).
    assert (Hstop : stops r = true -> exit = exit_of L r -> w' = w1 ->
      exists calls,
        fetched w' = fetched w ++ calls /\
        ((S n = O /\ calls = [] /\ exit = Fell lastError) \/
         (exists front c,
            calls = front ++ [c] /\
            Forall (fun c => stops (verdict_of L c) = false) front /\
            exit = exit_of L (verdict_of L c) /\
            (stops (verdict_of L c) = true \/ length calls = S n)))).
    { intros Hs He ->. exists [c]. split; [exact Hfe|right].
      exists [], c. rewrite <- Hr. repeat split; auto. }
    destruct r as [data|error]; [injection H as <- <-; by apply Hstop|].
    cbn [stops exit_of] in Hstop.
    destruct (no_retry_status error) eqn:Hnr; [injection H as <- <-; by apply Hstop|].
    destruct (is_abort error) eqn:Hab; [injection H as <- <-; by apply Hstop|].
    clear Hstop.
    assert (Hfe1 : fetched (if attempt <? retryAttempts L
                            then sleep (retryDelay config * 2 ^ attempt) w1
                            else w1) = fetched w1)
      by (destruct (attempt <? retryAttempts L); [apply sleep_fetched|reflexivity]).
    apply IH in H as (calls & Hfe' & Hcases). rewrite Hfe1 in Hfe'.
    exists (c :: calls). split; [by rewrite Hfe', Hfe, <- app_assoc|right].
    destruct Hcases as [(-> & -> & ->)|(front & c' & -> & Hall & Hex & Hlast)].
    + exists [], c. rewrite <- Hr. cbn. rewrite Hnr, Hab. repeat split; auto.
    + exists (c :: front), c'. repeat split; auto.
      * constructor; [|exact Hall]. rewrite <- Hr. cbn. by rewrite Hnr, Hab.
      * destruct Hlast as [?|Hlen]; [by left|right]. cbn. by rewrite Hlen.
Qed.

(** The verdict on an answer outside 2xx whose error body is not [null] and
    whose message converts to a string: the [APIError] of that answer.  It
    is the same whether the body was read whole or not. *)
Lemma decode_error cut r :
  ok r = false -> parseErrorResponse r <> Js.Null ->
  Js.toString (errorMessage r (parseErrorResponse r)) <> None ->
  exists message code details,
    decode L cut r = inr (APIError message (status r) code (Some (requestId L)) details).
Proof.
  intros Hok Hnull Hstr. unfold decode. rewrite Hok. cbn [negb].
  destruct (parseErrorResponse r); try congruence;
    match goal with
    | |- context [Js.toString ?v] => destruct (Js.toString v); [eauto|congruence]
    end.
Qed.

End Verdicts.

(** The rule of lines 204 to 210, where it works: an attempt that is answered
    401, 403 or 404, with a body that is not the JSON text [null] and a
    message that converts to a string, is the last attempt of the call, and
    the caller gets the [APIError] of that answer. *)
Lemma no_attempt_after_no_retry_status env config endpoint options w :
  let L := (prologue env config endpoint options w).1.1 in
  let run := request env config endpoint options w in
  exists calls,
    fetched run.2 = fetched w ++ calls /\
    forall i c r,
      calls !! i = Some c -> settled c = Resolved r ->
      no_retry (status r) -> parseErrorResponse r <> Js.Null ->
      Js.toString (errorMessage r (parseErrorResponse r)) <> None ->
      S i = length calls /\
      exists message code details,
        run.1 = inr (APIError message (status r) code (Some (requestId L)) details).
Proof.
  intros L run. subst L run.
  destruct (request_spec env config endpoint options w)
    as (L & timeoutId & w0 & Hp & Hr).
  rewrite Hp. cbn [fst].
  apply prologue_spec in Hp as (_ & _ & _ & _ & _ & _ & _ & _ & Hfe & _).
  destruct (thrown L) as [e|].
  { rewrite Hr. cbn [fst snd].
    change (fetched (epilogue L timeoutId w0)) with (fetched w0).
    exists []. rewrite app_nil_r. split; [exact Hfe|]. intros i c r Hi. discriminate. }
  destruct Hr as (exit & w1 & Hl & ->). cbn [fst snd].
  change (fetched (epilogue L timeoutId w1)) with (fetched w1).
  apply retry_loop_verdicts in Hl as (calls & Hfe' & Hcases).
  exists calls. rewrite <- Hfe. split; [exact Hfe'|].
  intros i c r Hi Hc Hst Hnull Hstr.
  assert (Hok : ok r = false).
  { unfold ok. destruct Hst as [->|[->| ->]]; reflexivity. }
  assert (Hv : exists message code details,
             verdict_of L c
             = inr (APIError message (status r) code (Some (requestId L)) details)).
  { unfold verdict_of. rewrite Hc. by apply decode_error. }
  destruct Hv as (message & code & details & Hv).
  assert (Hnr : no_retry_status (APIError message (status r) code
                                   (Some (requestId L)) details) = true).
  { cbn. destruct Hst as [->|[->| ->]]; reflexivity. }
  destruct Hcases as [(_ & -> & _)|(front & c' & -> & Hall & Hex & _)];
    [discriminate|].
  destruct (decide (i < length front)%nat) as [Hlt|Hge].
  - (* an attempt before the last: impossible *)
    rewrite lookup_app_l in Hi by assumption.
    eapply Forall_lookup_1 in Hall; [|exact Hi].
    rewrite Hv in Hall. unfold stops in Hall. by rewrite Hnr in Hall.
  - rewrite lookup_app_r in Hi by lia.
    destruct (i - length front)%nat as [|k] eqn:Hk; [|discriminate].
    injection Hi as ->. rewrite length_app. cbn. split; [lia|].
    exists message, code, details. rewrite Hex, Hv. unfold exit_of. by rewrite Hnr.
Qed.

(** C6 fails on the code at an input the client can receive: a 404 whose body
    is the JSON text [null].  [parseErrorResponse] hands out [null], reading
    [errorData.message] throws a [TypeError] inside the [try], the [catch]
    sees no [APIError] and retries.  With two retries configured the
    transport is invoked three times, each time answered 404, and the caller
    gets a [NetworkError] instead of the [APIError] of the 404. *)
Lemma not_found_with_null_body_is_retried :
  let run := request ApiScenarios.notFoundNull ApiScenarios.testConfig
               "/test-endpoint" noOptions (fresh 1000 None) in
  map (fun c => match settled c with
                | Resolved r => Some (status r)
                | Rejected _ => None
                end) (fetched run.2) = [Some 404; Some 404; Some 404] /\
  run.1 = inr (NetworkError "Network request failed after 3 attempts"
                 (Some (PlatformError "TypeError"
                          "Cannot read properties of null (reading 'message')"))).
Proof. vm_compute. split; reflexivity. Qed.

(** The same happens for a 404 whose [message] is an object that does not
    convert to a string: [new APIError(...)] throws a [TypeError] inside the
    [try], and the 404 is retried. *)
Lemma not_found_with_odd_message_is_retried :
  let run := request ApiScenarios.notFoundOdd ApiScenarios.testConfig
               "/test-endpoint" noOptions (fresh 1000 None) in
  map (fun c => match settled c with
                | Resolved r => Some (status r)
                | Rejected _ => None
                end) (fetched run.2) = [Some 404; Some 404; Some 404] /\
  run.1 = inr (NetworkError "Network request failed after 3 attempts"
                 (Some (PlatformError "TypeError"
                          "Cannot convert object to primitive value"))).
Proof. vm_compute. split; reflexivity. Qed.

End ApiClientFacts.

(** ** Properties of the event-stream client *)

Module WebSocketFacts.
Import WebSocketClient.

(** A message that lacks one of the three fields does not pass
    [isValidMessage]. *)
Lemma missing_field_invalid message :
  Js.get message "type" = None \/ Js.get message "timestamp" = None \/
  Js.get message "requestId" = None ->
  isValidMessage message = false.
Proof.
  unfold isValidMessage. intros [H|[H|H]]; rewrite H; cbn;
    rewrite ?andb_false_r; reflexivity.
Qed.

(** C7.  An inbound frame that parses to a message lacking [type],
    [timestamp] or [requestId] is dropped with a warning on the console and
    nothing else happens: the client is as it was but for that line on the
    console, so [messagesReceived] is not incremented, the cache is not
    touched and the user's message callback is not called. *)
Theorem invalid_message_is_dropped env now data message c :
  JSON_parse env data = Some message ->
  Js.get message "type" = None \/ Js.get message "timestamp" = None \/
  Js.get message "requestId" = None ->
  let c' := handleMessage env now data c in
  c' = emit (ConsoleWarn "Invalid WebSocket message received:" message) c /\
  messagesReceived (metrics c') = messagesReceived (metrics c) /\
  effects c' = effects c ++ [ConsoleWarn "Invalid WebSocket message received:" message] /\
  List.filter is_cache_action (effects c') = List.filter is_cache_action (effects c) /\
  List.filter is_user_message (effects c') = List.filter is_user_message (effects c).
Proof.
  intros Hparse Hmissing c'. subst c'.
  unfold handleMessage. rewrite Hparse, (missing_field_invalid _ Hmissing). cbn.
  repeat split; rewrite List.filter_app; cbn; by rewrite app_nil_r.
Qed.

Lemma invalid_message_is_dropped_witness :
  let c := WsScenarios.connectedClient WsScenarios.testConfig in
  let c' := handleMessage WsScenarios.platform 500 WsScenarios.invalidFrame c in
  c' = emit (ConsoleWarn "Invalid WebSocket message received:"
               WsScenarios.invalidMessage) c /\
  messagesReceived (metrics c') = messagesReceived (metrics c) /\
  effects c' = effects c ++ [ConsoleWarn "Invalid WebSocket message received:"
                               WsScenarios.invalidMessage] /\
  List.filter is_cache_action (effects c') = List.filter is_cache_action (effects c) /\
  List.filter is_user_message (effects c') = List.filter is_user_message (effects c).
Proof.
  exact (invalid_message_is_dropped WsScenarios.platform 500 WsScenarios.invalidFrame
           WsScenarios.invalidMessage
           (WsScenarios.connectedClient WsScenarios.testConfig)
           eq_refl (or_introl eq_refl)).
Defined.

(** *** The cache bridge *)

(** C9.  On a structurally valid [security_alert], with a cache handle at
    hand, the client invalidates the key [pulse, violations]; when the payload
    carries a violation identifier ([data.violationId], truthy) it then
    writes the payload under [pulse, violations, id]; nothing else is done to
    the cache, and the user's message callback, if set, comes last. *)
Theorem security_alert_bridge env now data message c qc :
  JSON_parse env data = Some message ->
  isValidMessage message = true ->
  Js.get message "type" = Some (Js.Str "security_alert") ->
  queryClient c = Some qc ->
  let c' := handleMessage env now data c in
  effects c' =
    effects c
    ++ [InvalidateQueries qc (queryKey ["pulse"; "violations"])]
    ++ match violation_of message with
       | Some (id, payload) =>
           [SetQueryData qc (queryKey ["pulse"; "violations"] ++ [id]) payload]
       | None => []
       end
    ++ (if onMessage (eventHandlers c) then [UserOnMessage message] else []).
Proof.
  intros Hparse Hvalid Htype Hqc c'. subst c'.
  unfold handleMessage. rewrite Hparse, Hvalid. cbn [negb].
  set (c1 := match Js.get message "timestamp" with
             | Some (Js.Str ts) => _
             | _ => c
             end).
  assert (Hc1 : effects c1 = effects c /\ queryClient c1 = queryClient c /\
                eventHandlers c1 = eventHandlers c).
  { subst c1. destruct (Js.get message "timestamp") as [[]|]; try by repeat split.
    destruct (Js.truthy _); by repeat split. }
  destruct Hc1 as (He1 & Hq1 & Hh1).
  unfold processMessage. cbn [queryClient with_metrics].
  rewrite Hq1, Hqc, Htype. unfold violation_of.
  destruct (Js.get message "data") as [payload|].
  - generalize (Js.get_opt (Some payload) "violationId"). intros [id|].
    + destruct (Js.truthy (Some id)); cbn; rewrite Hh1;
        destruct (onMessage (eventHandlers c)); cbn; rewrite He1;
        by rewrite <- ?app_assoc.
    + cbn. rewrite Hh1. destruct (onMessage (eventHandlers c)); cbn; rewrite He1;
        by rewrite <- ?app_assoc.
  - cbn. rewrite Hh1. destruct (onMessage (eventHandlers c)); cbn; rewrite He1;
      by rewrite <- ?app_assoc.
Qed.

Lemma security_alert_bridge_witness :
  let c := WsScenarios.connectedClient WsScenarios.testConfig in
  let c' := handleMessage WsScenarios.platform 1704067200500 WsScenarios.alertFrame c in
  effects c' =
    effects c
    ++ [InvalidateQueries 7 [Js.Str "pulse"; Js.Str "violations"]]
    ++ [SetQueryData 7 [Js.Str "pulse"; Js.Str "violations"; Js.Str "v-1"]
          WsScenarios.alertData]
    ++ [UserOnMessage WsScenarios.alertMessage].
Proof.
  exact (security_alert_bridge WsScenarios.platform 1704067200500
           WsScenarios.alertFrame WsScenarios.alertMessage
           (WsScenarios.connectedClient WsScenarios.testConfig) 7%nat
           eq_refl eq_refl eq_refl eq_refl).
Defined.

(** *** connect *)

(** C10.  [connect], called on a client that holds a socket and is
    connected, fulfils the promise at once and changes nothing: no socket is
    made, and state, metrics, reconnect counter, queue and cache handle are
    as before. *)
Theorem connect_when_connected env config qc now c sock :
  ws c = Some sock -> state c = connected ->
  connect env config qc now c = (Fulfilled, c).
Proof. unfold connect. by intros -> ->. Qed.

Lemma connect_when_connected_witness :
  let c := WsScenarios.connectedClient WsScenarios.testConfig in
  connect WsScenarios.platform WsScenarios.testConfig None 99 c = (Fulfilled, c).
Proof.
  exact (connect_when_connected WsScenarios.platform WsScenarios.testConfig None 99
           (WsScenarios.connectedClient WsScenarios.testConfig) 0%nat
           eq_refl eq_refl).
Defined.

(** *** Reconnection *)

Lemma closed_spec reason c :
  state (closed reason c) = disconnected /\
  attempts (closed reason c) = attempts c /\
  timers (closed reason c) = timers (stopHeartbeat c) /\
  nextTimer (closed reason c) = nextTimer c.
Proof.
  unfold closed, stopHeartbeat. cbn.
  destruct (heartbeatTimer c); cbn; destruct (onDisconnect (eventHandlers c));
    repeat split.
Qed.

(** [attemptReconnect], called in a state other than [reconnecting], sets
    exactly one timer, with the delay of the attempt it counts. *)
Lemma attemptReconnect_spec config c :
  state c <> reconnecting ->
  let c' := attemptReconnect config c in
  state c' = reconnecting /\ attempts c' = S (attempts c) /\
  timers c' = timers c ++
    [(nextTimer c,
      ReconnectTimer (reconnectDelay config * 2 ^ Z.of_nat (Nat.min (attempts c) 5)))] /\
  nextTimer c' = S (nextTimer c) /\ reconnectTimer c' = Some (nextTimer c).
Proof.
  intros Hst. unfold attemptReconnect.
  replace (state_eqb (state c) reconnecting) with false
    by (destruct (state c); (reflexivity || congruence)).
  cbn. destruct (onReconnect (eventHandlers c)); cbn; unfold backoff; cbn;
    rewrite ?Nat.sub_0_r; repeat split.
Qed.

Lemma handleClose_closed config code reason c :
  handleClose config code reason c =
  if negb (code =? 1000) &&
     (Z.of_nat (attempts (closed reason c)) <? reconnectAttempts config)
  then attemptReconnect config (closed reason c)
  else closed reason c.
Proof. reflexivity. Qed.

(** What a close event and a rejected reconnection do, case by case.  A
    close with code 1000 schedules nothing.  A close with another code,
    while the reconnect counter is below the configured maximum, schedules
    exactly one reconnect timer, with delay [reconnectDelay * 2^min(k-1, 5)]
    for the attempt [k] it counts, and leaves the client Reconnecting; once
    the counter has reached the maximum it schedules nothing and leaves the
    client Disconnected.  The rejection of the connection attempt of a
    reconnect timer makes the client Failed when the counter has reached the
    maximum, and schedules one more reconnect timer below it. *)
Lemma handleClose_cases config :
  (forall reason c,
     let c' := handleClose config 1000 reason c in
     state c' = disconnected /\ attempts c' = attempts c /\
     timers c' = timers (stopHeartbeat c) /\ nextTimer c' = nextTimer c) /\
  (forall code reason c,
     code <> 1000 -> Z.of_nat (attempts c) < reconnectAttempts config ->
     let c' := handleClose config code reason c in
     state c' = reconnecting /\ attempts c' = S (attempts c) /\
     timers c' = timers (stopHeartbeat c) ++
       [(nextTimer c,
         ReconnectTimer (reconnectDelay config * 2 ^ Z.of_nat (Nat.min (attempts c) 5)))] /\
     nextTimer c' = S (nextTimer c) /\ reconnectTimer c' = Some (nextTimer c)) /\
  (forall code reason c,
     code <> 1000 -> reconnectAttempts config <= Z.of_nat (attempts c) ->
     let c' := handleClose config code reason c in
     state c' = disconnected /\ attempts c' = attempts c /\
     timers c' = timers (stopHeartbeat c) /\ nextTimer c' = nextTimer c) /\
  (forall c,
     reconnectAttempts config <= Z.of_nat (attempts c) ->
     let c' := reconnectFailed config c in
     state c' = failed /\ attempts c' = attempts c /\
     timers c' = timers c /\ nextTimer c' = nextTimer c) /\
  (forall c,
     Z.of_nat (attempts c) < reconnectAttempts config -> state c <> reconnecting ->
     let c' := reconnectFailed config c in
     state c' = reconnecting /\ attempts c' = S (attempts c) /\
     timers c' = timers c ++
       [(nextTimer c,
         ReconnectTimer (reconnectDelay config * 2 ^ Z.of_nat (Nat.min (attempts c) 5)))] /\
     nextTimer c' = S (nextTimer c)).
Proof.
  repeat apply conj.
  - intros reason c. cbn zeta. rewrite handleClose_closed. cbn [Z.eqb negb andb].
    destruct (closed_spec reason c) as (? & ? & ? & ?). by repeat split.
  - intros code reason c Hcode Hlt. cbn zeta. rewrite handleClose_closed.
    destruct (closed_spec reason c) as (Hst & Hat & Htm & Hnx).
    rewrite Hat.
    replace (code =? 1000) with false by (symmetry; by apply Z.eqb_neq).
    replace (Z.of_nat (attempts c) <? reconnectAttempts config) with true
      by (symmetry; by apply Z.ltb_lt).
    cbn [negb andb].
    destruct (attemptReconnect_spec config (closed reason c))
      as (? & ? & ? & ? & ?); [congruence|].
    repeat split; congruence.
  - intros code reason c Hcode Hge. cbn zeta. rewrite handleClose_closed.
    destruct (closed_spec reason c) as (Hst & Hat & Htm & Hnx).
    rewrite Hat.
    replace (Z.of_nat (attempts c) <? reconnectAttempts config) with false
      by (symmetry; by apply Z.ltb_ge).
    rewrite andb_false_r. by repeat split.
  - intros c Hge. unfold reconnectFailed. cbn.
    replace (Z.of_nat (attempts c) >=? reconnectAttempts config) with true
      by (symmetry; apply Z.geb_le; lia).
    by repeat split.
  - intros c Hlt Hst. unfold reconnectFailed. cbn zeta.
    cbn [attempts emit with_effects].
    replace (Z.of_nat (attempts c) >=? reconnectAttempts config) with false
      by (symmetry; rewrite Z.geb_leb; apply Z.leb_gt; lia).
    destruct (attemptReconnect_spec config
                (emit (ConsoleError "WebSocket reconnection failed:") c))
      as (? & ? & ? & ? & ?); [exact Hst|].
    by repeat split.
Qed.

(** C8 fails on the code at the maximum.  The [catch] of the reconnect timer
    sets the state [failed] and logs that the attempts are exhausted, but the
    state does not last and is not always reached.  With a maximum of 0 the
    first unclean close of a connected client leaves it Disconnected, with
    no reconnect timer: it never is Failed.  With a maximum of 1: the socket
    closes with 1006, the reconnect timer fires, the new socket errors, the
    rejection finds the counter at the maximum and the client is Failed; the
    close event of that socket, which follows the error, then makes it
    Disconnected.  With the maximum of the test-suite, 3, and every new
    socket failing with an error and then a close: the rejection and the
    close of the first reconnection each schedule a reconnect timer, so that
    the client is Failed, on the rejection of the second, while the third
    timer is still pending; the close makes it Disconnected, and when that
    timer fires the client connects once more. *)
Lemma close_at_maximum_is_not_failed :
  (let c := onclose (WsScenarios.withMaximum 0) 0 1006 "Connection lost"
              (WsScenarios.connectedClient (WsScenarios.withMaximum 0)) in
   state c = disconnected /\ state c <> failed /\
   List.filter is_reconnect (timers c) = []) /\
  (let config := WsScenarios.withMaximum 1 in
   let c1 := onclose config 0 1006 "Connection lost" (WsScenarios.connectedClient config) in
   let c2 := (reconnectTimerFired WsScenarios.platform config 3 200 c1).2 in
   let c3 := (onerror c2).2 in
   let c4 := reconnectFailed config c3 in
   let c5 := onclose config 1 1006 "Connection failed" c4 in
   state c1 = reconnecting /\ (onerror c2).1 = true /\
   state c4 = failed /\ state c5 = disconnected /\
   List.filter is_reconnect (timers c5) = []) /\
  (let config := WsScenarios.testConfig in
   let c1 := onclose config 0 1006 "Connection lost" (WsScenarios.connectedClient config) in
   let c2 := (reconnectTimerFired WsScenarios.platform config 3 200 c1).2 in
   let c3 := reconnectFailed config (onerror c2).2 in
   let c4 := onclose config 1 1006 "Connection failed" c3 in
   let c5 := (reconnectTimerFired WsScenarios.platform config 5 500 c4).2 in
   let c6 := reconnectFailed config (onerror c5).2 in
   let c7 := onclose config 2 1006 "Connection failed" c6 in
   let c8 := (reconnectTimerFired WsScenarios.platform config 6 900 c7).2 in
   List.filter is_reconnect (timers c1) = [(3%nat, ReconnectTimer 100)] /\
   List.filter is_reconnect (timers c4)
   = [(5%nat, ReconnectTimer 200); (6%nat, ReconnectTimer 400)] /\
   (onerror c5).1 = true /\
   state c6 = failed /\
   List.filter is_reconnect (timers c6) = [(6%nat, ReconnectTimer 400)] /\
   state c7 = disconnected /\
   state c8 = connecting /\ length (sockets c8) = 4%nat).
Proof. vm_compute. repeat split; discriminate. Qed.

End WebSocketFacts.

(** ** Further properties of the request client *)

Module ApiHelpersFacts.
Import ApiClient ApiHelpers ApiClientFacts.

#[local] Arguments advance : simpl never.
#[local] Arguments sleep : simpl never.
#[local] Arguments fetch : simpl never.
#[local] Arguments transport : simpl never.
#[local] Arguments readBody : simpl never.
#[local] Arguments cancelAllRequests : simpl never.
#[local] Arguments fire_timers : simpl never.
#[local] Arguments same_name : simpl never.
#[local] Arguments normalize : simpl never.
#[local] Arguments is_header_name : simpl never.
#[local] Arguments is_header_value : simpl never.
#[local] Arguments timer_delay : simpl never.

(** *** What a call adds to the transport log *)

Lemma calls_of_spec env config endpoint options w :
  fetched (request env config endpoint options w).2
  = fetched w ++ calls_of env config endpoint options w.
Proof.
  unfold calls_of, new_calls.
  destruct (request_log env config endpoint options w) as (calls & -> & _).
  by rewrite drop_app_length.
Qed.

Lemma locals_of_spec env config endpoint options w :
  let L := locals_of env config endpoint options w in
  requestId L = (generateRequestId env w).1 /\
  timeout L = timeout_of config options /\
  retryAttempts L = retryAttempts_of config options /\
  abortController L = length (signals w).
Proof.
  unfold locals_of.
  destruct (prologue env config endpoint options w) as [[L timeoutId] w0] eqn:Hp.
  apply prologue_spec in Hp as (? & ? & ? & _ & _ & ? & _). cbn. auto.
Qed.

(** Where a call goes, with which verb and which body: as the options say,
    whether the set-up of the headers throws or not. *)
Lemma locals_of_request env config endpoint options w :
  let L := locals_of env config endpoint options w in
  url L = baseURL config +:+ endpoint /\
  method L = opt_method options /\ reqBody L = opt_body options.
Proof.
  unfold locals_of, prologue.
  destruct (generateRequestId env w) as [rid w1].
  cbn [newAbortController setTimeout fst snd].
  match goal with
  | |- context [prepare env options rid ?tr ?w2] =>
      destruct (prepare env options rid tr w2) as [p w3]
  end.
  by repeat split.
Qed.

(** What the set-up of a call throws is an error of the platform. *)
Lemma thrown_platform env config endpoint options w e :
  thrown (locals_of env config endpoint options w) = Some e ->
  exists name text, e = PlatformError name text.
Proof.
  intros Hth. pose proof (prologue_thrown env config endpoint options w) as H.
  unfold locals_of in Hth. rewrite Hth in H.
  destruct H as [[_ ->]|[(_ & name & text & _ & ->)|(_ & token & _ & _ & ->)]];
    unfold invalidHeader, typeError; eauto.
Qed.

Section Loop.

Variable env : Env.
Variable config : APIConfig.
Variable L : Locals.

Lemma transport_plain c w s w' : transport env c w = (s, w') -> plain s.
Proof.
  unfold transport. intros H.
  assert (Hs : forall x, plain (settle x)).
  { intros x. unfold settle. destruct (outcome x); cbn; unfold typeError; eauto. }
  destruct (aborted c w); [|destruct (abort_due c w) as [a|]; [destruct (a <=? _)|]];
    injection H as <- <-; auto; cbn; unfold abortError; eauto.
Qed.

(** What holds of the state at the start of the loop and is kept by an
    attempt and by a sleep holds when the loop is left. *)
Lemma retry_loop_preserves (P : World -> Prop) :
  (forall retryCount w r w', P w -> attempt_body env L retryCount w = (r, w') -> P w') ->
  (forall ms w, P w -> P (sleep ms w)) ->
  forall n attempt lastError retryCount w exit w',
    P w -> retry_loop env config L n attempt lastError retryCount w = (exit, w') -> P w'.
Proof.
  intros Hbody Hsleep.
  induction n as [|n IH]; intros attempt lastError retryCount w exit w' HP H.
  - by injection H as <- <-.
  - cbn [retry_loop] in H.
    destruct (attempt_body env L retryCount w) as [r w1] eqn:Hb.
    apply Hbody in Hb; [|exact HP].
    destruct r as [data|error]; [by injection H as <- <-|].
    destruct (no_retry_status error); [by injection H as <- <-|].
    destruct (is_abort error); [by injection H as <- <-|].
    eapply IH; [|exact H].
    destruct (attempt <? retryAttempts L); [by apply Hsleep|exact Hb].
Qed.

(** The line an attempt leaves in the log: the transport call ended with a
    response or with an error of the platform, and a response whose body was
    not read to its end is logged without a body. *)
Lemma attempt_body_call retryCount w r w' c :
  attempt_body env L retryCount w = (r, w') ->
  fetched w' = fetched w ++ [c] ->
  plain (settled c) /\
  (bodyCut c = true -> exists resp, settled c = Resolved resp /\ body resp = None).
Proof.
  intros H Hfe.
  pose proof (attempt_body_spec env L _ _ _ _ H)
    as (c0 & Hfe0 & _ & _ & _ & _ & _ & _ & Hcut).
  assert (c0 = c) as ->
    by (rewrite Hfe0 in Hfe; by apply app_inj_tail in Hfe as [_ ?]).
  split; [|exact Hcut].
  unfold attempt_body, fetch in H.
  destruct (transport env _ w) as [s w1] eqn:Ht.
  pose proof (transport_plain _ _ _ _ Ht) as Hpl.
  destruct s as [resp|e].
  - destruct (readBody _ _ _) as [whole w3]. injection H as _ <-.
    unfold logged in Hfe0. cbn [fetched with_fetched] in Hfe0.
    by apply app_inj_tail in Hfe0 as [_ <-].
  - injection H as _ <-.
    unfold logged in Hfe0. cbn [fetched with_fetched] in Hfe0.
    by apply app_inj_tail in Hfe0 as [_ <-].
Qed.

Lemma attempt_body_plain k retryCount w r w' :
  (k <= length (fetched w))%nat /\
  Forall (fun c => plain (settled c) /\
                   (bodyCut c = true ->
                    exists resp, settled c = Resolved resp /\ body resp = None))
    (drop k (fetched w)) ->
  attempt_body env L retryCount w = (r, w') ->
  (k <= length (fetched w'))%nat /\
  Forall (fun c => plain (settled c) /\
                   (bodyCut c = true ->
                    exists resp, settled c = Resolved resp /\ body resp = None))
    (drop k (fetched w')).
Proof.
  intros [Hk Hall] H.
  pose proof (attempt_body_spec env L _ _ _ _ H) as (c & Hfe & _).
  pose proof (attempt_body_call _ _ _ _ _ H Hfe) as Hc.
  rewrite Hfe, length_app, drop_app_le by lia. split; [lia|].
  apply Forall_app. split; [exact Hall|]. by constructor.
Qed.

(** The error of a verdict is the [APIError] the [try] body made, with the id
    of the call, or what the platform threw. *)
Lemma verdict_kinds c e :
  plain (settled c) -> verdict_of L c = inr e ->
  (exists message st code details,
     e = APIError message st code (Some (requestId L)) details) \/
  (exists name message, e = PlatformError name message).
Proof.
  unfold verdict_of. destruct (settled c) as [r|e0].
  - intros _. unfold decode, typeError, abortError.
    destruct (negb (ok r)).
    + destruct (parseErrorResponse r);
        try (intros [= <-]; eauto 10; fail);
        match goal with
        | |- context [Js.toString ?v] => destruct (Js.toString v)
        end; intros [= <-]; eauto 10.
    + destruct (bodyCut c); [intros [= <-]; eauto|].
      destruct (body r) as [data|]; [|intros [= <-]; eauto].
      destruct (negb (isValidAPIResponse data)); intros [= <-]; eauto 10.
  - intros Hpl [= <-]. by right.
Qed.

(** The verdict of an attempt is the verdict on the way its transport call
    ended, unless the abort came while the body of a 2xx answer was read:
    the attempt then ends as aborted. *)
Lemma verdict_of_settled c :
  verdict_of L c = verdict L (settled c) \/ verdict_of L c = inr abortError.
Proof.
  unfold verdict_of, verdict. destruct (settled c) as [r|e]; [|by left].
  unfold decode. destruct (negb (ok r)); [by left|].
  destruct (bodyCut c); [by right|by left].
Qed.

Lemma going_on_settled c :
  stops (verdict_of L c) = false -> verdict_of L c = verdict L (settled c).
Proof.
  intros Hgo. destruct (verdict_of_settled c) as [H|H]; [exact H|].
  rewrite H in Hgo. discriminate.
Qed.

Lemma whole_settled c :
  bodyCut c = false -> verdict_of L c = verdict L (settled c).
Proof. unfold verdict_of, verdict. by intros ->. Qed.

Lemma conclude_api message st code rid details :
  conclude L (exit_of L (inr (APIError message st code rid details)))
  = inr (APIError message st code rid details).
Proof.
  unfold exit_of. destruct (no_retry_status _); [reflexivity|].
  unfold is_abort. cbn. reflexivity.
Qed.

Lemma conclude_platform name message :
  conclude L (exit_of L (inr (PlatformError name message)))
  = if is_abort (PlatformError name message) then inr (timeoutError (timeout L))
    else inr (NetworkError ("Network request failed after "
                            +:+ pretty (retryAttempts L + 1) +:+ " attempts")
                (Some (PlatformError name message))).
Proof.
  unfold exit_of. cbn [no_retry_status].
  destruct (is_abort _); reflexivity.
Qed.

End Loop.

Lemma request_plain env config endpoint options w :
  Forall (fun c => plain (settled c) /\
                   (bodyCut c = true ->
                    exists resp, settled c = Resolved resp /\ body resp = None))
    (calls_of env config endpoint options w).
Proof.
  unfold calls_of, new_calls.
  destruct (request_spec env config endpoint options w)
    as (L & timeoutId & w0 & Hp & Hr).
  apply prologue_spec in Hp as (_ & _ & _ & _ & _ & _ & _ & _ & Hfe & _).
  destruct (thrown L) as [e|].
  { rewrite Hr. cbn [snd].
    change (fetched (epilogue L timeoutId w0)) with (fetched w0).
    by rewrite Hfe, drop_all. }
  destruct Hr as (exit & w1 & Hl & ->). cbn [snd].
  change (fetched (epilogue L timeoutId w1)) with (fetched w1). rewrite <- Hfe.
  eapply (retry_loop_preserves env config L
            (fun w' => (length (fetched w0) <= length (fetched w'))%nat /\
                       Forall (fun c => plain (settled c) /\
                                 (bodyCut c = true ->
                                  exists resp, settled c = Resolved resp /\
                                               body resp = None))
                         (drop (length (fetched w0)) (fetched w')))) in Hl.
  - exact (proj2 Hl).
  - intros. by eapply attempt_body_plain.
  - intros ms w2. by rewrite sleep_fetched.
  - split; [lia|]. by rewrite drop_all.
Qed.

(** The whole call in terms of the verdicts of its attempts. *)
Lemma request_verdicts env config endpoint options w :
  let L := locals_of env config endpoint options w in
  let run := request env config endpoint options w in
  let calls := calls_of env config endpoint options w in
  (exists e, thrown L = Some e /\ calls = [] /\ run.1 = inr e) \/
  (thrown L = None /\ calls = [] /\ retryAttempts L + 1 <= 0 /\
   run.1 = conclude L (Fell None)) \/
  (thrown L = None /\
   exists front c,
     calls = front ++ [c] /\
     Forall (fun c => stops (verdict_of L c) = false) front /\
     run.1 = conclude L (exit_of L (verdict_of L c)) /\
     (stops (verdict_of L c) = true \/
      length calls = Z.to_nat (retryAttempts L + 1))).
Proof.
  unfold calls_of, new_calls, locals_of.
  destruct (request_spec env config endpoint options w)
    as (L & timeoutId & w0 & Hp & Hr).
  rewrite Hp. cbn [fst].
  apply prologue_spec in Hp as (_ & _ & _ & _ & _ & _ & _ & _ & Hfe & _).
  destruct (thrown L) as [e|].
  { left. exists e. rewrite Hr. cbn [fst snd].
    change (fetched (epilogue L timeoutId w0)) with (fetched w0).
    by rewrite Hfe, drop_all. }
  right. destruct Hr as (exit & w1 & Hl & ->). cbn [fst snd].
  change (fetched (epilogue L timeoutId w1)) with (fetched w1).
  apply retry_loop_verdicts in Hl as (calls & Hfe' & Hcases).
  rewrite Hfe', Hfe, drop_app_length.
  destruct Hcases as [(Hn & -> & ->)|(front & c & -> & Hall & -> & Hlast)].
  - left. repeat split; auto. lia.
  - right. split; [reflexivity|]. exists front, c. repeat split; auto.
Qed.

(** An attempt on whose verdict the loop stops is the last of its call, and
    decides what the caller gets. *)
Lemma stopping_call_is_last env config endpoint options w i c :
  let L := locals_of env config endpoint options w in
  calls_of env config endpoint options w !! i = Some c ->
  stops (verdict_of L c) = true ->
  S i = length (calls_of env config endpoint options w) /\
  (request env config endpoint options w).1
  = conclude L (exit_of L (verdict_of L c)).
Proof.
  intros L Hi Hs.
  destruct (request_verdicts env config endpoint options w)
    as [(e & _ & Hnil & _)|[(_ & Hnil & _)|(_ & front & c' & Hcalls & Hall & Hrun & _)]].
  - rewrite Hnil in Hi. discriminate.
  - rewrite Hnil in Hi. discriminate.
  - fold L in Hall, Hrun. rewrite Hcalls in Hi |- *.
    destruct (decide (i < length front)%nat) as [Hlt|Hge].
    + rewrite lookup_app_l in Hi by assumption.
      eapply Forall_lookup_1 in Hall; [|exact Hi]. cbn in Hall. congruence.
    + rewrite lookup_app_r in Hi by lia.
      destruct (i - length front)%nat as [|k] eqn:Hk; [|discriminate].
      injection Hi as ->. rewrite length_app. cbn. split; [lia|exact Hrun].
Qed.

Section Conclude.

Variable L : Locals.

Lemma conclude_inr e : exists e', conclude L (exit_of L (inr e)) = inr e'.
Proof.
  unfold exit_of.
  destruct (no_retry_status e); [|destruct (is_abort e)]; cbn; eauto;
    destruct e; eauto.
Qed.

Lemma retryable_goes_on c :
  plain (settled c) -> retryable c -> stops (verdict_of L c) = false.
Proof.
  unfold retryable, plain, verdict_of.
  destruct (settled c) as [r|e]; cbn.
  - intros _ [Hok Hst]. unfold decode. rewrite Hok. cbn [negb].
    assert (Hno : (status r =? 401) || (status r =? 403) || (status r =? 404) = false).
    { unfold no_retry in Hst.
      destruct (status r =? 401) eqn:H1; [lia|].
      destruct (status r =? 403) eqn:H2; [lia|].
      destruct (status r =? 404) eqn:H3; [lia|reflexivity]. }
    destruct (parseErrorResponse r); try reflexivity;
      match goal with
      | |- context [Js.toString ?v] => destruct (Js.toString v)
      end; cbn; by rewrite ?Hno.
  - intros (name & message & ->) Hab. cbn. exact Hab.
Qed.

End Conclude.

(** *** How a call ends *)

(** A call of [request] that got past the set-up of its headers and rejects
    does so with one of the client's three errors.  An [APIError] carries
    the correlation id of the call, the [NetworkError] message counts
    [retryAttempts + 1] attempts, the [TimeoutError] is the one of the
    call's budget; what the platform throws inside the loop (a [TypeError],
    a [SyntaxError], an [AbortError]) does not reach the caller as it is.
    The set-up itself (lines 124 to 143) runs inside the outer [try], which
    has a [finally] and no [catch]: what [new Headers], [headers.set] or
    [localStorage.getItem] throw there reaches the caller as it is, before
    any transport call.  That happens exactly when the caller's headers hold
    a name or a value that [Headers] refuses, when reading the token throws,
    or when the token makes a header value that [Headers] refuses. *)
Theorem request_rejects_with_own_errors env config endpoint options w e :
  (request env config endpoint options w).1 = inr e ->
  let L := locals_of env config endpoint options w in
  (thrown L = None <->
   well_formed (opt_headers options) = true /\
   exists token, getAuthToken env = inl token /\
     forall t, token = Some t ->
       is_header_value (normalize ("Bearer " +:+ t)) = true) /\
  match thrown L with
  | None =>
      (exists message st code details,
         e = APIError message st code (Some (generateRequestId env w).1) details) \/
      (exists cause,
         e = NetworkError ("Network request failed after "
                           +:+ pretty (retryAttempts_of config options + 1)
                           +:+ " attempts") cause) \/
      e = timeoutError (timeout_of config options)
  | Some e' =>
      e = e' /\ calls_of env config endpoint options w = [] /\
      ((well_formed (opt_headers options) = false /\ e = invalidHeader) \/
       (well_formed (opt_headers options) = true /\
        exists name text, storageError env = Some (name, text) /\
                          e = PlatformError name text) \/
       (well_formed (opt_headers options) = true /\
        exists token, getAuthToken env = inl (Some token) /\
                      is_header_value (normalize ("Bearer " +:+ token)) = false /\
                      e = invalidHeader))
  end.
Proof.
  intros He L.
  destruct (locals_of_spec env config endpoint options w) as (Hid & Hto & Hra & _).
  fold L in Hid, Hto, Hra.
  pose proof (request_plain env config endpoint options w) as Hpl.
  pose proof (prologue_thrown env config endpoint options w) as Hth.
  fold (locals_of env config endpoint options w) in Hth. fold L in Hth.
  split.
  { destruct (thrown L) as [e'|]; [|by split].
    split; [discriminate|]. intros (Hwf & token & Htok & Hval). exfalso.
    destruct Hth as [[Hno _]|[(_ & name & text & Hst & _)|(_ & t & Ht & Hbad & _)]].
    - congruence.
    - unfold getAuthToken in Htok. rewrite Hst in Htok. discriminate.
    - rewrite Ht in Htok. injection Htok as <-.
      rewrite (Hval t eq_refl) in Hbad. discriminate. }
  destruct (request_verdicts env config endpoint options w)
    as [(e' & Hthrown & Hnil & Hrun)
       |[(Hthrown & _ & _ & Hrun)|(Hthrown & front & c & Hcalls & _ & Hrun & _)]];
    fold L in Hthrown, Hrun; rewrite Hthrown in Hth |- *; rewrite He in Hrun.
  - injection Hrun as ->. by repeat split.
  - cbn in Hrun. injection Hrun as ->. right; left. rewrite <- Hra. eauto.
  - rewrite Hcalls in Hpl. apply Forall_app in Hpl as [_ Hc].
    rewrite Forall_singleton in Hc. destruct Hc as [Hc _].
    destruct (verdict_of L c) as [data|e0] eqn:Hv; [discriminate|].
    apply verdict_kinds in Hv as [(message & st & code & details & ->)
                                 |(name & message & ->)]; [| |exact Hc].
    + rewrite conclude_api in Hrun. injection Hrun as ->.
      left. rewrite <- Hid. eauto.
    + rewrite conclude_platform in Hrun.
      destruct (is_abort _); injection Hrun as ->.
      * right; right. by rewrite <- Hto.
      * right; left. rewrite <- Hra. eauto.
Qed.

Lemma request_rejects_with_own_errors_witness :
  let env := always500 in
  let config := ApiScenarios.testConfig in
  let w := fresh 1000 None in
  let run := request env config "/test-endpoint" noOptions w in
  let e := APIError "Server error" 500 (Js.Str "SERVER_ERROR")
             (Some "req_1000_k3j9x0q2a") None in
  run.1 = inr e /\
  let L := locals_of env config "/test-endpoint" noOptions w in
  (thrown L = None <->
   well_formed (opt_headers noOptions) = true /\
   exists token, getAuthToken env = inl token /\
     forall t, token = Some t ->
       is_header_value (normalize ("Bearer " +:+ t)) = true) /\
  match thrown L with
  | None =>
      (exists message st code details,
         e = APIError message st code (Some (generateRequestId env w).1) details) \/
      (exists cause,
         e = NetworkError ("Network request failed after "
                           +:+ pretty (retryAttempts_of config noOptions + 1)
                           +:+ " attempts") cause) \/
      e = timeoutError (timeout_of config noOptions)
  | Some e' =>
      e = e' /\ calls_of env config "/test-endpoint" noOptions w = [] /\
      ((well_formed (opt_headers noOptions) = false /\ e = invalidHeader) \/
       (well_formed (opt_headers noOptions) = true /\
        exists name text, storageError env = Some (name, text) /\
                          e = PlatformError name text) \/
       (well_formed (opt_headers noOptions) = true /\
        exists token, getAuthToken env = inl (Some token) /\
                      is_header_value (normalize ("Bearer " +:+ token)) = false /\
                      e = invalidHeader))
  end.
Proof.
  split; [vm_compute; reflexivity|].
  exact (request_rejects_with_own_errors always500 ApiScenarios.testConfig
           "/test-endpoint" noOptions (fresh 1000 None) _
           ltac:(vm_compute; reflexivity)).
Defined.

(** What the set-up throws, on three inputs: a header name with a space in
    it, a platform without [localStorage], a stored token with a line break
    in it.  Each time the caller gets the error of the platform, at once and
    without a transport call; the [finally] block has cleared the timer and
    the registry. *)
Lemma set_up_errors_reach_the_caller :
  let outcome run :=
    (run.1, clock run.2, length (fetched run.2), timers run.2,
     abortControllers run.2) in
  outcome (request always500 ApiScenarios.testConfig "/test-endpoint"
             badHeaderOptions (fresh 0 None))
  = (inr (PlatformError "TypeError" "Invalid header name or value"),
     0, 0%nat, [None], ∅) /\
  outcome (request noStorage ApiScenarios.testConfig "/test-endpoint"
             noOptions (fresh 0 None))
  = (inr (PlatformError "ReferenceError" "localStorage is not defined"),
     0, 0%nat, [None], ∅) /\
  outcome (request brokenToken ApiScenarios.testConfig "/test-endpoint"
             noOptions (fresh 0 None))
  = (inr (PlatformError "TypeError" "Invalid header name or value"),
     0, 0%nat, [None], ∅).
Proof. vm_compute. by repeat split. Qed.

(** A call of [request] that fulfils hands out the body of its last transport
    call, which was answered with a status from 200 to 299 and passed
    [isValidAPIResponse]: nothing unvalidated is ever returned. *)
Theorem fulfilled_request_is_validated env config endpoint options w data :
  (request env config endpoint options w).1 = inl data ->
  isValidAPIResponse data = true /\
  exists c r,
    last (calls_of env config endpoint options w) = Some c /\
    settled c = Resolved r /\ ok r = true /\ body r = Some data.
Proof.
  intros He.
  destruct (request_verdicts env config endpoint options w)
    as [(e & _ & _ & Hrun)
       |[(_ & _ & _ & Hrun)|(_ & front & c & Hcalls & _ & Hrun & _)]];
    rewrite He in Hrun; [discriminate|discriminate|].
  rewrite Hcalls, last_snoc.
  destruct (verdict_of _ c) as [data'|e0] eqn:Hv.
  - cbn in Hrun. injection Hrun as <-. unfold verdict_of in Hv.
    destruct (settled c) as [r|e0] eqn:Hc; [|discriminate].
    unfold decode in Hv.
    destruct (ok r) eqn:Hok; cbn [negb] in Hv.
    2:{ destruct (parseErrorResponse r); try discriminate;
          match type of Hv with
          | context [Js.toString ?v] => destruct (Js.toString v)
          end; discriminate. }
    destruct (bodyCut c); [discriminate|].
    destruct (body r) as [data'|] eqn:Hbody; [|discriminate].
    destruct (isValidAPIResponse data') eqn:Hval; cbn in Hv; [|discriminate].
    injection Hv as ->. split; [exact Hval|]. by exists c, r.
  - destruct (conclude_inr (locals_of env config endpoint options w) e0) as [e' He'].
    rewrite He' in Hrun. discriminate.
Qed.

Lemma fulfilled_request_is_validated_witness :
  let run := request ApiScenarios.twice500 ApiScenarios.testConfig "/test-endpoint"
               noOptions (fresh 1000 None) in
  run.1 = inl ApiScenarios.okBody /\
  isValidAPIResponse ApiScenarios.okBody = true /\
  exists c r,
    last (calls_of ApiScenarios.twice500 ApiScenarios.testConfig "/test-endpoint"
            noOptions (fresh 1000 None)) = Some c /\
    settled c = Resolved r /\ ok r = true /\ body r = Some ApiScenarios.okBody.
Proof.
  split; [vm_compute; reflexivity|].
  exact (fulfilled_request_is_validated ApiScenarios.twice500 ApiScenarios.testConfig
           "/test-endpoint" noOptions (fresh 1000 None) _
           ltac:(vm_compute; reflexivity)).
Defined.

(** A [NetworkError] means that the attempts were used up: with
    [retryAttempts >= 0] the transport was called exactly [retryAttempts + 1]
    times, as the message says, no attempt ended the loop, and the error
    wrapped is the one the last attempt threw, an error of the platform and
    not an [APIError]. *)
Theorem network_error_after_all_attempts env config endpoint options w message cause :
  0 <= retryAttempts_of config options ->
  (request env config endpoint options w).1 = inr (NetworkError message cause) ->
  let L := locals_of env config endpoint options w in
  let calls := calls_of env config endpoint options w in
  Z.of_nat (length calls) = retryAttempts_of config options + 1 /\
  Forall (fun c => stops (verdict L (settled c)) = false) calls /\
  exists c name text,
    last calls = Some c /\
    verdict L (settled c) = inr (PlatformError name text) /\
    cause = Some (PlatformError name text).
Proof.
  intros Hpos He L calls. subst calls.
  destruct (locals_of_spec env config endpoint options w) as (_ & _ & Hra & _).
  fold L in Hra.
  pose proof (request_plain env config endpoint options w) as Hpl.
  destruct (request_verdicts env config endpoint options w)
    as [(e & Hthrown & _ & Hrun)
       |[(_ & _ & Hneg & _)|(_ & front & c & Hcalls & Hall & Hrun & Hlast)]].
  { apply thrown_platform in Hthrown as (name & text & ->).
    rewrite He in Hrun. discriminate. }
  { fold L in Hneg. lia. }
  fold L in Hall, Hrun, Hlast.
  rewrite He in Hrun. rewrite Hcalls in Hpl, Hlast |- *.
  apply Forall_app in Hpl as [_ Hc]. rewrite Forall_singleton in Hc.
  destruct Hc as [Hc _].
  destruct (verdict_of L c) as [data|e0] eqn:Hv; [discriminate|].
  pose proof Hv as Hv'.
  apply verdict_kinds in Hv' as [(m' & st & code & details & ->)
                                |(name & text & ->)]; [| |exact Hc].
  { rewrite conclude_api in Hrun. discriminate. }
  rewrite conclude_platform in Hrun.
  destruct (is_abort (PlatformError name text)) eqn:Hab; [discriminate|].
  injection Hrun as -> ->.
  assert (Hgo : stops (verdict_of L c) = false) by (rewrite Hv; cbn; exact Hab).
  destruct Hlast as [Hstop|Hlen]; [congruence|].
  split; [rewrite Hlen; lia|]. split.
  - apply Forall_app. split.
    + eapply Forall_impl; [exact Hall|]. intros c0 Hc0. cbn in Hc0.
      by rewrite <- going_on_settled.
    + apply Forall_singleton. by rewrite <- going_on_settled.
  - exists c, name, text. rewrite last_snoc, <- going_on_settled by exact Hgo.
    by repeat split.
Qed.

Lemma network_error_after_all_attempts_witness :
  let env := ApiScenarios.notFoundNull in
  let config := ApiScenarios.testConfig in
  let L := locals_of env config "/test-endpoint" noOptions (fresh 1000 None) in
  let calls := calls_of env config "/test-endpoint" noOptions (fresh 1000 None) in
  Z.of_nat (length calls) = 2 + 1 /\
  Forall (fun c => stops (verdict L (settled c)) = false) calls /\
  exists c name text,
    last calls = Some c /\
    verdict L (settled c) = inr (PlatformError name text) /\
    Some (PlatformError "TypeError" "Cannot read properties of null (reading 'message')")
    = Some (PlatformError name text).
Proof.
  exact (network_error_after_all_attempts ApiScenarios.notFoundNull
           ApiScenarios.testConfig "/test-endpoint" noOptions (fresh 1000 None) _ _
           ltac:(vm_compute; discriminate) ltac:(vm_compute; reflexivity)).
Defined.

(** *** Which attempt is the last *)

(** Timeouts are not retried: an attempt whose transport call is rejected as
    aborted is the last of its call, whatever is left of [retryAttempts], and
    the caller gets the [TimeoutError]. *)
Theorem aborted_attempt_is_not_retried env config endpoint options w i c :
  calls_of env config endpoint options w !! i = Some c ->
  settled c = Rejected abortError ->
  S i = length (calls_of env config endpoint options w) /\
  (request env config endpoint options w).1
  = inr (timeoutError (timeout_of config options)).
Proof.
  intros Hi Hc.
  destruct (locals_of_spec env config endpoint options w) as (_ & Hto & _).
  assert (Hv : verdict_of (locals_of env config endpoint options w) c
               = inr abortError) by (unfold verdict_of; by rewrite Hc).
  destruct (stopping_call_is_last env config endpoint options w i c Hi)
    as [Hlast Hrun].
  { by rewrite Hv. }
  split; [exact Hlast|]. rewrite Hrun, Hv. unfold abortError.
  rewrite conclude_platform. cbn. by rewrite <- Hto.
Qed.

Lemma aborted_attempt_is_not_retried_witness :
  let env := ApiScenarios.slow500 in
  let config := ApiScenarios.tightConfig in
  let c := {| startedAt := 70;
              init := fetchInit (locals_of env config "/test-endpoint" noOptions
                                   (fresh 0 None));
              settled := Rejected abortError; settledAt := 100;
              bodyCut := false; endedAt := 100 |} in
  calls_of env config "/test-endpoint" noOptions (fresh 0 None) !! 1%nat = Some c /\
  2%nat = length (calls_of env config "/test-endpoint" noOptions (fresh 0 None)) /\
  (request env config "/test-endpoint" noOptions (fresh 0 None)).1
  = inr (timeoutError (timeout_of config noOptions)).
Proof.
  split; [vm_compute; reflexivity|].
  exact (aborted_attempt_is_not_retried ApiScenarios.slow500 ApiScenarios.tightConfig
           "/test-endpoint" noOptions (fresh 0 None) 1%nat _
           ltac:(vm_compute; reflexivity) eq_refl).
Defined.

(** Nothing is sent after a success: an attempt answered with a status from
    200 to 299 and a body that passes [isValidAPIResponse] is the last of its
    call, and the caller gets that body. *)
Theorem first_success_ends_the_call env config endpoint options w i c r data :
  calls_of env config endpoint options w !! i = Some c ->
  settled c = Resolved r -> ok r = true -> body r = Some data ->
  isValidAPIResponse data = true ->
  S i = length (calls_of env config endpoint options w) /\
  (request env config endpoint options w).1 = inl data.
Proof.
  intros Hi Hc Hok Hbody Hval.
  pose proof (request_plain env config endpoint options w) as Hpl.
  eapply Forall_lookup_1 in Hpl as [_ Hcut]; [|exact Hi].
  assert (Hwhole : bodyCut c = false).
  { destruct (bodyCut c); [|reflexivity].
    destruct (Hcut eq_refl) as (resp & Hresp & Hnone). congruence. }
  assert (Hv : verdict_of (locals_of env config endpoint options w) c = inl data).
  { unfold verdict_of. rewrite Hc, Hwhole. unfold decode.
    by rewrite Hok, Hbody, Hval. }
  destruct (stopping_call_is_last env config endpoint options w i c Hi)
    as [Hlast Hrun].
  { by rewrite Hv. }
  split; [exact Hlast|]. by rewrite Hrun, Hv.
Qed.

Lemma first_success_ends_the_call_witness :
  let env := ApiScenarios.twiceDown in
  let config := ApiScenarios.testConfig in
  let r := {| status := 200; statusText := "OK"; body := Some ApiScenarios.okBody |} in
  let c := {| startedAt := 1320;
              init := fetchInit (locals_of env config "/test-endpoint" noOptions
                                   (fresh 1000 None));
              settled := Resolved r; settledAt := 1330;
              bodyCut := false; endedAt := 1330 |} in
  calls_of env config "/test-endpoint" noOptions (fresh 1000 None) !! 2%nat = Some c /\
  3%nat = length (calls_of env config "/test-endpoint" noOptions (fresh 1000 None)) /\
  (request env config "/test-endpoint" noOptions (fresh 1000 None)).1
  = inl ApiScenarios.okBody.
Proof.
  split; [vm_compute; reflexivity|].
  exact (first_success_ends_the_call ApiScenarios.twiceDown ApiScenarios.testConfig
           "/test-endpoint" noOptions (fresh 1000 None) 2%nat _ _ _
           ltac:(vm_compute; reflexivity) eq_refl eq_refl eq_refl eq_refl).
Defined.

(** Retries do happen: while attempts are left (the attempt has an index
    below [retryAttempts]), an attempt that failed in a retryable way (the
    transport threw something else than an abort, or the answer has a status
    outside 2xx other than 401, 403 and 404) is followed by another one. *)
Theorem retryable_failure_is_retried env config endpoint options w i c :
  calls_of env config endpoint options w !! i = Some c ->
  retryable c ->
  Z.of_nat i < retryAttempts_of config options ->
  (S i < length (calls_of env config endpoint options w))%nat.
Proof.
  intros Hi Hre Hlt.
  destruct (locals_of_spec env config endpoint options w) as (_ & _ & Hra & _).
  pose proof (request_plain env config endpoint options w) as Hpl.
  eapply Forall_lookup_1 in Hpl as [Hpl _]; [|exact Hi].
  pose proof (retryable_goes_on (locals_of env config endpoint options w) c Hpl Hre)
    as Hgo.
  pose proof (lookup_lt_Some _ _ _ Hi) as Hbound.
  destruct (request_verdicts env config endpoint options w)
    as [(e & _ & Hnil & _)|[(_ & Hnil & _)|(_ & front & c' & Hcalls & _ & _ & Hlast)]].
  { rewrite Hnil in Hi. discriminate. }
  { rewrite Hnil in Hi. discriminate. }
  destruct (decide (S i = length (calls_of env config endpoint options w)))
    as [Heq|Hne]; [|lia].
  exfalso. rewrite Hcalls in Hi, Heq, Hlast. rewrite length_app in Heq, Hlast.
  cbn in Heq, Hlast.
  rewrite lookup_app_r in Hi by lia.
  replace (i - length front)%nat with O in Hi by lia.
  injection Hi as ->.
  destruct Hlast as [Hstop|Hlen]; [congruence|].
  rewrite Hra in Hlen. lia.
Qed.

Lemma retryable_failure_is_retried_witness :
  let env := always500 in
  let config := ApiScenarios.testConfig in
  let r := {| status := 500; statusText := "Internal Server Error";
              body := Some (Js.Obj [("message", Js.Str "Server error");
                                    ("code", Js.Str "SERVER_ERROR")]) |} in
  let c := {| startedAt := 1110;
              init := fetchInit (locals_of env config "/test-endpoint" noOptions
                                   (fresh 1000 None));
              settled := Resolved r; settledAt := 1120;
              bodyCut := false; endedAt := 1120 |} in
  calls_of env config "/test-endpoint" noOptions (fresh 1000 None) !! 1%nat = Some c /\
  (2 < length (calls_of env config "/test-endpoint" noOptions (fresh 1000 None)))%nat.
Proof.
  split; [vm_compute; reflexivity|].
  exact (retryable_failure_is_retried always500 ApiScenarios.testConfig
           "/test-endpoint" noOptions (fresh 1000 None) 1%nat _
           ltac:(vm_compute; reflexivity)
           ltac:(vm_compute; split; [reflexivity|intros [H|[H|H]]; discriminate H])
           ltac:(vm_compute; reflexivity)).
Defined.

(** *** What a call leaves behind *)

Lemma advance_timers t w :
  timers (advance t w) = map (fun tm => if due_by t tm then None else tm) (timers w).
Proof.
  unfold advance, fire_timers, cancelAllRequests.
  destruct (cancelAt w) as [c|]; [destruct (c <=? t)|]; reflexivity.
Qed.

Lemma advance_registry t w :
  cancelAt w = None ->
  cancelAt (advance t w) = None /\ abortControllers (advance t w) = abortControllers w.
Proof.
  intros Hc. rewrite advance_quiet by (by rewrite Hc).
  unfold fire_timers. cbn. auto.
Qed.

Section Frame.

Variable env : Env.
Variable config : APIConfig.
Variable L : Locals.

(** A property of the timer table, of the registry and of the pending
    cancellation. *)
Variable Q : list (option (Z * nat)) -> gmap string nat -> option Z -> Prop.

Hypothesis Q_advance : forall t w,
  Q (timers w) (abortControllers w) (cancelAt w) ->
  Q (timers (advance t w)) (abortControllers (advance t w)) (cancelAt (advance t w)).

Lemma transport_keeps c w s w' :
  Q (timers w) (abortControllers w) (cancelAt w) ->
  transport env c w = (s, w') ->
  Q (timers w') (abortControllers w') (cancelAt w').
Proof.
  unfold transport. intros HQ H.
  destruct (aborted c w); [|destruct (abort_due c w) as [a|]; [destruct (a <=? _)|]];
    injection H as <- <-; auto.
Qed.

Lemma readBody_keeps c ms w whole w' :
  Q (timers w) (abortControllers w) (cancelAt w) ->
  readBody c ms w = (whole, w') ->
  Q (timers w') (abortControllers w') (cancelAt w').
Proof.
  unfold readBody. intros HQ H.
  destruct (abort_due c w) as [a|]; [destruct (a <=? _)|];
    injection H as <- <-; auto.
Qed.

Lemma attempt_body_keeps retryCount w r w' :
  Q (timers w) (abortControllers w) (cancelAt w) ->
  attempt_body env L retryCount w = (r, w') ->
  Q (timers w') (abortControllers w') (cancelAt w').
Proof.
  unfold attempt_body, fetch. intros HQ H.
  destruct (transport env (f_signal (fetchInit L)) w) as [s w1] eqn:Ht.
  apply transport_keeps in Ht; [|exact HQ].
  destruct s as [resp|e]; [|injection H as <- <-; exact Ht].
  destruct (readBody _ _ _) as [whole w3] eqn:Hr.
  apply readBody_keeps in Hr; [|by destruct (enableMetrics L)].
  injection H as <- <-. exact Hr.
Qed.

Lemma sleep_keeps ms w :
  Q (timers w) (abortControllers w) (cancelAt w) ->
  Q (timers (sleep ms w)) (abortControllers (sleep ms w)) (cancelAt (sleep ms w)).
Proof. intros HQ. unfold sleep. by apply Q_advance. Qed.

Lemma retry_loop_keeps n attempt lastError retryCount w exit w' :
  Q (timers w) (abortControllers w) (cancelAt w) ->
  retry_loop env config L n attempt lastError retryCount w = (exit, w') ->
  Q (timers w') (abortControllers w') (cancelAt w').
Proof.
  apply (retry_loop_preserves env config L
           (fun w => Q (timers w) (abortControllers w) (cancelAt w))).
  - intros. by eapply attempt_body_keeps.
  - intros. by apply sleep_keeps.
Qed.

End Frame.

(** The state in which a call reaches its [finally] block: what the loop
    keeps of the state the prologue made. *)
Lemma request_before_finally env config endpoint options w
    (Q : list (option (Z * nat)) -> gmap string nat -> option Z -> Prop) :
  (forall t w,
     Q (timers w) (abortControllers w) (cancelAt w) ->
     Q (timers (advance t w)) (abortControllers (advance t w))
       (cancelAt (advance t w))) ->
  forall L timeoutId w0,
    prologue env config endpoint options w = (L, timeoutId, w0) ->
    Q (timers w0) (abortControllers w0) (cancelAt w0) ->
    exists w1,
      (request env config endpoint options w).2 = epilogue L timeoutId w1 /\
      Q (timers w1) (abortControllers w1) (cancelAt w1).
Proof.
  intros HQ L timeoutId w0 Hp H0.
  destruct (request_spec env config endpoint options w)
    as (L' & timeoutId' & w0' & Hp' & Hr).
  rewrite Hp in Hp'. injection Hp' as <- <- <-.
  destruct (thrown L) as [e|].
  - exists w0. by rewrite Hr.
  - destruct Hr as (exit & w1 & Hl & ->). exists w1. split; [reflexivity|].
    by eapply (retry_loop_keeps env config L Q HQ).
Qed.

(** The [finally] block does its work however the call ends.  When [request]
    has settled, the id of the call is not in the registry, the slot of its
    timer is cleared and no pending timer is left that would abort its
    controller; if nobody cancelled, the registry is the one the call found,
    less its own id. *)
Theorem request_leaves_nothing_behind env config endpoint options w :
  timers_wf w ->
  let rid := (generateRequestId env w).1 in
  let w' := (request env config endpoint options w).2 in
  abortControllers w' !! rid = None /\
  length (timers w') = S (length (timers w)) /\
  timers w' !! length (timers w) = Some None /\
  no_timer_for (length (signals w)) (timers w') /\
  (cancelAt w = None -> abortControllers w' = delete rid (abortControllers w)).
Proof.
  intros Hwf rid w'. subst rid w'.
  destruct (prologue env config endpoint options w) as [[L timeoutId] w0] eqn:Hp.
  pose proof Hp as Hp'.
  apply prologue_spec in Hp' as (Hid & _ & _ & _ & _ & Hc & _).
  pose proof Hp as Hp''.
  apply prologue_world in Hp'' as (Hca & Hreg & _ & Htm & ->).
  rewrite <- Hid.
  assert (Hlen : exists w1,
            (request env config endpoint options w).2
            = epilogue L (length (timers w)) w1 /\
            length (timers w1) = S (length (timers w))).
  { refine (request_before_finally env config endpoint options w
              (fun tms _ _ => length tms = S (length (timers w))) _ _ _ _ Hp _).
    - intros t w2 H. by rewrite advance_timers, length_map.
    - rewrite Htm, length_app. cbn. lia. }
  assert (Hown : exists w1,
            (request env config endpoint options w).2
            = epilogue L (length (timers w)) w1 /\
            forall i due,
              timers w1 !! i = Some (Some (due, abortController L)) ->
              i = length (timers w)).
  { refine (request_before_finally env config endpoint options w
              (fun tms _ _ => forall i due,
                 tms !! i = Some (Some (due, abortController L)) ->
                 i = length (timers w)) _ _ _ _ Hp _).
    - intros t w2 H i due. rewrite advance_timers, list_lookup_fmap.
      destruct (timers w2 !! i) as [tm|] eqn:Hi; [|discriminate]. cbn.
      destruct (due_by t tm); [discriminate|]. intros [= ->]. by eapply H.
    - intros i due. rewrite Htm. intros Hi.
      destruct (decide (i < length (timers w))%nat) as [Hlt|Hge].
      + rewrite lookup_app_l in Hi by assumption.
        unfold timers_wf in Hwf. eapply Forall_lookup_1 in Hwf; [|exact Hi].
        cbn in Hwf. lia.
      + apply lookup_lt_Some in Hi. rewrite length_app in Hi. cbn in Hi. lia. }
  assert (Hkept : cancelAt w = None ->
            exists w1,
              (request env config endpoint options w).2
              = epilogue L (length (timers w)) w1 /\
              (cancelAt w1 = None /\
               abortControllers w1
               = <[requestId L := abortController L]> (abortControllers w))).
  { intros Hnone.
    refine (request_before_finally env config endpoint options w
              (fun _ reg cancel =>
                 cancel = None /\
                 reg = <[requestId L := abortController L]> (abortControllers w))
              _ _ _ _ Hp _).
    - intros t w2 [Hn Hr]. destruct (advance_registry t w2 Hn) as [-> ->]. auto.
    - split; congruence. }
  destruct Hlen as (w1 & Hrun & Hlen). rewrite Hrun.
  destruct Hown as (w1' & Hrun' & Hown). rewrite Hrun in Hrun'.
  unfold epilogue, clearTimeout. cbn.
  split; [apply lookup_delete_eq|].
  split; [by rewrite length_insert|].
  split; [apply list_lookup_insert_eq; lia|].
  split.
  - intros i due Hi. rewrite <- Hc in Hi.
    assert (Heq : <[length (timers w) := None]> (timers w1)
                  = <[length (timers w) := None]> (timers w1')).
    { apply (f_equal timers) in Hrun'. exact Hrun'. }
    rewrite Heq in Hi.
    destruct (decide (i = length (timers w))) as [->|Hne].
    + rewrite list_lookup_insert_eq in Hi; [discriminate|].
      apply (f_equal length) in Heq. rewrite !length_insert in Heq. lia.
    + rewrite list_lookup_insert_ne in Hi by auto. apply Hown in Hi. contradiction.
  - intros Hnone. destruct (Hkept Hnone) as (w1'' & Hrun'' & _ & Hreg'').
    rewrite Hrun in Hrun''. apply (f_equal abortControllers) in Hrun''.
    cbn in Hrun''. rewrite Hrun'', Hreg''. apply delete_insert_eq.
Qed.

Lemma request_leaves_nothing_behind_witness :
  let env := ApiScenarios.slow500 in
  let config := ApiScenarios.tightConfig in
  let w' := (request env config "/test-endpoint" noOptions (fresh 0 None)).2 in
  abortControllers w' !! (generateRequestId env (fresh 0 None)).1 = None /\
  length (timers w') = 1%nat /\
  timers w' !! 0%nat = Some None /\
  no_timer_for 0 (timers w') /\
  (None = None :> option Z ->
   abortControllers w' = delete (generateRequestId env (fresh 0 None)).1 ∅).
Proof.
  exact (request_leaves_nothing_behind ApiScenarios.slow500 ApiScenarios.tightConfig
           "/test-endpoint" noOptions (fresh 0 None) (Forall_nil_2 _)).
Defined.

(** *** The buffer of samples *)

(** [collectMetrics] keeps a sliding window of 1000 samples: the new sample
    goes to the end; on a full buffer the oldest sample, and only it, is
    dropped; the others keep their order.  A call of [request] keeps the
    buffer within the bound, however many samples it records. *)
Theorem metrics_buffer_is_a_window :
  (forall w m,
     (length (metrics w) <= 1000)%nat ->
     let ms' := metrics (collectMetrics m w) in
     (length ms' <= 1000)%nat /\ last ms' = Some m /\
     ms' = (if (length (metrics w) <? 1000)%nat then metrics w
            else drop 1 (metrics w)) ++ [m]) /\
  (forall env config endpoint options w,
     (length (metrics w) <= 1000)%nat ->
     (length (metrics (request env config endpoint options w).2) <= 1000)%nat).
Proof.
  split.
  - intros w m Hlen.
    change (metrics (collectMetrics m w)) with (push (metrics w) m).
    unfold push. rewrite length_app. cbn [length].
    destruct (length (metrics w) <? 1000)%nat eqn:Hlt.
    + apply Nat.ltb_lt in Hlt.
      replace (1000 <? length (metrics w) + 1)%nat with false
        by (symmetry; apply Nat.ltb_ge; lia).
      rewrite length_app. cbn [length].
      split; [lia|]. split; [apply last_snoc|reflexivity].
    + apply Nat.ltb_ge in Hlt.
      replace (1000 <? length (metrics w) + 1)%nat with true
        by (symmetry; apply Nat.ltb_lt; lia).
      unfold keep_last. rewrite length_app. cbn [length].
      replace (length (metrics w) + 1 - 1000)%nat with 1%nat by lia.
      rewrite drop_app_le by lia.
      rewrite length_app, length_drop. cbn [length].
      split; [lia|]. split; [apply last_snoc|reflexivity].
  - intros env config endpoint options w Hlen.
    destruct (request_log env config endpoint options w)
      as (calls & _ & _ & _ & _ & _ & Hme & _).
    rewrite Hme, foldl_push by exact Hlen. apply keep_last_length.
Qed.

Lemma metrics_buffer_is_a_window_witness :
  let m := sample (locals_of always500 ApiScenarios.testConfig "/test-endpoint"
                     noOptions (fresh 0 None)) 0
             {| status := 200; statusText := "OK"; body := None |} 7 in
  let m' := sample (locals_of always500 ApiScenarios.testConfig "/test-endpoint"
                      noOptions (fresh 0 None)) 1
              {| status := 500; statusText := "Internal Server Error"; body := None |} 9 in
  let w := with_metrics (m' :: replicate 999 m) (fresh 0 None) in
  let ms' := metrics (collectMetrics m' w) in
  ((length ms' <= 1000)%nat /\ last ms' = Some m' /\
   ms' = (if (length (metrics w) <? 1000)%nat then metrics w
          else drop 1 (metrics w)) ++ [m']) /\
  (length (metrics (request always500 ApiScenarios.testConfig "/test-endpoint"
                      noOptions w).2) <= 1000)%nat.
Proof.
  intros m m' w ms'. split.
  - exact (proj1 metrics_buffer_is_a_window w m'
             ltac:(vm_compute; apply le_n)).
  - exact (proj2 metrics_buffer_is_a_window always500 ApiScenarios.testConfig
             "/test-endpoint" noOptions w
             ltac:(vm_compute; apply le_n)).
Defined.

(** *** What every attempt carries *)


Lemma calls_of_init env config endpoint options w :
  Forall (fun c => init c = fetchInit (locals_of env config endpoint options w))
    (calls_of env config endpoint options w).
Proof.
  unfold calls_of, new_calls, locals_of.
  destruct (request_log env config endpoint options w) as (calls & -> & Hall & _).
  by rewrite drop_app_length.
Qed.




(** *** The verb helpers *)

(** [get], [post], [put] and [delete] fix the verb, whatever [options.method]
    says.  [post] and [put] send [JSON.stringify(data)] as the body exactly
    when [data] is truthy, and no body otherwise, also when [data] is [0],
    [false] or the empty string; a body given in the options is never sent
    by them.  [get] and [delete] pass the body of the options on. *)
Theorem verb_helpers_fix_method_and_body stringify env config endpoint data options w :
  Forall (fun c => f_method (init c) = Some "GET" /\
                   f_body (init c) = opt_body (default noOptions options))
    (new_calls w (get env config endpoint options w).2) /\
  Forall (fun c => f_method (init c) = Some "DELETE" /\
                   f_body (init c) = opt_body (default noOptions options))
    (new_calls w (delete_ env config endpoint options w).2) /\
  Forall (fun c => f_method (init c) = Some "POST" /\
                   f_body (init c) = if Js.truthy data then stringify <$> data else None)
    (new_calls w (post stringify env config endpoint data options w).2) /\
  Forall (fun c => f_method (init c) = Some "PUT" /\
                   f_body (init c) = if Js.truthy data then stringify <$> data else None)
    (new_calls w (put stringify env config endpoint data options w).2).
Proof.
  assert (H : forall o,
    Forall (fun c => f_method (init c) = opt_method o /\ f_body (init c) = opt_body o)
      (new_calls w (request env config endpoint o w).2)).
  { intros o.
    destruct (locals_of_request env config endpoint o w) as (_ & Hm & Hb).
    eapply Forall_impl; [apply calls_of_init|].
    intros c ->. cbn. auto. }
  split; [exact (H (with_method "GET" (default noOptions options)))|].
  split; [exact (H (with_method "DELETE" (default noOptions options)))|].
  split.
  - exact (H (with_body (serialised stringify data)
                (with_method "POST" (default noOptions options)))).
  - exact (H (with_body (serialised stringify data)
                (with_method "PUT" (default noOptions options)))).
Qed.

(** *** The success rate *)

Lemma percent_eq (k c : Z) (n : nat) :
  (0 < n)%nat ->
  (inject_Z k / inject_Z (Z.of_nat n) * inject_Z 100 == inject_Z c)%Q
  <-> 100 * k = c * Z.of_nat n.
Proof.
  intros Hn. destruct n as [|n]; [lia|].
  change (Z.of_nat (S n)) with (Z.pos (Pos.of_succ_nat n)).
  unfold Qeq, Qdiv, Qmult, Qinv, inject_Z. cbn. lia.
Qed.

Lemma percent_le (k c : Z) (n : nat) :
  (0 < n)%nat ->
  (inject_Z k / inject_Z (Z.of_nat n) * inject_Z 100 <= inject_Z c)%Q
  <-> 100 * k <= c * Z.of_nat n.
Proof.
  intros Hn. destruct n as [|n]; [lia|].
  change (Z.of_nat (S n)) with (Z.pos (Pos.of_succ_nat n)).
  unfold Qle, Qdiv, Qmult, Qinv, inject_Z. cbn. lia.
Qed.

Lemma le_percent (k c : Z) (n : nat) :
  (0 < n)%nat ->
  (inject_Z c <= inject_Z k / inject_Z (Z.of_nat n) * inject_Z 100)%Q
  <-> c * Z.of_nat n <= 100 * k.
Proof.
  intros Hn. destruct n as [|n]; [lia|].
  change (Z.of_nat (S n)) with (Z.pos (Pos.of_succ_nat n)).
  unfold Qle, Qdiv, Qmult, Qinv, inject_Z. cbn. lia.
Qed.

Lemma succeeded_le (ms : list RequestMetrics) :
  (length (List.filter m_success ms) <= length ms)%nat.
Proof. induction ms as [|m ms IH]; cbn; [lia|]. destruct (m_success m); cbn; lia. Qed.

Lemma succeeded_all (ms : list RequestMetrics) :
  length (List.filter m_success ms) = length ms
  <-> Forall (fun m => m_success m = true) ms.
Proof.
  induction ms as [|m ms IH]; cbn; [by split|].
  pose proof (succeeded_le ms) as Hle.
  destruct (m_success m) eqn:Hm; cbn; split.
  - intros [= H]. constructor; [exact Hm|by apply IH].
  - intros H. apply Forall_cons in H as [_ H]. apply IH in H. lia.
  - lia.
  - intros H. apply Forall_cons in H as [H _]. congruence.
Qed.

Lemma succeeded_none (ms : list RequestMetrics) :
  length (List.filter m_success ms) = 0%nat
  <-> Forall (fun m => m_success m = false) ms.
Proof.
  induction ms as [|m ms IH]; cbn; [by split|].
  destruct (m_success m) eqn:Hm; cbn; split.
  - discriminate.
  - intros H. apply Forall_cons in H as [H _]. congruence.
  - intros H. constructor; [exact Hm|by apply IH].
  - intros H. apply Forall_cons in H as [_ H]. by apply IH.
Qed.

(** [getSuccessRate] is a percentage: between 0 and 100; 100 exactly when
    the buffer is not empty and every sample in it succeeded; 0 exactly when
    no sample in it succeeded, an empty buffer included.  The quotient is
    taken exactly. *)
Theorem success_rate_is_a_percentage w :
  (inject_Z 0 <= getSuccessRate w)%Q /\
  (getSuccessRate w <= inject_Z 100)%Q /\
  ((getSuccessRate w == inject_Z 100)%Q
   <-> metrics w <> [] /\ Forall (fun m => m_success m = true) (metrics w)) /\
  ((getSuccessRate w == inject_Z 0)%Q
   <-> Forall (fun m => m_success m = false) (metrics w)).
Proof.
  unfold getSuccessRate.
  pose proof (succeeded_le (metrics w)) as Hle.
  pose proof (succeeded_all (metrics w)) as Hall.
  pose proof (succeeded_none (metrics w)) as Hnone.
  destruct (metrics w) as [|m ms] eqn:Hms.
  - cbn. repeat split; try done. by intros [? _].
  - change (length (m :: ms) =? 0)%nat with false. cbv iota.
    assert (Hpos : (0 < length (m :: ms))%nat) by (cbn; lia).
    split; [apply le_percent; [exact Hpos|lia]|].
    split; [apply percent_le; [exact Hpos|lia]|].
    split.
    + rewrite percent_eq by exact Hpos. rewrite <- Hall. split.
      * intros H. split; [discriminate|lia].
      * intros [_ H]. lia.
    + rewrite percent_eq by exact Hpos. rewrite <- Hnone. lia.
Qed.

Lemma success_rate_is_a_percentage_witness :
  let m := sample (locals_of always500 ApiScenarios.testConfig "/test-endpoint"
                     noOptions (fresh 0 None)) 0
             {| status := 200; statusText := "OK"; body := None |} 7 in
  let m' := sample (locals_of always500 ApiScenarios.testConfig "/test-endpoint"
                      noOptions (fresh 0 None)) 1
              {| status := 500; statusText := "Internal Server Error"; body := None |} 9 in
  let w := with_metrics [m; m'] (fresh 0 None) in
  (getSuccessRate w == inject_Z 50)%Q /\
  (inject_Z 0 <= getSuccessRate w)%Q /\
  (getSuccessRate w <= inject_Z 100)%Q /\
  ((getSuccessRate w == inject_Z 100)%Q
   <-> metrics w <> [] /\ Forall (fun m => m_success m = true) (metrics w)) /\
  ((getSuccessRate w == inject_Z 0)%Q
   <-> Forall (fun m => m_success m = false) (metrics w)).
Proof.
  intros m m' w. split; [reflexivity|].
  exact (success_rate_is_a_percentage w).
Defined.

(** An answer 401, 403 or 404 ends the call at once, when its body is not
    the JSON text [null] and the message made of it converts to a string:
    the attempt is the last, whatever is left of [retryAttempts], no backoff
    sleep follows it, and the caller gets the [APIError] with the status of
    the answer and the correlation id of the call. *)
Theorem unretried_status_ends_the_call env config endpoint options w i c r :
  calls_of env config endpoint options w !! i = Some c ->
  settled c = Resolved r -> no_retry (status r) ->
  parseErrorResponse r <> Js.Null ->
  Js.toString (errorMessage r (parseErrorResponse r)) <> None ->
  S i = length (calls_of env config endpoint options w) /\
  length (slept (request env config endpoint options w).2)
  = (length (slept w) + i)%nat /\
  exists message code details,
    (request env config endpoint options w).1
    = inr (APIError message (status r) code
             (Some (generateRequestId env w).1) details).
Proof.
  intros Hi Hc Hst Hnull Hstr.
  destruct (locals_of_spec env config endpoint options w) as (Hid & _).
  assert (Hok : ok r = false).
  { unfold ok. destruct Hst as [->|[->| ->]]; reflexivity. }
  assert (Hv : exists message code details,
             verdict_of (locals_of env config endpoint options w) c
             = inr (APIError message (status r) code
                      (Some (generateRequestId env w).1) details)).
  { unfold verdict_of. rewrite Hc, <- Hid. by apply decode_error. }
  destruct Hv as (message & code & details & Hv).
  destruct (stopping_call_is_last env config endpoint options w i c Hi)
    as [Hlast Hrun].
  { rewrite Hv. cbn. destruct Hst as [->|[->| ->]]; reflexivity. }
  split; [exact Hlast|]. split.
  - destruct (request_log env config endpoint options w)
      as (calls & Hfe & _ & _ & _ & Hsl & _).
    assert (calls = calls_of env config endpoint options w) as ->.
    { unfold calls_of, new_calls. by rewrite Hfe, drop_app_length. }
    rewrite Hsl, length_app, backoff_length. lia.
  - exists message, code, details. by rewrite Hrun, Hv, conclude_api.
Qed.

Lemma unretried_status_ends_the_call_witness :
  let env := unauthorized in
  let config := ApiScenarios.testConfig in
  let r := {| status := 401; statusText := "Unauthorized";
              body := Some (Js.Obj [("message", Js.Str "Unauthorized")]) |} in
  let c := {| startedAt := 1000;
              init := fetchInit (locals_of env config "/test-endpoint" noOptions
                                   (fresh 1000 None));
              settled := Resolved r; settledAt := 1010;
              bodyCut := false; endedAt := 1010 |} in
  calls_of env config "/test-endpoint" noOptions (fresh 1000 None) !! 0%nat = Some c /\
  1%nat = length (calls_of env config "/test-endpoint" noOptions (fresh 1000 None)) /\
  length (slept (request env config "/test-endpoint" noOptions (fresh 1000 None)).2)
  = (length (slept (fresh 1000 None)) + 0)%nat /\
  exists message code details,
    (request env config "/test-endpoint" noOptions (fresh 1000 None)).1
    = inr (APIError message (status r) code
             (Some (generateRequestId env (fresh 1000 None)).1) details).
Proof.
  split; [vm_compute; reflexivity|].
  exact (unretried_status_ends_the_call unauthorized ApiScenarios.testConfig
           "/test-endpoint" noOptions (fresh 1000 None) 0%nat _ _
           ltac:(vm_compute; reflexivity) eq_refl (or_introl eq_refl)
           ltac:(discriminate) ltac:(vm_compute; discriminate)).
Defined.

(** Without the proviso on the message the rule fails.  Every answer is a
    404 whose [message] is an object with a member [toString] that is no
    function: the body is not [null], yet building the [APIError] throws a
    [TypeError], the [catch] retries, and the first attempt is followed by
    two more. *)
Lemma odd_message_is_retried :
  let env := ApiScenarios.notFoundOdd in
  let config := ApiScenarios.testConfig in
  let calls := calls_of env config "/test-endpoint" noOptions (fresh 1000 None) in
  exists c r,
    calls !! 0%nat = Some c /\ settled c = Resolved r /\ no_retry (status r) /\
    parseErrorResponse r <> Js.Null /\
    Js.toString (errorMessage r (parseErrorResponse r)) = None /\
    length calls = 3%nat /\
    (request env config "/test-endpoint" noOptions (fresh 1000 None)).1
    = inr (NetworkError "Network request failed after 3 attempts"
             (Some (PlatformError "TypeError"
                      "Cannot convert object to primitive value"))).
Proof.
  eexists _, _. split; [vm_compute; reflexivity|]. split; [reflexivity|].
  split; [right; right; reflexivity|]. split; [discriminate|].
  split; [reflexivity|]. split; vm_compute; reflexivity.
Qed.

End ApiHelpersFacts.

(** ** Further properties of the event-stream client *)

Module WebSocketMoreFacts.
Import WebSocketClient WebSocketReaders WebSocketFacts.

Lemma added_app c c' es : effects c' = effects c ++ es -> added c c' = es.
Proof. unfold added. intros ->. apply drop_app_length. Qed.

Lemma state_eqb_eq a b : state_eqb a b = true <-> a = b.
Proof. destruct a, b; cbn; split; (reflexivity || discriminate). Qed.

Lemma state_eqb_neq a b : state_eqb a b = false <-> a <> b.
Proof. destruct a, b; cbn; split; (reflexivity || discriminate || congruence). Qed.

(** *** send *)

Lemma send_queued env now message c :
  state c <> connected \/ ws c = None ->
  send env now message c = (false, with_messageQueue (messageQueue c ++ [message]) c).
Proof.
  unfold send. intros [H|H].
  - apply state_eqb_neq in H. by rewrite H.
  - rewrite H. by destruct (state_eqb (state c) connected).
Qed.

Lemma send_open env now message c sock rs :
  state c = connected -> ws c = Some sock ->
  sockets c !! sock = Some rs -> rs <> CONNECTING ->
  send env now message c = (true, transmit env now sock message c).
Proof.
  unfold send. intros Hst Hws Hsock Hrs. rewrite Hst, Hws. cbn.
  rewrite Hsock. destruct rs; (congruence || reflexivity).
Qed.

Lemma isConnected_true c :
  isConnected c = true <->
  state c = connected /\ exists sock, ws c = Some sock /\ sockets c !! sock = Some OPEN.
Proof.
  unfold isConnected. rewrite andb_true_iff, state_eqb_eq. split.
  - intros [Hst H]. split; [exact Hst|].
    destruct (ws c) as [sock|]; [|discriminate]. exists sock.
    destruct (sockets c !! sock) as [[]|]; (discriminate || auto).
  - intros [Hst (sock & -> & ->)]. auto.
Qed.

Lemma transmit_queue env now sock m q c :
  transmit env now sock m (with_messageQueue q c)
  = with_messageQueue q (transmit env now sock m c).
Proof. reflexivity. Qed.

Lemma transmit_all_cons env now sock m ms c :
  transmit_all env now sock (m :: ms) c
  = transmit_all env now sock ms (transmit env now sock m c).
Proof. reflexivity. Qed.

Lemma transmit_all_queue env now sock ms : forall q c,
  transmit_all env now sock ms (with_messageQueue q c)
  = with_messageQueue q (transmit_all env now sock ms c).
Proof.
  induction ms as [|m ms IH]; intros q c; [reflexivity|].
  by rewrite !transmit_all_cons, transmit_queue, IH.
Qed.

Lemma transmit_all_spec env now sock ms : forall c,
  let c' := transmit_all env now sock ms c in
  effects c' = effects c ++ map send_effect (stamped env now (draws c) sock ms) /\
  draws c' = (draws c + length ms)%nat /\
  messagesSent (metrics c') = (messagesSent (metrics c) + length ms)%nat /\
  messagesReceived (metrics c') = messagesReceived (metrics c) /\
  connectionTime (metrics c') = connectionTime (metrics c) /\
  lastMessageTime (metrics c') = lastMessageTime (metrics c) /\
  state c' = state c /\ ws c' = ws c /\ sockets c' = sockets c /\
  attempts c' = attempts c /\ timers c' = timers c /\ nextTimer c' = nextTimer c /\
  heartbeatTimer c' = heartbeatTimer c /\ reconnectTimer c' = reconnectTimer c /\
  messageQueue c' = messageQueue c /\ queryClient c' = queryClient c /\
  connectionStartTime c' = connectionStartTime c /\
  latencyMeasurements c' = latencyMeasurements c /\
  eventHandlers c' = eventHandlers c.
Proof.
  induction ms as [|m ms IH]; intros c.
  - cbn. rewrite app_nil_r, !Nat.add_0_r. by repeat split.
  - cbn zeta. rewrite transmit_all_cons.
    specialize (IH (transmit env now sock m c)). cbn zeta in IH.
    destruct IH as (-> & -> & -> & -> & -> & -> & -> & -> & -> & -> & -> & ->
                    & -> & -> & -> & -> & -> & -> & ->).
    cbn. rewrite <- app_assoc. cbn. repeat split; lia.
Qed.

Lemma frames_send_effects fs : frames (map send_effect fs) = fs.
Proof.
  induction fs as [|[s f] fs IH]; [reflexivity|].
  change (frames (map send_effect ((s, f) :: fs)))
    with ((s, f) :: frames (map send_effect fs)).
  by rewrite IH.
Qed.

Lemma with_messageQueue_id c : with_messageQueue (messageQueue c) c = c.
Proof. by destruct c. Qed.

Lemma with_messageQueue_twice q q' c :
  with_messageQueue q (with_messageQueue q' c) = with_messageQueue q c.
Proof. reflexivity. Qed.

(** The loop of [processMessageQueue] on a connected client whose socket is
    open: every queued message goes out, in order. *)
Lemma drain_connected env now sock : forall q c,
  messageQueue c = q -> state c = connected -> ws c = Some sock ->
  sockets c !! sock = Some OPEN ->
  drain env (length q) now c = with_messageQueue [] (transmit_all env now sock q c).
Proof.
  induction q as [|m rest IH]; intros c Hq Hst Hws Hsock.
  - cbn. rewrite <- Hq. symmetry. apply with_messageQueue_id.
  - cbn [length drain]. rewrite Hq.
    replace (isConnected c) with true
      by (symmetry; apply isConnected_true; eauto).
    rewrite (send_open env now m (with_messageQueue rest c) sock OPEN)
      by (auto; discriminate).
    cbn [snd]. rewrite IH; try done.
    by rewrite transmit_all_cons, transmit_queue, transmit_all_queue,
      with_messageQueue_twice.
Qed.

(** While the client is not connected, [send] transmits nothing: each call
    returns [false] and the messages pile up in the queue in the order of the
    calls; state, counters and the trace of effects are as before. *)
Theorem sends_queue_while_not_connected env now ms c :
  state c <> connected \/ ws c = None ->
  send_all env now ms c = with_messageQueue (messageQueue c ++ ms) c /\
  forall m, (send env now m c).1 = false.
Proof.
  intros Hnot. split.
  - revert c Hnot. induction ms as [|m ms IH]; intros c Hnot.
    + cbn. rewrite app_nil_r. symmetry. apply with_messageQueue_id.
    + change (send_all env now (m :: ms) c)
        with (send_all env now ms (send env now m c).2).
      rewrite send_queued by exact Hnot. cbn [snd].
      rewrite IH by exact Hnot. cbn. by rewrite <- app_assoc.
  - intros m. by rewrite send_queued.
Qed.

Lemma sends_queue_while_not_connected_witness :
  let ms := [subscribe; heartbeat] in
  send_all WsScenarios.platform 5 ms initial
  = with_messageQueue (messageQueue initial ++ ms) initial /\
  forall m, (send WsScenarios.platform 5 m initial).1 = false.
Proof.
  exact (sends_queue_while_not_connected WsScenarios.platform 5 [subscribe; heartbeat]
           initial (or_intror eq_refl)).
Defined.

(** *** The socket opens *)

(** [onopen] up to the flush of the queue. *)
Lemma onopen_flush env config sock now c :
  ws c = Some sock -> (sock < length (sockets c))%nat ->
  exists c0,
    onopen env config sock now c
    = with_messageQueue [] (transmit_all env now sock (messageQueue c) c0) /\
    effects c0 = effects c ++ [ConsoleLog "Strathon WebSocket connected"]
                 ++ (if onConnect (eventHandlers c) then [UserOnConnect] else []) /\
    state c0 = connected /\ attempts c0 = 0%nat /\ ws c0 = Some sock /\
    sockets c0 = <[sock := OPEN]> (sockets c) /\
    draws c0 = draws c /\
    messagesSent (metrics c0) = messagesSent (metrics c) /\
    connectionTime (metrics c0) = now - connectionStartTime c /\
    connectionStartTime c0 = connectionStartTime c /\
    timers c0 = timers c ++ [(nextTimer c, HeartbeatInterval (heartbeatInterval config))] /\
    nextTimer c0 = S (nextTimer c) /\
    heartbeatTimer c0 = Some (nextTimer c) /\
    reconnectTimer c0 = reconnectTimer c /\
    queryClient c0 = queryClient c.
Proof.
  intros Hws Hsock.
  unfold onopen, processMessageQueue.
  match goal with
  | |- exists c0, drain env (length (messageQueue ?c1)) now ?c1 = _ /\ _ =>
      exists c1; set (c0 := c1)
  end.
  assert (Hq : messageQueue c0 = messageQueue c)
    by (subst c0; cbn; destruct (onConnect (eventHandlers c)); reflexivity).
  assert (Hfields :
    effects c0 = effects c ++ [ConsoleLog "Strathon WebSocket connected"]
                 ++ (if onConnect (eventHandlers c) then [UserOnConnect] else []) /\
    state c0 = connected /\ attempts c0 = 0%nat /\ ws c0 = Some sock /\
    sockets c0 = <[sock := OPEN]> (sockets c) /\
    draws c0 = draws c /\
    messagesSent (metrics c0) = messagesSent (metrics c) /\
    connectionTime (metrics c0) = now - connectionStartTime c /\
    connectionStartTime c0 = connectionStartTime c /\
    timers c0 = timers c ++ [(nextTimer c, HeartbeatInterval (heartbeatInterval config))] /\
    nextTimer c0 = S (nextTimer c) /\
    heartbeatTimer c0 = Some (nextTimer c) /\
    reconnectTimer c0 = reconnectTimer c /\
    queryClient c0 = queryClient c).
  { subst c0. cbn. destruct (onConnect (eventHandlers c)); cbn;
      rewrite <- ?app_assoc; by repeat split. }
  split; [|exact Hfields].
  destruct Hfields as (_ & Hst & _ & Hws0 & Hso & _).
  rewrite <- Hq.
  apply drain_connected; auto.
  rewrite Hso. by apply list_lookup_insert_eq.
Qed.


(** When the socket opens, the queue is flushed first in, first out: every
    message queued while the client was away is written to the socket, in
    the order in which it was handed to [send], each with an id and a
    timestamp of its own, after the user's [onConnect] callback; the queue
    is empty afterwards, and the client is connected with its reconnect
    counter back at 0. *)
Theorem open_flushes_queue_in_order env config sock now c :
  ws c = Some sock -> (sock < length (sockets c))%nat ->
  let c' := onopen env config sock now c in
  messageQueue c' = [] /\
  added c c' = [ConsoleLog "Strathon WebSocket connected"]
               ++ (if onConnect (eventHandlers c) then [UserOnConnect] else [])
               ++ map send_effect (stamped env now (draws c) sock (messageQueue c)) /\
  frames (added c c') = stamped env now (draws c) sock (messageQueue c) /\
  messagesSent (metrics c') = (messagesSent (metrics c) + length (messageQueue c))%nat /\
  isConnected c' = true /\ attempts c' = 0%nat.
Proof.
  intros Hws Hsock c'. subst c'.
  destruct (onopen_flush env config sock now c Hws Hsock)
    as (c0 & -> & Hef & Hst & Hat & Hws0 & Hso & Hdr & Hms & _).
  destruct (transmit_all_spec env now sock (messageQueue c) c0)
    as (Hef' & _ & Hms' & _ & _ & _ & Hst' & Hws' & Hso' & Hat' & _).
  cbn zeta in *.
  assert (Hadded : added c (with_messageQueue []
                              (transmit_all env now sock (messageQueue c) c0))
                   = [ConsoleLog "Strathon WebSocket connected"]
                     ++ (if onConnect (eventHandlers c) then [UserOnConnect] else [])
                     ++ map send_effect (stamped env now (draws c) sock (messageQueue c))).
  { apply added_app. cbn [effects with_messageQueue].
    rewrite Hef', Hef, Hdr. by rewrite <- !app_assoc. }
  split; [reflexivity|]. split; [exact Hadded|]. split.
  { rewrite Hadded. unfold frames. rewrite !omap_app.
    change (omap _ (map send_effect ?fs)) with (frames (map send_effect fs)).
    rewrite frames_send_effects.
    by destruct (onConnect (eventHandlers c)). }
  split; [cbn; rewrite Hms', Hms; reflexivity|].
  split; [|cbn; congruence].
  apply isConnected_true. cbn. split; [congruence|].
  exists sock. rewrite Hws', Hso', Hso. split; [exact Hws0|].
  by apply list_lookup_insert_eq.
Qed.

Lemma open_flushes_queue_in_order_witness :
  let env := WsScenarios.platform in
  let config := WsScenarios.testConfig in
  let c := (connect env config (Some 7%nat) 0
              (send_all env 0 [subscribe; Js.Str "ok"] WsScenarios.listening)).2 in
  let c' := onopen env config 0 10 c in
  (messageQueue c' = [] /\
   added c c' = [ConsoleLog "Strathon WebSocket connected"]
                ++ [UserOnConnect]
                ++ map send_effect (stamped env 10 0 0 [subscribe; Js.Str "ok"]) /\
   frames (added c c') = stamped env 10 0 0 [subscribe; Js.Str "ok"] /\
   messagesSent (metrics c') = 2%nat /\
   isConnected c' = true /\ attempts c' = 0%nat) /\
  stamped env 10 0 0 [subscribe; Js.Str "ok"] !! 1%nat
  = Some (0%nat, Js.Obj [("0", Js.Str "o"); ("1", Js.Str "k");
                         ("requestId", Js.Str "ws_10_k3j9x0q2a");
                         ("timestamp", Js.Str "2024-01-01T00:00:01Z")]).
Proof.
  split; [|vm_compute; reflexivity].
  exact (open_flushes_queue_in_order WsScenarios.platform WsScenarios.testConfig 0 10
           (connect WsScenarios.platform WsScenarios.testConfig (Some 7%nat) 0
              (send_all WsScenarios.platform 0 [subscribe; Js.Str "ok"]
                 WsScenarios.listening)).2
           eq_refl ltac:(vm_compute; apply le_n)).
Defined.

(** *** connect *)

(** [connect] on a client that is not connected, when the URL parses. *)
Lemma connect_fresh env config qc now c :
  ws c = None \/ state c <> connected ->
  urlParses env = true ->
  exists c1 params,
    connect env config qc now c = (Pending, c1) /\
    buildWebSocketURL env config = Some (url config, params) /\
    state c1 = connecting /\ ws c1 = Some (length (sockets c)) /\
    sockets c1 = sockets c ++ [CONNECTING] /\
    timers c1 = timers c ++ [(nextTimer c, ConnectTimeout 10000)] /\
    nextTimer c1 = S (nextTimer c) /\
    effects c1 = effects c ++ [SocketNew (length (sockets c)) (url config) params] /\
    queryClient c1 = qc /\ connectionStartTime c1 = now /\
    messageQueue c1 = messageQueue c /\ draws c1 = draws c /\
    metrics c1 = metrics c /\ attempts c1 = attempts c /\
    heartbeatTimer c1 = heartbeatTimer c /\ reconnectTimer c1 = reconnectTimer c /\
    eventHandlers c1 = eventHandlers c.
Proof.
  intros Hnot Hurl.
  assert (Hgo : forall A (a b : A),
             match ws c, state_eqb (state c) connected with
             | Some _, true => a
             | _, _ => b
             end = b).
  { intros A a b. destruct Hnot as [->|Hst]; [reflexivity|].
    apply state_eqb_neq in Hst. rewrite Hst. by destruct (ws c). }
  unfold connect. rewrite Hgo. unfold buildWebSocketURL. rewrite Hurl.
  eexists _, _. split; [reflexivity|]. cbn. by repeat split.
Qed.

Lemma attemptReconnect_frame config c :
  state c <> reconnecting ->
  let c' := attemptReconnect config c in
  heartbeatTimer c' = heartbeatTimer c /\ ws c' = ws c /\ sockets c' = sockets c /\
  queryClient c' = queryClient c /\ eventHandlers c' = eventHandlers c.
Proof.
  intros Hst. unfold attemptReconnect.
  replace (state_eqb (state c) reconnecting) with false
    by (symmetry; by apply state_eqb_neq).
  cbn. destruct (onReconnect (eventHandlers c)); by repeat split.
Qed.








(** [connect] is not meant to be called twice.  A second call while the
    first is still pending makes a second socket and a second timeout, and
    leaves the first socket as it is, neither closed nor held any more by
    the client.  The timeout of the first call, when it fires during the
    second, closes the second socket and rejects. *)
Theorem second_connect_abandons_first_socket env config qc qc' now later c :
  ws c = None \/ state c <> connected ->
  urlParses env = true ->
  let c1 := (connect env config qc now c).2 in
  let c2 := (connect env config qc' later c1).2 in
  let first := length (sockets c) in
  sockets c2 = sockets c ++ [CONNECTING; CONNECTING] /\
  ws c2 = Some (S first) /\
  List.filter (fun e => match e with SocketClose _ => true | _ => false end)
    (added c c2) = [] /\
  timers c2 = timers c ++ [(nextTimer c, ConnectTimeout 10000);
                           (S (nextTimer c), ConnectTimeout 10000)] /\
  connectTimeoutFired (nextTimer c) c2
  = (true, emit (SocketClose (S first)) (unschedule (nextTimer c) c2)).
Proof.
  intros Hnot Hurl c1 c2 first. subst c1 c2 first.
  destruct (connect_fresh env config qc now c Hnot Hurl)
    as (c1 & params & -> & _ & Hst1 & Hws1 & Hso1 & Htm1 & Hnx1 & Hef1 & _).
  cbn [snd].
  destruct (connect_fresh env config qc' later c1) as
    (c2 & params' & -> & _ & Hst2 & Hws2 & Hso2 & Htm2 & Hnx2 & Hef2 & _);
    [right; congruence|exact Hurl|].
  cbn [snd].
  rewrite Hso1, length_app in Hws2, Hef2. cbn [length] in Hws2, Hef2.
  rewrite Nat.add_1_r in Hws2, Hef2.
  split; [by rewrite Hso2, Hso1, <- app_assoc|].
  split; [exact Hws2|].
  split.
  { rewrite (added_app c c2 [SocketNew (length (sockets c)) (url config) params;
                             SocketNew (S (length (sockets c))) (url config) params']);
      [reflexivity|].
    by rewrite Hef2, Hef1, <- app_assoc. }
  split; [by rewrite Htm2, Htm1, Hnx1, <- app_assoc|].
  unfold connectTimeoutFired. cbn [state ws unschedule with_timers].
  by rewrite Hst2, Hws2.
Qed.

Lemma second_connect_abandons_first_socket_witness :
  let env := WsScenarios.platform in
  let config := WsScenarios.testConfig in
  let c := WsScenarios.listening in
  let c1 := (connect env config (Some 7%nat) 0 c).2 in
  let c2 := (connect env config (Some 7%nat) 9000 c1).2 in
  sockets c2 = [CONNECTING; CONNECTING] /\
  ws c2 = Some 1%nat /\
  List.filter (fun e => match e with SocketClose _ => true | _ => false end)
    (added c c2) = [] /\
  timers c2 = [(1%nat, ConnectTimeout 10000); (2%nat, ConnectTimeout 10000)] /\
  connectTimeoutFired 1 c2 = (true, emit (SocketClose 1) (unschedule 1 c2)).
Proof.
  exact (second_connect_abandons_first_socket WsScenarios.platform
           WsScenarios.testConfig (Some 7%nat) (Some 7%nat) 0 9000
           WsScenarios.listening (or_introl eq_refl) eq_refl).
Defined.

(** *** disconnect *)

Lemma filter_true (ts : list (nat * Timer)) : List.filter (fun _ => true) ts = ts.
Proof. induction ts as [|x ts IH]; cbn; by rewrite ?IH. Qed.

Lemma stopHeartbeat_spec c :
  let c' := stopHeartbeat c in
  heartbeatTimer c' = None /\
  timers c' = List.filter (fun tm => match heartbeatTimer c with
                                     | Some id => negb (tm.1 =? id)%nat
                                     | None => true
                                     end) (timers c) /\
  state c' = state c /\ ws c' = ws c /\ reconnectTimer c' = reconnectTimer c /\
  effects c' = effects c /\ messageQueue c' = messageQueue c /\
  attempts c' = attempts c /\ queryClient c' = queryClient c.
Proof.
  unfold stopHeartbeat. destruct (heartbeatTimer c) as [hb|] eqn:H; cbn.
  - by repeat split.
  - rewrite filter_true. by repeat split.
Qed.

Lemma clearReconnectTimer_spec c :
  let c' := clearReconnectTimer c in
  reconnectTimer c' = None /\
  timers c' = List.filter (fun tm => match reconnectTimer c with
                                     | Some id => negb (tm.1 =? id)%nat
                                     | None => true
                                     end) (timers c) /\
  state c' = state c /\ ws c' = ws c /\ heartbeatTimer c' = heartbeatTimer c /\
  effects c' = effects c /\ messageQueue c' = messageQueue c /\
  attempts c' = attempts c /\ queryClient c' = queryClient c.
Proof.
  unfold clearReconnectTimer. destruct (reconnectTimer c) as [hb|] eqn:H; cbn.
  - by repeat split.
  - rewrite filter_true. by repeat split.
Qed.

Lemma disconnect_idle c :
  heartbeatTimer c = None -> reconnectTimer c = None -> ws c = None ->
  state c = disconnected -> disconnect c = c.
Proof.
  intros Hh Hr Hw Hs. destruct c; cbn in *. subst. reflexivity.
Qed.

(** [disconnect], field by field. *)
Lemma disconnect_spec c :
  let c' := disconnect c in
  state c' = disconnected /\ ws c' = None /\
  heartbeatTimer c' = None /\ reconnectTimer c' = None /\
  timers c' = List.filter (fun tm => match reconnectTimer c with
                                     | Some id => negb (tm.1 =? id)%nat
                                     | None => true
                                     end)
                (List.filter (fun tm => match heartbeatTimer c with
                                        | Some id => negb (tm.1 =? id)%nat
                                        | None => true
                                        end) (timers c)) /\
  effects c' = effects c ++ match ws c with Some sock => [SocketClose sock] | None => [] end /\
  messageQueue c' = messageQueue c /\ attempts c' = attempts c /\
  queryClient c' = queryClient c.
Proof.
  unfold disconnect. cbn zeta.
  destruct (stopHeartbeat_spec (with_state disconnected c))
    as (Hh1 & Ht1 & Hs1 & Hw1 & Hr1 & He1 & Hq1 & Ha1 & Hc1).
  cbn zeta in *.
  change (heartbeatTimer (with_state disconnected c)) with (heartbeatTimer c) in Ht1.
  change (timers (with_state disconnected c)) with (timers c) in Ht1.
  change (state (with_state disconnected c)) with disconnected in Hs1.
  change (ws (with_state disconnected c)) with (ws c) in Hw1.
  change (reconnectTimer (with_state disconnected c)) with (reconnectTimer c) in Hr1.
  change (effects (with_state disconnected c)) with (effects c) in He1.
  change (messageQueue (with_state disconnected c)) with (messageQueue c) in Hq1.
  change (attempts (with_state disconnected c)) with (attempts c) in Ha1.
  change (queryClient (with_state disconnected c)) with (queryClient c) in Hc1.
  generalize dependent (stopHeartbeat (with_state disconnected c)).
  intros c1 Hh1 Ht1 Hs1 Hw1 Hr1 He1 Hq1 Ha1 Hc1.
  destruct (clearReconnectTimer_spec c1)
    as (Hr2 & Ht2 & Hs2 & Hw2 & Hh2 & He2 & Hq2 & Ha2 & Hc2).
  cbn zeta in *.
  generalize dependent (clearReconnectTimer c1).
  intros c2 Hr2 Ht2 Hs2 Hw2 Hh2 He2 Hq2 Ha2 Hc2.
  rewrite Hr1, Ht1 in Ht2.
  assert (Hws : ws c2 = ws c) by congruence.
  rewrite Hws.
  destruct (ws c) as [sock|].
  - cbn. rewrite He2, He1. repeat split; congruence.
  - rewrite app_nil_r. repeat split; congruence.
Qed.

(** [disconnect] stops what it knows of.  The client is disconnected and
    holds no socket and no timer; the heartbeat timer and the reconnect
    timer it held are gone from the table, every other timer is still
    pending; the socket it held, if any, is closed; the queue and the
    reconnect counter are as before, and the uptime reads 0.  A second
    [disconnect] changes nothing. *)
Theorem disconnect_stops_known_timers c t :
  let c' := disconnect c in
  state c' = disconnected /\ ws c' = None /\
  heartbeatTimer c' = None /\ reconnectTimer c' = None /\
  timers c' = List.filter (fun tm => match reconnectTimer c with
                                     | Some id => negb (tm.1 =? id)%nat
                                     | None => true
                                     end)
                (List.filter (fun tm => match heartbeatTimer c with
                                        | Some id => negb (tm.1 =? id)%nat
                                        | None => true
                                        end) (timers c)) /\
  added c c' = match ws c with Some sock => [SocketClose sock] | None => [] end /\
  messageQueue c' = messageQueue c /\ attempts c' = attempts c /\
  v_uptime (getMetrics t c') = 0 /\
  disconnect c' = c'.
Proof.
  destruct (disconnect_spec c) as (Hs & Hw & Hh & Hr & Ht & He & Hq & Ha & _).
  cbn zeta in *.
  generalize dependent (disconnect c). intros c' Hs Hw Hh Hr Ht He Hq Ha.
  split; [exact Hs|]. split; [exact Hw|]. split; [exact Hh|]. split; [exact Hr|].
  split; [exact Ht|]. split; [by apply added_app|].
  split; [exact Hq|]. split; [exact Ha|].
  split; [unfold getMetrics; cbn [v_uptime]; by rewrite Hs|].
  by apply disconnect_idle.
Qed.

(** *** One failed reconnection, two timers *)

Lemma closed_frame reason c :
  heartbeatTimer c = None ->
  let c' := closed reason c in
  timers c' = timers c /\ reconnectTimer c' = reconnectTimer c /\
  heartbeatTimer c' = None /\ ws c' = ws c /\ sockets c' = sockets c /\
  queryClient c' = queryClient c.
Proof.
  intros Hhb. unfold closed, stopHeartbeat. cbn. rewrite Hhb. cbn.
  destruct (onDisconnect (eventHandlers c)); by repeat split.
Qed.

(** The guard of [attemptReconnect] does not hold when a reconnection fails
    with an error and a close.  The rejection schedules a reconnect timer
    and leaves the client Reconnecting; the close event that follows makes
    it Disconnected first, so that [attemptReconnect] runs once more: the
    counter has gone up by two and two reconnect timers are pending, of
    which the client holds the second only.  [disconnect] then clears that
    one; the first stays in the table, and when it fires the client connects
    again, disconnected as it was. *)
Theorem failed_reconnect_schedules_twice env config code reason now c :
  code <> 1000 -> state c <> reconnecting -> heartbeatTimer c = None ->
  Z.of_nat (attempts c) + 1 < reconnectAttempts config ->
  urlParses env = true ->
  let c2 := handleClose config code reason (reconnectFailed config c) in
  let first := (nextTimer c,
                ReconnectTimer (reconnectDelay config
                                * 2 ^ Z.of_nat (Nat.min (attempts c) 5))) in
  let second := (S (nextTimer c),
                 ReconnectTimer (reconnectDelay config
                                 * 2 ^ Z.of_nat (Nat.min (S (attempts c)) 5))) in
  attempts c2 = S (S (attempts c)) /\
  timers c2 = timers c ++ [first; second] /\
  reconnectTimer c2 = Some (S (nextTimer c)) /\
  In first (timers (disconnect c2)) /\
  ~ In second (timers (disconnect c2)) /\
  let c3 := reconnectTimerFired env config (nextTimer c) now (disconnect c2) in
  c3.1 = Pending /\ state c3.2 = connecting.
Proof.
  intros Hcode Hst Hhb Hlt Hurl c2 first second. subst c2.
  (* the rejection *)
  assert (H1 : reconnectFailed config c
               = attemptReconnect config
                   (emit (ConsoleError "WebSocket reconnection failed:") c)).
  { unfold reconnectFailed. cbn zeta. cbn [attempts emit with_effects].
    by replace (Z.of_nat (attempts c) >=? reconnectAttempts config) with false
      by (symmetry; rewrite Z.geb_leb; apply Z.leb_gt; lia). }
  set (c0 := emit (ConsoleError "WebSocket reconnection failed:") c) in H1.
  destruct (attemptReconnect_spec config c0 Hst) as (Hst1 & Hat1 & Htm1 & Hnx1 & Hrt1).
  destruct (attemptReconnect_frame config c0 Hst) as (Hhb1 & _).
  rewrite <- H1 in Hst1, Hat1, Htm1, Hnx1, Hrt1, Hhb1.
  cbn [c0 attempts timers nextTimer heartbeatTimer emit with_effects] in *.
  set (c1 := reconnectFailed config c) in *. clearbody c1. clear H1 c0.
  (* the close *)
  rewrite handleClose_closed.
  destruct (closed_spec reason c1) as (Hst2 & Hat2 & _ & Hnx2).
  destruct (closed_frame reason c1) as (Htm2 & _); [congruence|].
  rewrite Hat2, Hat1.
  replace (code =? 1000) with false by (symmetry; by apply Z.eqb_neq).
  replace (Z.of_nat (S (attempts c)) <? reconnectAttempts config) with true
    by (symmetry; apply Z.ltb_lt; lia).
  cbn [negb andb].
  destruct (attemptReconnect_spec config (closed reason c1))
    as (Hst3 & Hat3 & Htm3 & Hnx3 & Hrt3); [congruence|].
  destruct (attemptReconnect_frame config (closed reason c1))
    as (Hhb3 & _); [congruence|].
  destruct (closed_frame reason c1) as (_ & _ & Hhb2 & _); [congruence|].
  set (c2 := attemptReconnect config (closed reason c1)) in *. clearbody c2.
  rewrite Hat2, Hat1 in Hat3, Htm3. rewrite Htm2, Htm1, Hnx2, Hnx1 in Htm3.
  rewrite Hnx2, Hnx1 in Hrt3. rewrite <- app_assoc in Htm3. cbn [app] in Htm3.
  rewrite Hhb2 in Hhb3.
  split; [exact Hat3|]. split; [exact Htm3|]. split; [exact Hrt3|].
  destruct (disconnect_spec c2) as (Hst4 & Hws4 & _ & _ & Htm4 & _).
  cbn zeta in Hst4, Hws4, Htm4.
  rewrite Hhb3, Hrt3, Htm3 in Htm4.
  assert (Hin : In first (timers (disconnect c2)) /\ ~ In second (timers (disconnect c2))).
  { rewrite Htm4. rewrite !filter_In, !in_app_iff. subst first second. cbn [fst].
    split.
    - split; [split; [right; by left|reflexivity]|].
      apply negb_true_iff, Nat.eqb_neq. lia.
    - intros [_ H]. apply negb_true_iff, Nat.eqb_neq in H. by apply H. }
  split; [exact (proj1 Hin)|]. split; [exact (proj2 Hin)|].
  unfold reconnectTimerFired.
  destruct (connect_fresh env config
              (queryClient (unschedule (nextTimer c) (disconnect c2))) now
              (unschedule (nextTimer c) (disconnect c2)))
    as (c3 & params & -> & _ & Hst5 & _); [by left|exact Hurl|].
  by split.
Qed.

Lemma failed_reconnect_schedules_twice_witness :
  let env := WsScenarios.platform in
  let config := WsScenarios.testConfig in
  let c := (reconnectTimerFired env config 3 200
              (onclose config 0 1006 "Connection lost"
                 (WsScenarios.connectedClient config))).2 in
  let c2 := handleClose config 1006 "Connection failed" (reconnectFailed config c) in
  let first := (nextTimer c,
                ReconnectTimer (reconnectDelay config
                                * 2 ^ Z.of_nat (Nat.min (attempts c) 5))) in
  let second := (S (nextTimer c),
                 ReconnectTimer (reconnectDelay config
                                 * 2 ^ Z.of_nat (Nat.min (S (attempts c)) 5))) in
  (attempts c = 1%nat /\ nextTimer c = 5%nat) /\
  attempts c2 = S (S (attempts c)) /\
  timers c2 = timers c ++ [first; second] /\
  reconnectTimer c2 = Some (S (nextTimer c)) /\
  In first (timers (disconnect c2)) /\
  ~ In second (timers (disconnect c2)) /\
  let c3 := reconnectTimerFired env config (nextTimer c) 900 (disconnect c2) in
  c3.1 = Pending /\ state c3.2 = connecting.
Proof.
  split; [vm_compute; split; reflexivity|].
  exact (failed_reconnect_schedules_twice WsScenarios.platform WsScenarios.testConfig
           1006 "Connection failed" 900
           (reconnectTimerFired WsScenarios.platform WsScenarios.testConfig 3 200
              (onclose WsScenarios.testConfig 0 1006 "Connection lost"
                 (WsScenarios.connectedClient WsScenarios.testConfig))).2
           ltac:(discriminate) ltac:(vm_compute; discriminate)
           ltac:(vm_compute; reflexivity)
           ltac:(vm_compute; reflexivity) ltac:(vm_compute; reflexivity)).
Defined.

(** *** What send writes *)

Lemma assoc_update k k' v ms :
  Js.assoc k (map (fun kv : string * Js.Value =>
                     if String.eqb kv.1 k' then (kv.1, v) else kv) ms)
  = if String.eqb k k' then
      if existsb (fun kv => String.eqb kv.1 k') ms then Some v else None
    else Js.assoc k ms.
Proof.
  induction ms as [|[k0 v0] ms IH]; cbn.
  - by destruct (String.eqb k k').
  - destruct (String.eqb_spec k0 k') as [->|Hne]; cbn.
    + destruct (String.eqb_spec k k') as [->|Hne']; [reflexivity|exact IH].
    + destruct (String.eqb_spec k k0) as [->|Hne'].
      * by replace (String.eqb k0 k') with false
          by (symmetry; by apply String.eqb_neq).
      * exact IH.
Qed.

Lemma assoc_append k k' v ms :
  existsb (fun kv : string * Js.Value => String.eqb kv.1 k') ms = false ->
  Js.assoc k (ms ++ [(k', v)])
  = if String.eqb k k' then Some v else Js.assoc k ms.
Proof.
  induction ms as [|[k0 v0] ms IH]; cbn; [by destruct (String.eqb k k')|].
  intros [Hk0 Hex]%orb_false_iff.
  destruct (String.eqb_spec k k0) as [->|Hne']; [by rewrite Hk0|by apply IH].
Qed.

Lemma assoc_with_member k k' v ms :
  Js.assoc k (with_member k' v ms)
  = if String.eqb k k' then Some v else Js.assoc k ms.
Proof.
  unfold with_member.
  destruct (existsb (fun kv => String.eqb kv.1 k') ms) eqn:Hex.
  - by rewrite assoc_update, Hex.
  - by apply assoc_append.
Qed.

(** [send] on a connected client.  When the socket takes the frame, [send]
    returns [true] and has written exactly one frame: the message with a
    fresh [requestId] and the [timestamp] of the instant, which replace the
    ones the caller may have put there, every other member being as in the
    message; [messagesSent] has gone up by one and the queue is as before.
    When the socket throws (it is still connecting), [send] returns [false]
    and the message is lost: nothing is written and nothing is queued. *)
Theorem send_on_connected_client env now members c sock :
  state c = connected -> ws c = Some sock ->
  let message := Js.Obj members in
  let r := send env now message c in
  let frame := stamp env now (draws c) message in
  (forall rs, sockets c !! sock = Some rs -> rs <> CONNECTING ->
     r.1 = true /\ added c r.2 = [SocketSend sock frame] /\
     messagesSent (metrics r.2) = S (messagesSent (metrics c)) /\
     messageQueue r.2 = messageQueue c /\
     Js.get frame "requestId"
     = Some (Js.Str ("ws_" +:+ pretty now +:+ "_"
                     +:+ substring 0 9 (random env (draws c)))) /\
     Js.get frame "timestamp" = Some (Js.Str (toISOString env now)) /\
     forall k, k <> "requestId" -> k <> "timestamp" ->
       Js.get frame k = Js.get message k) /\
  (sockets c !! sock = Some CONNECTING ->
     r.1 = false /\ frames (added c r.2) = [] /\
     messagesSent (metrics r.2) = messagesSent (metrics c) /\
     messageQueue r.2 = messageQueue c).
Proof.
  intros Hst Hws message r frame. subst message r frame. split.
  - intros rs Hsock Hrs.
    rewrite (send_open env now _ c sock rs Hst Hws Hsock Hrs). cbn [fst snd].
    split; [reflexivity|]. split; [by apply added_app|].
    split; [reflexivity|]. split; [reflexivity|].
    unfold stamp, Js.get. rewrite !assoc_with_member. cbn [String.eqb Ascii.eqb].
    split; [reflexivity|]. split; [reflexivity|].
    intros k Hk1 Hk2. rewrite !assoc_with_member.
    replace (String.eqb k "timestamp") with false
      by (symmetry; by apply String.eqb_neq).
    by replace (String.eqb k "requestId") with false
      by (symmetry; by apply String.eqb_neq).
  - intros Hsock. unfold send. rewrite Hst, Hws. cbn. rewrite Hsock. cbn.
    split; [reflexivity|]. split; [|by split].
    rewrite (added_app _ _ [ConsoleError "Failed to send WebSocket message:"]);
      reflexivity.
Qed.

Lemma send_on_connected_client_witness :
  let env := WsScenarios.platform in
  let c := WsScenarios.connectedClient WsScenarios.testConfig in
  let r := send env 20 subscribe c in
  r.1 = true /\
  added c r.2
  = [SocketSend 0 (Js.Obj [("type", Js.Str "subscribe");
                           ("requestId", Js.Str "ws_20_k3j9x0q2a");
                           ("channel", Js.Str "alerts");
                           ("timestamp", Js.Str "2024-01-01T00:00:01Z")])] /\
  messagesSent (metrics r.2) = 1%nat.
Proof.
  pose proof (proj1 (send_on_connected_client WsScenarios.platform 20
                       [("type", Js.Str "subscribe"); ("requestId", Js.Str "mine");
                        ("channel", Js.Str "alerts"); ("timestamp", Js.Str "then")]
                       (WsScenarios.connectedClient WsScenarios.testConfig) 0%nat
                       eq_refl eq_refl) OPEN
               ltac:(vm_compute; reflexivity) ltac:(discriminate))
    as (H1 & H2 & H3 & _).
  split; [exact H1|]. split; [exact H2|exact H3].
Defined.

(** A tick of the heartbeat interval writes one [heartbeat] frame when the
    client is connected and its socket is open, and does nothing at all
    otherwise: unlike [send], it never puts anything into the queue. *)
Theorem heartbeat_tick_never_queues env now c :
  let c' := heartbeatTick env now c in
  messageQueue c' = messageQueue c /\
  frames (added c c')
  = if isConnected c then
      match ws c with
      | Some sock => [(sock, stamp env now (draws c) heartbeat)]
      | None => []
      end
    else [].
Proof.
  cbn zeta. unfold heartbeatTick.
  destruct (isConnected c) eqn:Hcon.
  - apply isConnected_true in Hcon as (Hst & sock & Hws & Hsock).
    rewrite (send_open env now _ c sock OPEN Hst Hws Hsock) by discriminate.
    cbn [snd]. rewrite Hws. split; [reflexivity|].
    by rewrite (added_app _ _ [SocketSend sock (stamp env now (draws c) heartbeat)]).
  - split; [reflexivity|]. unfold added. by rewrite drop_all.
Qed.

(** *** Inbound messages *)

Ltac split_char t :=
  let a := fresh "a" in
  let t' := fresh "t" in
  destruct t as [|a t']; [reflexivity|];
  destruct a as [b0 b1 b2 b3 b4 b5 b6 b7];
  destruct b0; try reflexivity;
  destruct b1; try reflexivity;
  destruct b2; try reflexivity;
  destruct b3; try reflexivity;
  destruct b4; try reflexivity;
  destruct b5; try reflexivity;
  destruct b6; try reflexivity;
  destruct b7; try reflexivity.

(** The [switch] of [processMessage] as a chain of comparisons. *)
Lemma processMessage_dispatch env now message c qc t :
  queryClient c = Some qc -> Js.get message "type" = Some (Js.Str t) ->
  processMessage env now message c =
  if String.eqb t "metrics_update" then
    emit (InvalidateQueries qc (queryKey ["pulse"; "metrics"])) c
  else if String.eqb t "security_alert" then
    let c := emit (InvalidateQueries qc (queryKey ["pulse"; "violations"])) c in
    let violationId := Js.get_opt (Js.get message "data") "violationId" in
    match Js.truthy violationId, violationId, Js.get message "data" with
    | true, Some id, Some data =>
        emit (SetQueryData qc (queryKey ["pulse"; "violations"] ++ [id]) data) c
    | _, _, _ => c
    end
  else if String.eqb t "service_status" then
    emit (InvalidateQueries qc (queryKey ["pulse"; "services"])) c
  else if String.eqb t "circuit_breaker_state" then
    emit (InvalidateQueries qc (queryKey ["pulse"; "circuitBreakers"])) c
  else if String.eqb t "heartbeat" then
    (send env now (Js.Obj [("type", Js.Str "heartbeat_ack")]) c).2
  else c.
Proof.
  intros Hqc Ht. unfold processMessage. rewrite Hqc, Ht.
  generalize (emit (InvalidateQueries qc (queryKey ["pulse"; "metrics"])) c) as r1.
  generalize (let c := emit (InvalidateQueries qc (queryKey ["pulse"; "violations"])) c in
    let violationId := Js.get_opt (Js.get message "data") "violationId" in
    match Js.truthy violationId, violationId, Js.get message "data" with
    | true, Some id, Some data =>
        emit (SetQueryData qc (queryKey ["pulse"; "violations"] ++ [id]) data) c
    | _, _, _ => c
    end) as r2.
  generalize (emit (InvalidateQueries qc (queryKey ["pulse"; "services"])) c) as r3.
  generalize (emit (InvalidateQueries qc (queryKey ["pulse"; "circuitBreakers"])) c) as r4.
  generalize ((send env now (Js.Obj [("type", Js.Str "heartbeat_ack")]) c).2) as r5.
  intros r5 r4 r3 r2 r1. clear Hqc Ht.
  repeat (match goal with
          | s : string |- _ => progress split_char s
          end).
Qed.

(** What [send] leaves alone, however it ends. *)
Lemma send_frame env now message c :
  let c' := (send env now message c).2 in
  messagesReceived (metrics c') = messagesReceived (metrics c) /\
  lastMessageTime (metrics c') = lastMessageTime (metrics c) /\
  latencyMeasurements c' = latencyMeasurements c /\
  eventHandlers c' = eventHandlers c /\ queryClient c' = queryClient c /\
  state c' = state c /\
  exists es, effects c' = effects c ++ es /\
             List.filter is_cache_action es = [] /\
             List.filter is_user_message es = [].
Proof.
  unfold send.
  destruct (state_eqb (state c) connected); [destruct (ws c) as [sock|]|]; cbn;
    try (repeat split; exists []; by rewrite app_nil_r).
  destruct (sockets c !! sock) as [[]|]; cbn; repeat split;
    eexists [_]; by repeat split.
Qed.

(** [handleMessage] on a valid message, up to the cache bridge. *)
Lemma handleMessage_valid env now data message ts c :
  JSON_parse env data = Some message ->
  isValidMessage message = true ->
  Js.get message "timestamp" = Some (Js.Str ts) ->
  exists c1,
    handleMessage env now data c
    = (let c2 := processMessage env now message c1 in
       if onMessage (eventHandlers c2) then emit (UserOnMessage message) c2 else c2) /\
    messagesReceived (metrics c1) = S (messagesReceived (metrics c)) /\
    messagesSent (metrics c1) = messagesSent (metrics c) /\
    lastMessageTime (metrics c1) = now /\
    latencyMeasurements c1
    = (if String.eqb ts EmptyString then latencyMeasurements c
       else keep_last 100 (latencyMeasurements c
                           ++ [(fun messageTime => now - messageTime)
                                 <$> Date_parse env ts])) /\
    effects c1 = effects c /\ queryClient c1 = queryClient c /\
    eventHandlers c1 = eventHandlers c /\ state c1 = state c /\ ws c1 = ws c /\
    sockets c1 = sockets c /\ messageQueue c1 = messageQueue c /\ draws c1 = draws c.
Proof.
  intros Hparse Hvalid Hts.
  unfold handleMessage. rewrite Hparse, Hvalid, Hts. cbn [negb Js.truthy].
  eexists. split; [reflexivity|].
  destruct (String.eqb ts EmptyString); cbn -[Nat.ltb keep_last];
    [by repeat split|].
  repeat split.
  destruct (100 <? _)%nat eqn:Hlt; [reflexivity|].
  apply Nat.ltb_ge in Hlt. unfold keep_last.
  by replace (_ - 100)%nat with O by lia.
Qed.

Lemma valid_fields message :
  isValidMessage message = true ->
  exists t ts, Js.get message "type" = Some (Js.Str t) /\
               Js.get message "timestamp" = Some (Js.Str ts).
Proof.
  unfold isValidMessage. rewrite !andb_true_iff. intros [[[_ Ht] Hts] _].
  unfold Js.is_string, Js.typeof in Ht, Hts.
  destruct (Js.get message "type") as [[]|]; try discriminate.
  destruct (Js.get message "timestamp") as [[]|]; try discriminate.
  eauto.
Qed.

(** What the bridge does to the cache for a message of type [t], and what it
    leaves alone. *)
Lemma processMessage_spec env now message c qc t :
  queryClient c = Some qc -> Js.get message "type" = Some (Js.Str t) ->
  let c' := processMessage env now message c in
  messagesReceived (metrics c') = messagesReceived (metrics c) /\
  lastMessageTime (metrics c') = lastMessageTime (metrics c) /\
  latencyMeasurements c' = latencyMeasurements c /\
  eventHandlers c' = eventHandlers c /\
  exists es,
    effects c' = effects c ++ es /\
    List.filter is_user_message es = [] /\
    List.filter is_cache_action es
    = match bridge_key t with
      | Some key => [InvalidateQueries qc (queryKey key)]
      | None => []
      end
      ++ (if String.eqb t "security_alert" then
            match violation_of message with
            | Some (id, payload) =>
                [SetQueryData qc (queryKey ["pulse"; "violations"] ++ [id]) payload]
            | None => []
            end
          else []).
Proof.
  intros Hqc Ht. cbn zeta.
  rewrite (processMessage_dispatch env now message c qc t Hqc Ht).
  unfold bridge_key.
  destruct (String.eqb_spec t "metrics_update") as [->|_].
  { cbn. repeat split. by eexists [_]. }
  destruct (String.eqb_spec t "security_alert") as [->|_].
  { cbn zeta. unfold violation_of.
    destruct (Js.get message "data") as [payload|].
    - generalize (Js.get_opt (Some payload) "violationId"). intros [id|].
      + destruct (Js.truthy (Some id)); cbn; repeat split; eexists;
          (split; [rewrite <- ?app_assoc; reflexivity|by split]).
      + cbn. repeat split. by eexists [_].
    - cbn. repeat split. by eexists [_]. }
  destruct (String.eqb_spec t "service_status") as [->|_].
  { cbn. repeat split. by eexists [_]. }
  destruct (String.eqb_spec t "circuit_breaker_state") as [->|_].
  { cbn. repeat split. by eexists [_]. }
  destruct (String.eqb t "heartbeat").
  - destruct (send_frame env now (Js.Obj [("type", Js.Str "heartbeat_ack")]) c)
      as (? & ? & ? & ? & _ & _ & es & ? & ? & ?).
    repeat split; auto. exists es. by repeat split.
  - repeat split. exists []. by rewrite app_nil_r.
Qed.

Lemma latency_window (ls : list (option Z)) l :
  (length (keep_last 100 (ls ++ [l])) <= Nat.max 100 (length ls))%nat /\
  (length (keep_last 100 (ls ++ [l])) <= 100)%nat /\
  last (keep_last 100 (ls ++ [l])) = Some l.
Proof.
  unfold keep_last. rewrite length_drop, !length_app. cbn [length].
  split; [lia|]. split; [lia|].
  rewrite drop_app_le by lia. apply last_snoc.
Qed.

(** A valid message is counted once, and timed.  [messagesReceived] goes up
    by one, [lastMessageTime] is the instant of arrival, and the latency,
    the instant of arrival less the instant its timestamp parses to (NaN
    when it does not parse), goes to the end of a window of the last 100
    measurements; a message whose timestamp is the empty string is counted
    but not timed. *)
Theorem valid_message_is_counted_and_timed env now data message ts c :
  JSON_parse env data = Some message ->
  isValidMessage message = true ->
  Js.get message "timestamp" = Some (Js.Str ts) ->
  let c' := handleMessage env now data c in
  messagesReceived (metrics c') = S (messagesReceived (metrics c)) /\
  lastMessageTime (metrics c') = now /\
  latencyMeasurements c'
  = (if String.eqb ts EmptyString then latencyMeasurements c
     else keep_last 100 (latencyMeasurements c
                         ++ [(fun messageTime => now - messageTime)
                               <$> Date_parse env ts])) /\
  (length (latencyMeasurements c') <= Nat.max 100 (length (latencyMeasurements c)))%nat.
Proof.
  intros Hparse Hvalid Hts c'. subst c'.
  destruct (handleMessage_valid env now data message ts c Hparse Hvalid Hts)
    as (c1 & -> & Hmr & _ & Hlt & Hlm & _ & Hqc & _).
  destruct (valid_fields message Hvalid) as (t & _ & Hty & _).
  assert (Hpm : let c2 := processMessage env now message c1 in
                messagesReceived (metrics c2) = messagesReceived (metrics c1) /\
                lastMessageTime (metrics c2) = lastMessageTime (metrics c1) /\
                latencyMeasurements c2 = latencyMeasurements c1).
  { destruct (queryClient c1) as [qc|] eqn:Hq1.
    - destruct (processMessage_spec env now message c1 qc t Hq1 Hty) as (? & ? & ? & _).
      by repeat split.
    - unfold processMessage. rewrite Hq1. by repeat split. }
  cbn zeta in *. destruct Hpm as (Hmr2 & Hlt2 & Hlm2).
  assert (Hgoal : forall c2 : Client,
            messagesReceived (metrics c2) = messagesReceived (metrics c1) ->
            lastMessageTime (metrics c2) = lastMessageTime (metrics c1) ->
            latencyMeasurements c2 = latencyMeasurements c1 ->
            let c3 := if onMessage (eventHandlers c2)
                      then emit (UserOnMessage message) c2 else c2 in
            messagesReceived (metrics c3) = S (messagesReceived (metrics c)) /\
            lastMessageTime (metrics c3) = now /\
            latencyMeasurements c3
            = (if String.eqb ts EmptyString then latencyMeasurements c
               else keep_last 100 (latencyMeasurements c
                                   ++ [(fun messageTime => now - messageTime)
                                         <$> Date_parse env ts])) /\
            (length (latencyMeasurements c3)
             <= Nat.max 100 (length (latencyMeasurements c)))%nat).
  { intros c2 H1 H2 H3. cbn zeta.
    assert (H4 : (length (latencyMeasurements c1)
                  <= Nat.max 100 (length (latencyMeasurements c)))%nat).
    { rewrite Hlm. destruct (String.eqb ts EmptyString); [lia|].
      apply latency_window. }
    destruct (onMessage (eventHandlers c2)); cbn [metrics latencyMeasurements emit
      with_effects]; repeat split; congruence. }
  by apply Hgoal.
Qed.

Lemma valid_message_is_counted_and_timed_witness :
  let env := WsScenarios.platform in
  let c := WsScenarios.connectedClient WsScenarios.testConfig in
  let c' := handleMessage env 1704067200500 WsScenarios.alertFrame c in
  messagesReceived (metrics c') = 1%nat /\
  lastMessageTime (metrics c') = 1704067200500 /\
  latencyMeasurements c' = [Some 500] /\
  (length (latencyMeasurements c') <= 100)%nat.
Proof.
  pose proof (valid_message_is_counted_and_timed WsScenarios.platform 1704067200500
                WsScenarios.alertFrame WsScenarios.alertMessage "2024-01-01T00:00:00Z"
                (WsScenarios.connectedClient WsScenarios.testConfig)
                eq_refl eq_refl eq_refl) as (H1 & H2 & H3 & H4).
  split; [exact H1|]. split; [exact H2|]. split; [exact H3|exact H4].
Defined.

(** [handleMessage] on a valid message, in terms of what it adds to the
    trace of effects. *)
Lemma handleMessage_effects env now data message c :
  JSON_parse env data = Some message ->
  isValidMessage message = true ->
  exists c1 t,
    Js.get message "type" = Some (Js.Str t) /\
    queryClient c1 = queryClient c /\ state c1 = state c /\ ws c1 = ws c /\
    sockets c1 = sockets c /\ messageQueue c1 = messageQueue c /\
    draws c1 = draws c /\ effects c1 = effects c /\
    messagesSent (metrics c1) = messagesSent (metrics c) /\
    let c2 := processMessage env now message c1 in
    handleMessage env now data c
    = (if onMessage (eventHandlers c) then emit (UserOnMessage message) c2 else c2) /\
    eventHandlers c2 = eventHandlers c.
Proof.
  intros Hparse Hvalid.
  destruct (valid_fields message Hvalid) as (t & ts & Hty & Hts).
  destruct (handleMessage_valid env now data message ts c Hparse Hvalid Hts)
    as (c1 & Heq & _ & Hms & _ & _ & Hef & Hqc & Heh & Hst & Hws & Hso & Hmq & Hdr).
  exists c1, t. repeat (split; [assumption|]). cbn zeta in *.
  assert (Heh2 : eventHandlers (processMessage env now message c1) = eventHandlers c).
  { rewrite <- Heh. destruct (queryClient c1) as [qc|] eqn:Hq1.
    - by destruct (processMessage_spec env now message c1 qc t Hq1 Hty)
        as (_ & _ & _ & ? & _).
    - unfold processMessage. by rewrite Hq1. }
  split; [|exact Heh2]. by rewrite Heq, Heh2.
Qed.

(** The cache bridge, type by type.  On a valid message, with a cache handle
    at hand, the client invalidates one key, [pulse, metrics] for
    [metrics_update], [pulse, violations] for [security_alert],
    [pulse, services] for [service_status] and [pulse, circuitBreakers] for
    [circuit_breaker_state]; for a [security_alert] that carries a violation
    id it also writes the payload under [pulse, violations, id].  It does
    nothing else to the cache, and nothing at all for a message of any other
    type; the user's callback is called once, if set. *)
Theorem cache_bridge_table env now data message t c qc :
  JSON_parse env data = Some message ->
  isValidMessage message = true ->
  Js.get message "type" = Some (Js.Str t) ->
  queryClient c = Some qc ->
  let c' := handleMessage env now data c in
  List.filter is_cache_action (added c c')
  = match bridge_key t with
    | Some key => [InvalidateQueries qc (queryKey key)]
    | None => []
    end
    ++ (if String.eqb t "security_alert" then
          match violation_of message with
          | Some (id, payload) =>
              [SetQueryData qc (queryKey ["pulse"; "violations"] ++ [id]) payload]
          | None => []
          end
        else []) /\
  List.filter is_user_message (added c c')
  = if onMessage (eventHandlers c) then [UserOnMessage message] else [].
Proof.
  intros Hparse Hvalid Hty Hqc c'. subst c'.
  destruct (handleMessage_effects env now data message c Hparse Hvalid)
    as (c1 & t' & Hty' & Hqc1 & _ & _ & _ & _ & _ & Hef1 & _ & Heq & _).
  assert (t' = t) by congruence. subst t'. cbn zeta in Heq. rewrite Heq.
  rewrite <- Hqc1 in Hqc.
  destruct (processMessage_spec env now message c1 qc t Hqc Hty)
    as (_ & _ & _ & _ & es & Hes & Hum & Hca).
  rewrite Hef1 in Hes.
  destruct (onMessage (eventHandlers c)).
  - rewrite (added_app c _ (es ++ [UserOnMessage message]))
      by (cbn; by rewrite Hes, <- app_assoc).
    rewrite !List.filter_app, Hca, Hum. cbn. by rewrite app_nil_r.
  - rewrite (added_app c _ es) by exact Hes. by rewrite Hca, Hum.
Qed.

Lemma cache_bridge_table_witness :
  let c' := handleMessage knownFrames 99 statusFrame bridged in
  List.filter is_cache_action (added bridged c')
  = [InvalidateQueries 7 (queryKey ["pulse"; "services"])] ++ [] /\
  List.filter is_user_message (added bridged c') = [UserOnMessage statusMessage].
Proof.
  exact (cache_bridge_table knownFrames 99 statusFrame statusMessage "service_status"
           bridged 7%nat eq_refl eq_refl eq_refl
           ltac:(vm_compute; reflexivity)).
Defined.

(** Without a cache handle the bridge is off, and so is the answer to the
    server's heartbeat.  On a valid message of any type, [heartbeat]
    included, a client that was connected without a cache handle touches no
    cache, writes no frame and queues nothing: all it does is call the
    user's callback, if set. *)
Theorem no_cache_handle_no_bridge env now data message c :
  JSON_parse env data = Some message ->
  isValidMessage message = true ->
  queryClient c = None ->
  let c' := handleMessage env now data c in
  added c c' = (if onMessage (eventHandlers c) then [UserOnMessage message] else []) /\
  messageQueue c' = messageQueue c /\
  messagesSent (metrics c') = messagesSent (metrics c).
Proof.
  intros Hparse Hvalid Hqc c'. subst c'.
  destruct (handleMessage_effects env now data message c Hparse Hvalid)
    as (c1 & t & _ & Hqc1 & _ & _ & _ & Hmq & _ & Hef & Hms & Heq & _).
  cbn zeta in Heq. rewrite Heq.
  unfold processMessage. rewrite Hqc1, Hqc.
  destruct (onMessage (eventHandlers c)).
  - split; [apply added_app; cbn; by rewrite Hef|]. by split.
  - split; [apply added_app; by rewrite Hef, app_nil_r|]. by split.
Qed.

Lemma no_cache_handle_no_bridge_witness :
  let c' := handleMessage knownFrames 99 heartbeatFrame unbridged in
  added unbridged c' = [UserOnMessage heartbeatMessage] /\
  messageQueue c' = messageQueue unbridged /\
  messagesSent (metrics c') = messagesSent (metrics unbridged).
Proof.
  exact (no_cache_handle_no_bridge knownFrames 99 heartbeatFrame heartbeatMessage
           unbridged eq_refl eq_refl ltac:(vm_compute; reflexivity)).
Defined.

(** With a cache handle, a connected client whose socket is open answers a
    valid [heartbeat] with exactly one frame, a [heartbeat_ack] stamped like
    every outgoing message, written before the user's callback is called;
    the cache is not touched. *)
Theorem heartbeat_is_acknowledged env now data message c qc sock :
  JSON_parse env data = Some message ->
  isValidMessage message = true ->
  Js.get message "type" = Some (Js.Str "heartbeat") ->
  queryClient c = Some qc ->
  isConnected c = true -> ws c = Some sock ->
  let c' := handleMessage env now data c in
  added c c' = SocketSend sock (stamp env now (draws c) heartbeat_ack)
               :: (if onMessage (eventHandlers c) then [UserOnMessage message] else []) /\
  messagesSent (metrics c') = S (messagesSent (metrics c)).
Proof.
  intros Hparse Hvalid Hty Hqc Hcon Hws c'. subst c'.
  apply isConnected_true in Hcon as (Hst & sock' & Hws' & Hsock).
  assert (sock' = sock) by congruence. subst sock'.
  destruct (handleMessage_effects env now data message c Hparse Hvalid)
    as (c1 & t & _ & Hqc1 & Hst1 & Hws1 & Hso1 & _ & Hdr & Hef & Hms & Heq & _).
  cbn zeta in Heq. rewrite Heq.
  rewrite (processMessage_dispatch env now message c1 qc "heartbeat")
    by congruence.
  cbn [String.eqb Ascii.eqb Bool.eqb].
  rewrite (send_open env now _ c1 sock OPEN) by (congruence || discriminate).
  cbn [snd].
  destruct (onMessage (eventHandlers c)).
  - split; [apply added_app; cbn; by rewrite Hef, Hdr, <- app_assoc|].
    cbn. by rewrite Hms.
  - split; [apply added_app; cbn; by rewrite Hef, Hdr|]. cbn. by rewrite Hms.
Qed.

Lemma heartbeat_is_acknowledged_witness :
  let c' := handleMessage knownFrames 99 heartbeatFrame bridged in
  added bridged c'
  = SocketSend 0 (stamp knownFrames 99 (draws bridged) heartbeat_ack)
    :: [UserOnMessage heartbeatMessage] /\
  messagesSent (metrics c') = S (messagesSent (metrics bridged)).
Proof.
  exact (heartbeat_is_acknowledged knownFrames 99 heartbeatFrame heartbeatMessage
           bridged 7%nat 0%nat eq_refl eq_refl eq_refl
           ltac:(vm_compute; reflexivity) ltac:(vm_compute; reflexivity)
           ltac:(vm_compute; reflexivity)).
Defined.

(** *** The average latency *)

Lemma handleMessage_latency env now data message ts c :
  JSON_parse env data = Some message ->
  isValidMessage message = true ->
  Js.get message "timestamp" = Some (Js.Str ts) ->
  latencyMeasurements (handleMessage env now data c)
  = (if String.eqb ts EmptyString then latencyMeasurements c
     else keep_last 100 (latencyMeasurements c
                         ++ [(fun messageTime => now - messageTime)
                               <$> Date_parse env ts])).
Proof.
  intros Hparse Hvalid Hts.
  destruct (handleMessage_valid env now data message ts c Hparse Hvalid Hts)
    as (c1 & -> & _ & _ & _ & Hlm & _).
  destruct (valid_fields message Hvalid) as (t & _ & Hty & _).
  cbn zeta. rewrite <- Hlm.
  assert (Hpm : latencyMeasurements (processMessage env now message c1)
                = latencyMeasurements c1).
  { destruct (queryClient c1) as [qc|] eqn:Hq1.
    - by destruct (processMessage_spec env now message c1 qc t Hq1 Hty) as (_ & _ & ? & _).
    - unfold processMessage. by rewrite Hq1. }
  by destruct (onMessage _).
Qed.


Lemma total_latency_nan ls : foldl add_latency None ls = None.
Proof. induction ls as [|l ls IH]; cbn; [reflexivity|exact IH]. Qed.

Lemma total_latency_poisoned ls : forall acc,
  In None ls -> foldl add_latency acc ls = None.
Proof.
  induction ls as [|l ls IH]; intros acc Hin; [contradiction|].
  cbn. destruct Hin as [->|Hin].
  - destruct acc; apply total_latency_nan.
  - by apply IH.
Qed.

(** One timestamp that does not parse as a date spoils the average.  After a
    valid message whose timestamp is not empty and parses to no instant,
    the latency recorded is NaN, and [getMetrics] reports NaN as the
    average latency. *)
Theorem unparseable_timestamp_spoils_average env now data message ts t c :
  JSON_parse env data = Some message ->
  isValidMessage message = true ->
  Js.get message "timestamp" = Some (Js.Str ts) ->
  ts <> EmptyString -> Date_parse env ts = None ->
  let c' := handleMessage env now data c in
  last (latencyMeasurements c') = Some None /\
  v_averageLatency (getMetrics t c') = None.
Proof.
  intros Hparse Hvalid Hts Hne Hdate c'.
  assert (Hlm : latencyMeasurements c'
                = keep_last 100 (latencyMeasurements c ++ [None])).
  { subst c'.
    rewrite (handleMessage_latency env now data message ts c Hparse Hvalid Hts), Hdate.
    by replace (String.eqb ts EmptyString) with false
      by (symmetry; by apply String.eqb_neq). }
  clearbody c'.
  destruct (latency_window (latencyMeasurements c) None) as (_ & _ & Hlast).
  rewrite <- Hlm in Hlast. split; [exact Hlast|].
  unfold getMetrics, calculateAverageLatency. cbn [v_averageLatency].
  destruct (latencyMeasurements c') as [|l ls] eqn:Hls; [discriminate|].
  change (length (l :: ls) =? 0)%nat with false. cbv iota.
  rewrite total_latency_poisoned; [reflexivity|].
  rewrite last_lookup in Hlast.
  eapply list_elem_of_In, list_elem_of_lookup_2, Hlast.
Qed.

Lemma unparseable_timestamp_spoils_average_witness :
  let c' := handleMessage knownFrames 99 statusFrame bridged in
  last (latencyMeasurements c') = Some None /\
  v_averageLatency (getMetrics 5000 c') = None.
Proof.
  exact (unparseable_timestamp_spoils_average knownFrames 99 statusFrame statusMessage
           "not a date" 5000 bridged eq_refl eq_refl eq_refl
           ltac:(discriminate) eq_refl).
Defined.

(** *** The delay between reconnection attempts *)

(** The delay before a reconnection grows from [reconnectDelay] and is
    capped at 32 times [reconnectDelay]: it never decreases from one attempt
    to the next, is [reconnectDelay] for the first attempt and 32 times
    [reconnectDelay] from the sixth on; and the timer [attemptReconnect]
    sets has a delay within these bounds, whatever the counter was. *)
Theorem reconnect_delay_is_capped config :
  0 <= reconnectDelay config ->
  (forall k, (1 <= k)%nat ->
     backoff config k <= backoff config (S k) /\
     reconnectDelay config <= backoff config k <= 32 * reconnectDelay config) /\
  backoff config 1 = reconnectDelay config /\
  (forall k, (6 <= k)%nat -> backoff config k = 32 * reconnectDelay config) /\
  (forall c, state c <> reconnecting ->
     exists delay,
       last (timers (attemptReconnect config c))
       = Some (nextTimer c, ReconnectTimer delay) /\
       reconnectDelay config <= delay <= 32 * reconnectDelay config).
Proof.
  intros Hpos.
  assert (Hpow : forall a b : nat, (a <= b)%nat -> (b <= 5)%nat ->
             1 <= 2 ^ Z.of_nat a <= 2 ^ Z.of_nat b /\ 2 ^ Z.of_nat b <= 32).
  { intros a b Hab Hb.
    pose proof (Z.pow_le_mono_r 2 (Z.of_nat a) (Z.of_nat b)) as H1.
    pose proof (Z.pow_le_mono_r 2 0 (Z.of_nat a)) as H2.
    pose proof (Z.pow_le_mono_r 2 (Z.of_nat b) 5) as H3.
    change (2 ^ 5) with 32 in H3. change (2 ^ 0) with 1 in H2. lia. }
  assert (Hbound : forall e : nat, (e <= 5)%nat ->
            reconnectDelay config <= reconnectDelay config * 2 ^ Z.of_nat e
            <= 32 * reconnectDelay config).
  { intros e He. destruct (Hpow e e) as [[? _] ?]; [lia..|]. nia. }
  split; [|split; [|split]].
  - intros k Hk. unfold backoff. split.
    + destruct (Hpow (Nat.min (k - 1) 5) (Nat.min (S k - 1) 5)) as [[_ ?] _];
        [lia..|]. nia.
    + apply Hbound. lia.
  - unfold backoff. cbn. lia.
  - intros k Hk. unfold backoff.
    replace (Nat.min (k - 1) 5) with 5%nat by lia.
    change (2 ^ Z.of_nat 5) with 32. lia.
  - intros c Hst.
    destruct (attemptReconnect_spec config c Hst) as (_ & _ & Htm & _).
    cbn zeta in Htm. rewrite Htm, last_snoc. eexists. split; [reflexivity|].
    apply Hbound. lia.
Qed.

Lemma reconnect_delay_is_capped_witness :
  let config := WsScenarios.testConfig in
  (forall k, (1 <= k)%nat ->
     backoff config k <= backoff config (S k) /\
     reconnectDelay config <= backoff config k <= 32 * reconnectDelay config) /\
  backoff config 1 = reconnectDelay config /\
  (forall k, (6 <= k)%nat -> backoff config k = 32 * reconnectDelay config) /\
  (forall c, state c <> reconnecting ->
     exists delay,
       last (timers (attemptReconnect config c))
       = Some (nextTimer c, ReconnectTimer delay) /\
       reconnectDelay config <= delay <= 32 * reconnectDelay config).
Proof.
  exact (reconnect_delay_is_capped WsScenarios.testConfig
           ltac:(vm_compute; discriminate)).
Defined.

End WebSocketMoreFacts.

(** ** Properties of the query hooks *)

Module PulseHooksFacts.
Import WebSocketClient WebSocketReaders PulseHooks.

(** The keys of the cache bridge and the keys of the query hooks agree.
    Each key the event-stream client invalidates is the beginning of the key
    of a query hook, the one for violations of the key of
    [useSecurityViolations] whatever its filters; none is the beginning of a
    key of [useTimeSeriesData], so no event refreshes a time series; and the
    key under which the payload of a security alert is written is the key
    [useSecurityViolations] reads under when its filters are the violation
    id. *)
Theorem bridge_keys_meet_hook_keys :
  (forall type key, bridge_key type = Some key ->
     exists h, reaches (queryKey key) (queryKey_of h)) /\
  (forall filters, reaches (queryKey ["pulse"; "violations"]) (violations filters)) /\
  (forall type key metric timeRange, bridge_key type = Some key ->
     ~ reaches (queryKey key) (timeSeries metric timeRange)) /\
  (forall id, map Some (queryKey ["pulse"; "violations"] ++ [id]) = violations (Some id)).
Proof.
  unfold reaches, bridge_key. repeat apply conj.
  - intros type key.
    destruct (String.eqb type "metrics_update");
      [intros [= <-]; exists usePulseMetrics; by exists []|].
    destruct (String.eqb type "security_alert");
      [intros [= <-]; exists (useSecurityViolations None); by exists [None]|].
    destruct (String.eqb type "service_status");
      [intros [= <-]; exists useServiceHealth; by exists []|].
    destruct (String.eqb type "circuit_breaker_state");
      [intros [= <-]; exists useCircuitBreakers; by exists []|].
    discriminate.
  - intros filters. by exists [filters].
  - intros type key metric timeRange.
    destruct (String.eqb type "metrics_update");
      [intros [= <-] [k Hk]; discriminate Hk|].
    destruct (String.eqb type "security_alert");
      [intros [= <-] [k Hk]; discriminate Hk|].
    destruct (String.eqb type "service_status");
      [intros [= <-] [k Hk]; discriminate Hk|].
    destruct (String.eqb type "circuit_breaker_state");
      [intros [= <-] [k Hk]; discriminate Hk|].
    discriminate.
  - reflexivity.
Qed.

Lemma bridge_keys_meet_hook_keys_witness :
  bridge_key "service_status" = Some ["pulse"; "services"] /\
  exists h, reaches (queryKey ["pulse"; "services"]) (queryKey_of h).
Proof.
  split; [reflexivity|].
  exact (proj1 bridge_keys_meet_hook_keys "service_status" ["pulse"; "services"]
           eq_refl).
Defined.

(** The retry delay of [usePulseMetrics] doubles from one second and is
    capped at thirty: it is [1000 * 2^i] for an index below 5 and 30000 from
    5 on, and it never decreases. *)
Theorem query_retry_delay_is_capped i :
  1000 <= retryDelay i <= 30000 /\
  retryDelay i <= retryDelay (S i) /\
  ((i < 5)%nat -> retryDelay i = 1000 * 2 ^ Z.of_nat i) /\
  ((5 <= i)%nat -> retryDelay i = 30000).
Proof.
  unfold retryDelay.
  assert (H0 : 1 <= 2 ^ Z.of_nat i).
  { pose proof (Z.pow_le_mono_r 2 0 (Z.of_nat i)) as H. change (2 ^ 0) with 1 in H. lia. }
  assert (HS : 2 ^ Z.of_nat i <= 2 ^ Z.of_nat (S i)).
  { apply Z.pow_le_mono_r; lia. }
  split; [lia|]. split; [lia|]. split.
  - intros Hlt.
    assert (2 ^ Z.of_nat i <= 2 ^ 4) by (apply Z.pow_le_mono_r; lia).
    change (2 ^ 4) with 16 in *. lia.
  - intros Hge.
    assert (2 ^ 5 <= 2 ^ Z.of_nat i) by (apply Z.pow_le_mono_r; lia).
    change (2 ^ 5) with 32 in *. lia.
Qed.

Lemma query_retry_delay_is_capped_witness :
  1000 <= retryDelay 2 <= 30000 /\
  retryDelay 2 <= retryDelay 3 /\
  ((2 < 5)%nat -> retryDelay 2 = 1000 * 2 ^ Z.of_nat 2) /\
  ((5 <= 2)%nat -> retryDelay 2 = 30000).
Proof. exact (query_retry_delay_is_capped 2). Defined.

End PulseHooksFacts.
